(** * dire_wolf_to_navit: a shallow embedding of [dire_wolf_to_navit.py]

    The script reads the CSV log that Dire Wolf writes, keeps the latest
    report of every station in the dictionary [POI_DICTIONARY], drops stale
    reports, rewrites a Navit POI file, and prints a mock GPGGA sentence.

    Python values are modelled as follows.
    - [str]: the list of its code points ([pystr]); [ord] and [chr] are the
      identity on code points, [chr] raising above [0x10FFFF].
    - [int]: [Z] (code points: [N]).
    - [float]: a binary64 value, finite ones by the rational they denote
      ([pyfloat]); arithmetic rounds to nearest, ties to even.
    - [dict]: an association list in insertion order without duplicate keys.
    - exceptions: the error monad [result].
    - the clock, the file system and the built-in parsers [float] and
      [datetime.fromisoformat] are explicit parameters. *)

From Stdlib Require Import ZArith NArith QArith Qabs Qround Qpower Qreduction.
From Stdlib Require Import Lia Lqa Bool List Ascii String.
From Stdlib Require Import Floats Uint63.
From Stdlib Require Import Permutation Sorted.
Import ListNotations.

Set Implicit Arguments.

Close Scope Q_scope.
Open Scope Z_scope.

(** ** Exceptions *)

Inductive exn : Type :=
| ValueError
| TypeError
| OverflowError
| KeyError
| OSError.

Inductive result (A : Type) : Type :=
| Ok (a : A)
| Raise (e : exn).

Arguments Ok {A} a.
Arguments Raise {A} e.

Definition bind {A B : Type} (m : result A) (k : A -> result B) : result B :=
  match m with
  | Ok a => k a
  | Raise e => Raise e
  end.

Declare Scope py_scope.
Delimit Scope py_scope with py.
Notation "x <- m ;; k" := (bind m (fun x => k))
  (at level 61, m at next level, right associativity) : py_scope.
Open Scope py_scope.

(** ** Strings *)

(** A Python string is the sequence of its code points. *)
Definition pystr : Type := list N.

(** An ASCII literal as a Python string. *)
Definition lit (s : string) : pystr :=
  List.map N_of_ascii (list_ascii_of_string s).

Module Py.

Definition max_code_point : N := 0x10FFFF.

(** [chr(i)]: [ValueError] outside [range(0x110000)]. *)
Definition chr (i : N) : result N :=
  if (i <=? max_code_point)%N then Ok i else Raise ValueError.

(** [ord(c)] of a one-character string is its code point. *)
Definition ord (c : N) : N := c.

Definition str_eqb (a b : pystr) : bool :=
  if list_eq_dec N.eq_dec a b then true else false.

(** The digit characters '0'..'9', 'A'..'F'. *)
Definition digit_char (d : N) : N :=
  if (d <? 10)%N then (48 + d)%N else (55 + d)%N.

(** The digits of [n] in base [b], most significant first; [fuel] bounds
    the number of digits. *)
Fixpoint digits_aux (fuel : nat) (b n : N) (acc : pystr) : pystr :=
  match fuel with
  | O => acc
  | S fuel' =>
      let acc' := digit_char (n mod b) :: acc in
      if (n / b =? 0)%N then acc' else digits_aux fuel' b (n / b) acc'
  end.

Definition digits (b n : N) : pystr :=
  digits_aux (S (N.to_nat (N.log2 n))) b n [].

(** Left padding with ['0'] up to [width] characters. *)
Definition zfill (width : nat) (s : pystr) : pystr :=
  List.repeat 48%N (width - List.length s)%nat ++ s.

(** ['{0:02X}'.format(n)] for [n >= 0]: upper-case hexadecimal, at least
    two characters. *)
Definition format_02X (n : N) : pystr := zfill 2%nat (digits 16 n).

(** [str(n)] for an [int]. *)
Definition str_of_int (n : Z) : pystr :=
  match n with
  | Zneg p => 45%N :: digits 10 (Npos p)
  | _ => digits 10 (Z.to_N n)
  end.

(** [a < b] on strings: lexicographic on code points. *)
Fixpoint str_ltb (a b : pystr) : bool :=
  match a, b with
  | _, [] => false
  | [], _ :: _ => true
  | x :: a', y :: b' => (x <? y)%N || ((x =? y)%N && str_ltb a' b')
  end.

(** The code points for which [str.isspace] holds. *)
Definition is_whitespace (c : N) : bool :=
  ((9 <=? c) && (c <=? 13) || (28 <=? c) && (c <=? 32)
   || (c =? 0x85) || (c =? 0xA0) || (c =? 0x1680)
   || (0x2000 <=? c) && (c <=? 0x200A)
   || (c =? 0x2028) || (c =? 0x2029) || (c =? 0x202F)
   || (c =? 0x205F) || (c =? 0x3000))%N.

(** [s.isspace()]: at least one character, all of them whitespace. *)
Definition isspace (s : pystr) : bool :=
  match s with
  | [] => false
  | _ => List.forallb is_whitespace s
  end.

Fixpoint lstrip (s : pystr) : pystr :=
  match s with
  | c :: s' => if is_whitespace c then lstrip s' else s
  | [] => []
  end.

(** [s.strip()]. *)
Definition strip (s : pystr) : pystr :=
  List.rev (lstrip (List.rev (lstrip s))).

(** [s.replace(old, new)] for a one-character [old]. *)
Definition replace_char (old : N) (new : pystr) (s : pystr) : pystr :=
  List.flat_map (fun c => if (c =? old)%N then new else [c]) s.

(** *** Floats *)

(** A binary64 value. A finite one is given by the rational it denotes
    (the two zeros are not told apart: the script compares and subtracts
    them, which does not tell them apart either). *)
Inductive pyfloat : Type :=
| Ffinite (q : Q)
| Finf (negative : bool)
| Fnan.

(** [x < n] and [x > n] for a float [x] and an int [n]: exact, and false
    on [nan]. *)
Definition float_lt_int (x : pyfloat) (n : Z) : bool :=
  match x with
  | Ffinite q => if Qlt_le_dec q (inject_Z n) then true else false
  | Finf negative => negative
  | Fnan => false
  end.

Definition float_gt_int (x : pyfloat) (n : Z) : bool :=
  match x with
  | Ffinite q => if Qlt_le_dec (inject_Z n) q then true else false
  | Finf negative => negb negative
  | Fnan => false
  end.

(** The nearest integer, ties to even. *)
Definition round_half_even (q : Q) : Z :=
  let f := Qfloor q in
  match Qcompare (q - inject_Z f) (1 # 2) with
  | Lt => f
  | Gt => f + 1
  | Eq => if Z.even f then f else f + 1
  end.

(** [floor (log2 |q|)] for [q <> 0]. *)
Definition ilog2 (q : Q) : Z :=
  let e := Z.log2 (Z.abs (Qnum q)) - Z.log2 (Zpos (Qden q)) in
  if Qle_bool (Qpower 2 e) (Qabs q) then e else e - 1.

(** The exponent of the unit in the last place of the binary64 values
    around [q]: 53 significant bits, and no finer than [2^-1074]. *)
Definition ulp_exp (q : Q) : Z := Z.max (ilog2 q - 52) (-1074).

(** The rational nearest to [q] on the binary64 grid around it, ties to
    even. *)
Definition b64_nearest (q : Q) : Q :=
  (inject_Z (round_half_even (q / Qpower 2 (ulp_exp q)))
   * Qpower 2 (ulp_exp q))%Q.

(** Rounding to binary64: the nearest value, and an infinity from
    [2^1024] on. *)
Definition b64_round (q : Q) : pyfloat :=
  let r := b64_nearest q in
  if Qle_bool (Qpower 2 1024) (Qabs r)
  then Finf (if Qlt_le_dec r 0 then true else false)
  else Ffinite (Qred r).

Definition is_negative (q : Q) : bool :=
  if Qlt_le_dec q 0 then true else false.

(** [abs(x)]. *)
Definition float_abs (x : pyfloat) : pyfloat :=
  match x with
  | Ffinite q => Ffinite (Qabs q)
  | Finf _ => Finf false
  | Fnan => Fnan
  end.

(** [math.floor(x)], an [int]. *)
Definition math_floor (x : pyfloat) : result Z :=
  match x with
  | Ffinite q => Ok (Qfloor q)
  | Finf _ => Raise OverflowError
  | Fnan => Raise ValueError
  end.

(** [float(n)] for an [int]. *)
Definition float_of_int (n : Z) : result pyfloat :=
  match b64_round (inject_Z n) with
  | Finf _ => Raise OverflowError
  | x => Ok x
  end.

(** [int(x)] for a float: towards zero. *)
Definition int_of_float (x : pyfloat) : result Z :=
  match x with
  | Ffinite q => Ok (Z.quot (Qnum q) (Zpos (Qden q)))
  | Finf _ => Raise OverflowError
  | Fnan => Raise ValueError
  end.

(** [x - y]. *)
Definition float_sub (x y : pyfloat) : pyfloat :=
  match x, y with
  | Fnan, _ | _, Fnan => Fnan
  | Finf s, Finf t => if Bool.eqb s t then Fnan else Finf s
  | Finf s, Ffinite _ => Finf s
  | Ffinite _, Finf t => Finf (negb t)
  | Ffinite a, Ffinite b => b64_round (a - b)
  end.

(** [x * y]. *)
Definition float_mul (x y : pyfloat) : pyfloat :=
  match x, y with
  | Fnan, _ | _, Fnan => Fnan
  | Finf s, Finf t => Finf (xorb s t)
  | Finf s, Ffinite q | Ffinite q, Finf s =>
      if Qeq_bool q 0 then Fnan else Finf (xorb s (is_negative q))
  | Ffinite a, Ffinite b => b64_round (a * b)
  end.

(** ['{0:09.6f}'.format(x)]: six digits after the point, the last one
    rounded on the exact value with ties to even; zeros after the sign up
    to nine characters. *)
Definition format_09_6f (x : pyfloat) : pystr :=
  match x with
  | Ffinite q =>
      let m := Z.to_N (round_half_even (Qabs q * inject_Z 1000000)) in
      let text :=
        digits 10 (m / 1000000) ++ [46%N]
        ++ zfill 6%nat (digits 10 (m mod 1000000)) in
      if is_negative q then 45%N :: zfill 8%nat text else zfill 9%nat text
  | Finf negative =>
      if negative then lit "-00000inf" else lit "000000inf"
  | Fnan => lit "000000nan"
  end.

(** *** Dates and times *)

(** A [datetime]: the microseconds from 0001-01-01T00:00:00 to its wall
    clock reading, and its [tzinfo], [None] (naive) or a fixed offset from
    UTC in microseconds. *)
Record datetime : Type := {
  wall : Z;
  utcoffset : option Z
}.

(** [date.max.toordinal()] days of microseconds: the first wall clock
    reading after [datetime.max]. *)
Definition wall_end : Z := 3652059 * 86400 * 1000000.

(** [timedelta(minutes = m)] in microseconds; [OverflowError] beyond
    999999999 days. *)
Definition timedelta_minutes (m : Z) : result Z :=
  let us := m * 60 * 1000000 in
  if (Z.abs (us / (86400 * 1000000)) <=? 999999999) then Ok us
  else Raise OverflowError.

(** [t + delta]: the same [tzinfo]; [OverflowError] outside
    [datetime.min .. datetime.max]. *)
Definition datetime_add (t : datetime) (delta : Z) : result datetime :=
  let w := wall t + delta in
  if (0 <=? w) && (w <? wall_end) then
    Ok {| wall := w; utcoffset := utcoffset t |}
  else Raise OverflowError.

(** [a < b]: on the instants when both are aware, on the wall clock
    readings when both are naive, [TypeError] otherwise. *)
Definition datetime_lt (a b : datetime) : result bool :=
  match utcoffset a, utcoffset b with
  | Some oa, Some ob => Ok (wall a - oa <? wall b - ob)
  | None, None => Ok (wall a <? wall b)
  | _, _ => Raise TypeError
  end.

(** [datetime.datetime.utcnow().replace(tzinfo = datetime.timezone.utc)]
    when the clock reads [utc] microseconds. *)
Definition utcnow_aware (utc : Z) : datetime :=
  {| wall := utc; utcoffset := Some 0 |}.

(** [datetime.datetime.now()] when the clock reads [utc] microseconds
    and local time is [zone] microseconds ahead of UTC: naive, on the
    local wall clock. *)
Definition datetime_now (utc zone : Z) : datetime :=
  {| wall := utc + zone; utcoffset := None |}.

(** [datetime.datetime.utcnow()]: naive, on the UTC wall clock. *)
Definition datetime_utcnow (utc : Z) : datetime :=
  {| wall := utc; utcoffset := None |}.

(** [t.strftime('%H%M%S')]. *)
Definition strftime_HMS (t : datetime) : pystr :=
  let s := (wall t / 1000000) mod 86400 in
  zfill 2%nat (digits 10 (Z.to_N (s / 3600)))
  ++ zfill 2%nat (digits 10 (Z.to_N ((s / 60) mod 60)))
  ++ zfill 2%nat (digits 10 (Z.to_N (s mod 60))).

(** *** The built-in parsers *)

(** [float(s)] and [datetime.datetime.fromisoformat(s)] on a string; a
    [Raise] is the [ValueError] of a malformed one. What they accept
    depends on the interpreter's version, so the script is modelled over
    any pair of them; [Reference] below gives one to compute with. *)
Class Parsers : Type := {
  float : pystr -> result pyfloat;
  fromisoformat : pystr -> result datetime
}.

(** *** Sorting *)

Section Sorted.

Variable A : Type.
Variable key : A -> pystr.

(** Insertion of [x] in front of a list sorted in descending order of
    [key]: behind the larger keys, before the equal ones. *)
Fixpoint insert_desc (x : A) (l : list A) : list A :=
  match l with
  | [] => [x]
  | y :: l' => if str_ltb (key x) (key y) then y :: insert_desc x l'
               else x :: l
  end.

(** [sorted(l, key = key, reverse = True)]: the stable sort in descending
    order of [key], where equal keys keep the order they have in [l]. *)
Definition sorted_reverse (l : list A) : list A :=
  List.fold_right insert_desc [] l.

(** Each element has a key that is not less than the keys behind it. *)
Definition descending (l : list A) : Prop :=
  StronglySorted (fun a b => str_ltb (key a) (key b) = false) l.

(** The elements of one key, in the order they have in the list. *)
Definition with_key (s : pystr) (l : list A) : list A :=
  List.filter (fun a => str_eqb (key a) s) l.

End Sorted.

End Py.

(** ** NMEA sentence checksum *)

(** The loop body of [get_checksum]:
    [checksum = chr(ord(checksum) ^ ord(c))]. *)
Definition checksum_step (checksum : result N) (c : N) : result N :=
  checksum <- checksum ;;
  Py.chr (N.lxor (Py.ord checksum) (Py.ord c)).

Definition get_checksum (sentence : pystr) : result pystr :=
  checksum <- List.fold_left checksum_step sentence (Py.chr 0%N) ;;
  Ok (Py.format_02X (Py.ord checksum)).

(** The XOR of the code points of a string. *)
Definition xor_fold (s : pystr) : N := List.fold_left N.lxor s 0%N.

(** The characters a two-digit upper-case hexadecimal rendering may use. *)
Definition is_upper_hex (c : N) : Prop :=
  (48 <= c <= 57)%N \/ (65 <= c <= 70)%N.

Definition latin1 (s : pystr) : Prop := Forall (fun c => (c < 256)%N) s.

(** ** Configuration *)

(** The constants at the top of the script. The two thresholds may be set
    to [None]; the paths of the log and of the POI file name the two files
    that are passed explicitly below. *)
Record config : Type := {
  LATITUDE : Py.pyfloat;
  LONGITUDE : Py.pyfloat;
  NAVIT_POI_ACTIVE_ICON_FILE_PATH : pystr;
  NAVIT_POI_INACTIVE_ICON_FILE_PATH : pystr;
  CLEAR_DIRE_WOLF_CSV_LOG_FILE_AFTER_READING : bool;
  SHOW_COMMENT_FIELD : bool;
  MINUTES_UNTIL_APRS_INACTIVE : option Z;
  MINUTES_UNTIL_APRS_REMOVED : option Z
}.

(** ** Coordinates in NMEA format *)

(** NMEA format: ddmm.mmmmmm,c *)
Definition convert_latitude_to_nmea_format
    (decimal_degree_latitude : Py.pyfloat) : result pystr :=
  let unsigned_decimal_degree := Py.float_abs decimal_degree_latitude in
  whole <- Py.math_floor unsigned_decimal_degree ;;
  degrees <- Py.float_of_int whole ;;
  let minutes := Py.float_sub unsigned_decimal_degree degrees in
  let cardinal :=
    if Py.float_lt_int decimal_degree_latitude 0 then lit "S" else lit "N" in
  d <- Py.int_of_float degrees ;;
  Ok (Py.str_of_int d
      ++ Py.format_09_6f (Py.float_mul minutes (Py.Ffinite 60))
      ++ lit "," ++ cardinal).

(** NMEA format: dddmm.mmmmmm,c *)
Definition convert_longitude_to_nmea_format
    (decimal_degree_longitude : Py.pyfloat) : result pystr :=
  let unsigned_decimal_degree := Py.float_abs decimal_degree_longitude in
  whole <- Py.math_floor unsigned_decimal_degree ;;
  degrees <- Py.float_of_int whole ;;
  let minutes := Py.float_sub unsigned_decimal_degree degrees in
  let cardinal :=
    if Py.float_lt_int decimal_degree_longitude 0 then lit "W" else lit "E" in
  d <- Py.int_of_float degrees ;;
  Ok (Py.str_of_int d
      ++ Py.format_09_6f (Py.float_mul minutes (Py.Ffinite 60))
      ++ lit "," ++ cardinal).

(** *** The shape of the result and its decoding *)

(** The minutes field for a number of millionths of a minute: two digits,
    the point and six digits. *)
Definition minutes_field (micro : N) : pystr :=
  Py.zfill 2%nat (Py.digits 10 (micro / 1000000)) ++ [46%N]
  ++ Py.zfill 6%nat (Py.digits 10 (micro mod 1000000)).

(** Degrees, minutes field, comma and letter. *)
Definition nmea_text (degrees : Z) (micro : N) (cardinal : pystr) : pystr :=
  Py.str_of_int degrees ++ minutes_field micro ++ lit "," ++ cardinal.

Definition is_decimal (c : N) : bool := ((48 <=? c) && (c <=? 57))%N.

(** The number that decimal digits denote, behind the digits of [acc]. *)
Fixpoint digits_value (acc : N) (s : pystr) : option N :=
  match s with
  | [] => Some acc
  | c :: s' =>
      if is_decimal c then digits_value (10 * acc + (c - 48))%N s' else None
  end.

Definition number_of_digits (s : pystr) : option N :=
  match s with
  | [] => None
  | _ => digits_value 0%N s
  end.

Definition is_south_or_west (c : N) : option bool :=
  if ((c =? 78) || (c =? 69))%N then Some false
  else if ((c =? 83) || (c =? 87))%N then Some true
  else None.

(** The words of the specification for the decoding of a coordinate: the
    last eleven characters are the minutes field, the comma and the
    letter, the ones before them the degrees; the value is
    degrees + minutes / 60, negated for [S] and [W]. *)
Definition nmea_decode (s : pystr) : option Q :=
  let n := List.length s in
  match List.skipn (n - 11) s with
  | [m1; m2; point; f1; f2; f3; f4; f5; f6; comma; c] =>
      if ((point =? 46) && (comma =? 44))%N then
        match number_of_digits (List.firstn (n - 11) s),
              number_of_digits [m1; m2],
              number_of_digits [f1; f2; f3; f4; f5; f6],
              is_south_or_west c with
        | Some d, Some m, Some f, Some negative =>
            let v :=
              (inject_Z (Z.of_N d)
               + (inject_Z (Z.of_N m) + (Z.of_N f # 1000000)) / 60)%Q in
            Some (if negative then Qopp v else v)
        | _, _, _, _ => None
        end
      else None
  | _ => None
  end.

(** What the specification asks of a converter on the coordinate [x]:
    the result is the whole degrees, the minutes field of nine characters
    with six digits behind the point, a comma and the letter, [south] for
    a negative [x] and [north] otherwise; and its decoding is within half
    a millionth of a minute of [x], and what binary64 arithmetic adds to
    it, [2^-47] minutes. *)
Definition coordinate_encoded (convert : Py.pyfloat -> result pystr)
    (south north : pystr) (limit : Z) (x : Q) : Prop :=
  exists (degrees micro : N) (v : Q),
    let text :=
      nmea_text (Z.of_N degrees) micro
        (if Qlt_le_dec x 0 then south else north) in
    convert (Py.Ffinite x) = Ok text
    /\ Z.of_N degrees < limit
    /\ (micro <= 60000000)%N
    /\ List.length (minutes_field micro) = 9%nat
    /\ nmea_decode text = Some v
    /\ (Qabs (v - x) * 60 <= (1 # 2000000) + (1 # 140737488355328))%Q.

(** ** The mock GPS sentence *)

(** The text between ['$'] and ['*']. *)
Definition gpgga_body (current_time nmea_latitude nmea_longitude : pystr)
  : pystr :=
  lit "GPGGA," ++ current_time ++ lit "," ++ nmea_latitude ++ lit ","
  ++ nmea_longitude ++ lit ",1,12,1.0,0.0,M,0.0,M,,".

(** The clock reads [utc]; the local time of the machine is [zone]
    microseconds ahead of UTC. *)
Definition get_mock_gps_location_in_nmea_gpgga_format
    (cfg : config) (utc zone : Z) : result pystr :=
  let current_time := Py.strftime_HMS (Py.datetime_now utc zone) in
  nmea_latitude <- convert_latitude_to_nmea_format (LATITUDE cfg) ;;
  nmea_longitude <- convert_longitude_to_nmea_format (LONGITUDE cfg) ;;
  let nmea := gpgga_body current_time nmea_latitude nmea_longitude in
  checksum <- get_checksum nmea ;;
  Ok (lit "$" ++ nmea ++ lit "*" ++ checksum).

(** ** The dictionary *)

(** The value stored for a station: a dictionary with these five keys. *)
Record entry : Type := {
  isotime : pystr;
  source : pystr;
  latitude : pystr;
  longitude : pystr;
  comment : pystr
}.

(** [POI_DICTIONARY]: station to entry, in insertion order. *)
Definition dict : Type := list (pystr * entry).

Definition dict_keys (d : dict) : list pystr := List.map fst d.

Definition dict_values (d : dict) : list entry := List.map snd d.

(** [d[k]]. *)
Fixpoint dict_item (d : dict) (k : pystr) : result entry :=
  match d with
  | [] => Raise KeyError
  | (k', v) :: d' => if Py.str_eqb k k' then Ok v else dict_item d' k
  end.

(** [d[k] = v]: an existing key keeps its place, a new one goes last. *)
Fixpoint dict_set (d : dict) (k : pystr) (v : entry) : dict :=
  match d with
  | [] => [(k, v)]
  | (k', v') :: d' =>
      if Py.str_eqb k k' then (k', v) :: d' else (k', v') :: dict_set d' k v
  end.

(** [del d[k]] for a key of [d]. *)
Fixpoint dict_del (d : dict) (k : pystr) : dict :=
  match d with
  | [] => []
  | (k', v') :: d' =>
      if Py.str_eqb k k' then d' else (k', v') :: dict_del d' k
  end.

(** ** Rows of the log *)

(** A row as [csv.DictReader] yields it: field name to value, where a
    field that the line is too short for has the value [None]. *)
Definition row : Type := list (pystr * option pystr).

(** [row.get(k)]: [None] for a missing key as for a [None] value. *)
Fixpoint row_get (r : row) (k : pystr) : option pystr :=
  match r with
  | [] => None
  | (k', v) :: r' => if Py.str_eqb k k' then v else row_get r' k
  end.

(** [k in row]. *)
Definition row_contains (r : row) (k : pystr) : bool :=
  List.existsb (fun kv => Py.str_eqb k (fst kv)) r.

Section Script.

Context {parsers : Py.Parsers}.

(** ** Validation of the fields *)

Definition iso_string_valid (iso_string : pystr) : bool :=
  match Py.fromisoformat (Py.replace_char 90 (lit "+00:00") iso_string) with
  | Ok _ => true
  | Raise _ => false
  end.

Definition latitude_string_valid (latitude_string : pystr) : bool :=
  match
    a <- Py.float latitude_string ;;
    if Py.float_gt_int a (-90)
    then b <- Py.float latitude_string ;; Ok (Py.float_lt_int b 90)
    else Ok false
  with
  | Ok b => b
  | Raise _ => false
  end.

Definition longitude_string_valid (longitude_string : pystr) : bool :=
  match
    a <- Py.float longitude_string ;;
    if Py.float_gt_int a (-180)
    then b <- Py.float longitude_string ;; Ok (Py.float_lt_int b 180)
    else Ok false
  with
  | Ok b => b
  | Raise _ => false
  end.

(** A validator applied to [row.get(k)]: on [None] the conversion raises,
    which the validator catches. *)
Definition on_field (valid : pystr -> bool) (field : option pystr) : bool :=
  match field with
  | Some s => valid s
  | None => false
  end.

(** ** Reading the log *)

Definition is_not_None (field : option pystr) : bool :=
  match field with
  | Some _ => true
  | None => false
  end.

Definition valid_source (r : row) : bool :=
  match row_get r (lit "source") with
  | Some s => negb (Py.str_eqb s (lit "source")) && negb (Py.isspace s)
  | None => false
  end.

Definition valid_latitude (r : row) : bool :=
  is_not_None (row_get r (lit "latitude"))
  && on_field latitude_string_valid (row_get r (lit "latitude")).

(** The longitude is present, and the validator of longitudes accepts the
    latitude: [longitude_string_valid(row.get('latitude'))]. *)
Definition valid_longitude (r : row) : bool :=
  is_not_None (row_get r (lit "longitude"))
  && on_field longitude_string_valid (row_get r (lit "latitude")).

Definition valid_isotime (r : row) : bool :=
  is_not_None (row_get r (lit "isotime"))
  && on_field iso_string_valid (row_get r (lit "isotime")).

Definition all_valid (r : row) : bool :=
  valid_source r && valid_latitude r && valid_longitude r && valid_isotime r.

(** The comment of a row: stripped, empty when there is none. *)
Definition row_comment (r : row) : pystr :=
  if row_contains r (lit "comment") then
    match row_get r (lit "comment") with
    | Some c => Py.strip c
    | None => []
    end
  else [].

(** The entry built from a row; the four fields are strings once the row
    is valid. *)
Definition entry_of_row (r : row) : option entry :=
  match row_get r (lit "isotime"), row_get r (lit "source"),
        row_get r (lit "latitude"), row_get r (lit "longitude") with
  | Some i, Some s, Some la, Some lo =>
      Some {| isotime := i; source := s; latitude := la; longitude := lo;
              comment := row_comment r |}
  | _, _, _, _ => None
  end.

(** The body of the loop over the rows. *)
Definition ingest_row (d : dict) (r : row) : dict :=
  if negb (all_valid r) then d
  else
    match entry_of_row r with
    | Some e => dict_set d (source e) e
    | None => d
    end.

(** The log file is [None] when it does not exist, and else the rows a
    [csv.DictReader] reads from it. The result is the dictionary and the
    log file afterwards. *)
Definition refresh_dictionary_from_dire_wolf_csv_log_file
    (cfg : config) (log : option (list row)) (d : dict)
  : dict * option (list row) :=
  match log with
  | None => (d, None)
  | Some rows =>
      (List.fold_left ingest_row rows d,
       if CLEAR_DIRE_WOLF_CSV_LOG_FILE_AFTER_READING cfg then Some []
       else Some rows)
  end.

(** ** Ages *)

(** [threshold is not None and
     then + datetime.timedelta(minutes = threshold) < now]
    for [then] read from the entry and [now] from a clock at [utc]. *)
Definition older_than (threshold : option Z) (utc : Z) (e : entry)
  : result bool :=
  then_ <- Py.fromisoformat (Py.replace_char 90 (lit "+00:00") (isotime e)) ;;
  let now := Py.utcnow_aware utc in
  match threshold with
  | None => Ok false
  | Some m =>
      delta <- Py.timedelta_minutes m ;;
      limit <- Py.datetime_add then_ delta ;;
      Py.datetime_lt limit now
  end.

(** The words of the specification for the age of an entry. The instant
    of its time, in microseconds of UTC, is there when the time is read
    with an offset from UTC. *)
Definition instant_of (e : entry) : option Z :=
  match Py.fromisoformat (Py.replace_char 90 (lit "+00:00") (isotime e)) with
  | Ok t =>
      match Py.utcoffset t with
      | Some o => Some (Py.wall t - o)
      | None => None
      end
  | Raise _ => None
  end.

(** [entry.timestamp + threshold < now], and never with no threshold. *)
Definition expired (threshold : option Z) (now : Z) (e : entry) : bool :=
  match threshold, instant_of e with
  | Some m, Some i => i + m * 60 * 1000000 <? now
  | _, _ => false
  end.

(** The time of the entry can be read; and under a threshold it has an
    offset from UTC, and the threshold and the time with the threshold
    added are within the ranges of [timedelta] and [datetime]. *)
Definition utc_stamped (threshold : option Z) (e : entry) : bool :=
  match Py.fromisoformat (Py.replace_char 90 (lit "+00:00") (isotime e)) with
  | Ok t =>
      match threshold with
      | None => true
      | Some m =>
          match Py.utcoffset t, Py.timedelta_minutes m with
          | Some _, Ok delta =>
              (0 <=? Py.wall t + delta) && (Py.wall t + delta <? Py.wall_end)
          | _, _ => false
          end
      end
  | Raise _ => false
  end.

(** ** Removing stale entries *)

(** The loop over [list(POI_DICTIONARY.keys())]; the clock reads
    [clock i] in the iteration number [i]. An exception ends the loop and
    leaves the dictionary as it is then. *)
Fixpoint remove_stale_loop (cfg : config) (clock : nat -> Z) (i : nat)
    (keys : list pystr) (d : dict) : dict * result unit :=
  match keys with
  | [] => (d, Ok tt)
  | key :: keys' =>
      match
        e <- dict_item d key ;;
        older_than (MINUTES_UNTIL_APRS_REMOVED cfg) (clock i) e
      with
      | Raise x => (d, Raise x)
      | Ok true => remove_stale_loop cfg clock (S i) keys' (dict_del d key)
      | Ok false => remove_stale_loop cfg clock (S i) keys' d
      end
  end.

Definition remove_stale_entries_from_dictionary
    (cfg : config) (clock : nat -> Z) (d : dict) : dict * result unit :=
  remove_stale_loop cfg clock 0 (dict_keys d) d.

(** ** Writing the POI file *)

Definition quote : pystr := [34%N].

(** The em dash between blanks. *)
Definition m_dash : pystr := [32%N; 8212%N; 32%N].

(** The path of the icon of an entry. *)
Definition icon_file_path (cfg : config) (is_inactive : bool) : pystr :=
  if is_inactive then NAVIT_POI_INACTIVE_ICON_FILE_PATH cfg
  else NAVIT_POI_ACTIVE_ICON_FILE_PATH cfg.

Definition poi_label (cfg : config) (e : entry) : pystr :=
  let comment_is_not_empty :=
    (0 <? List.length (Py.strip (comment e)))%nat in
  source e
  ++ (if SHOW_COMMENT_FIELD cfg && comment_is_not_empty
      then m_dash ++ comment e else []).

(** The line of an entry with the given icon. *)
Definition poi_format (e : entry) (icon label : pystr) : pystr :=
  lit "mg: " ++ longitude e ++ lit " " ++ latitude e
  ++ lit " isotime=" ++ quote ++ isotime e ++ quote
  ++ lit " type=" ++ quote ++ lit "poi_custom0" ++ quote
  ++ lit " icon_src=" ++ quote ++ icon ++ quote
  ++ lit " label=" ++ quote ++ label ++ quote ++ [10%N].

(** The body of the loop over the sorted entries, up to the string
    that is written. *)
Definition poi_line (cfg : config) (utc : Z) (e : entry) : result pystr :=
  is_inactive <- older_than (MINUTES_UNTIL_APRS_INACTIVE cfg) utc e ;;
  Ok (poi_format e (icon_file_path cfg is_inactive) (poi_label cfg e)).

(** The line of an entry whose icon is chosen in the words of the
    specification: the inactive one when [expired] holds. *)
Definition poi_text (cfg : config) (now : Z) (e : entry) : pystr :=
  poi_format e
    (icon_file_path cfg (expired (MINUTES_UNTIL_APRS_INACTIVE cfg) now e))
    (poi_label cfg e).

(** The loop over the sorted entries, with the file as the text that the
    script has written to it: [file] is the text of the calls of [write]
    that have returned, which is what the file holds once it has been
    closed without an exception. [write_fails i] tells whether the call
    number [i] raises, as it does when the file object hands its buffer
    on in the course of the call and the storage fails. What the storage
    holds of the file when a call or the closing raises is the matter of
    [write_entries_to] below. *)
Fixpoint write_entries (cfg : config) (clock : nat -> Z)
    (write_fails : nat -> bool) (i : nat) (entries : list entry)
    (file : pystr) : pystr * result unit :=
  match entries with
  | [] => (file, Ok tt)
  | e :: entries' =>
      match poi_line cfg (clock i) e with
      | Raise x => (file, Raise x)
      | Ok line =>
          if write_fails i then (file, Raise OSError)
          else write_entries cfg clock write_fails (S i) entries'
                 (file ++ line)
      end
  end.

(** Opening the file with ['w+'] empties it; [file] is what it held. The
    result is the text that has been written to it, which is what it
    holds afterwards when there was no exception: nothing has failed
    then, the closing of the file at the end of the [with] statement
    included. [refresh_navit_poi_file_on_storage] below has the file
    object and the storage written out, and gives the bytes that the
    storage holds in every case. *)
Definition refresh_navit_poi_file_from_dictionary
    (cfg : config) (clock : nat -> Z) (write_fails : nat -> bool)
    (d : dict) (file : pystr) : pystr * result unit :=
  let file := @nil N in
  let sorted_poi_dictionary := Py.sorted_reverse isotime (dict_values d) in
  write_entries cfg clock write_fails 0 sorted_poi_dictionary file.

(** ** The POI file on the storage *)

(** Above, the file is the text that the script has written. Here it is
    the bytes that the storage holds, with the file object of
    [open(..., 'w+', encoding = 'utf-8', errors = 'replace')] between the
    two: [write] puts the text into a buffer, and the bytes reach the
    storage when the buffer is full and when the file is closed. *)

(** The bytes of a character in UTF-8. A surrogate has no encoding and,
    with [errors = 'replace'], is written as a question mark. The last
    case is for the code points from 65536 to 1114111, the last one that a
    string can hold. *)
Definition utf8_char (c : N) : list N :=
  (if c <? 128 then [c]
   else if c <? 2048 then [192 + c / 64; 128 + c mod 64]
   else if (55296 <=? c) && (c <=? 57343) then [63]
   else if c <? 65536
     then [224 + c / 4096; 128 + (c / 64) mod 64; 128 + c mod 64]
   else [240 + c / 262144; 128 + (c / 4096) mod 64; 128 + (c / 64) mod 64;
         128 + c mod 64])%N.

(** The bytes of a text that is written in text mode: every line feed is
    replaced by the line separator of the system, [linesep] (on Linux the
    line feed itself), and the text is encoded. *)
Definition text_bytes (linesep : pystr) (s : pystr) : list N :=
  List.flat_map utf8_char
    (List.flat_map (fun c => if (c =? 10)%N then linesep else [c]) s).

(** The file object: the bytes of the file that the storage holds, and
    the bytes that the object has taken and not yet handed on. *)
Record file_object : Type := {
  on_storage : list N;
  in_buffer : list N
}.

(** The storage takes the bytes of the file up to [capacity] of them (the
    disk is full then, or the file has the greatest size that it may
    have), and all of them when there is no such limit. A storage that
    fails in another way, by an error of the device for one, is not
    modelled. *)
Definition within (capacity : option nat) (n : nat) : bool :=
  match capacity with
  | Some k => (n <=? k)%nat
  | None => true
  end.

(** The bytes that the storage has room for. *)
Definition cut (capacity : option nat) (bytes : list N) : list N :=
  match capacity with
  | Some k => List.firstn k bytes
  | None => bytes
  end.

(** The object hands the bytes of its buffer on to the storage, all but
    the last [keep] of them. The storage takes the bytes that it has room
    for, and a byte that it does not take is an [OSError]. What becomes
    of the bytes that it did not take makes no difference: the storage
    takes no byte after them. *)
Definition file_flush (capacity : option nat) (keep : nat) (f : file_object)
  : file_object * result unit :=
  let n := (List.length (in_buffer f) - keep)%nat in
  let bytes := on_storage f ++ List.firstn n (in_buffer f) in
  ({| on_storage := cut capacity bytes;
      in_buffer := List.skipn n (in_buffer f) |},
   if within capacity (List.length bytes) then Ok tt else Raise OSError).

(** [write]: the bytes of the text go into the buffer, and the object
    hands bytes on when it finds the buffer full. How many bytes it
    keeps is a matter of the sizes of its buffers: [keep] is that number,
    and with a [keep] of the size of the buffer or more nothing is handed
    on. *)
Definition file_write (linesep : pystr) (capacity : option nat) (keep : nat)
    (f : file_object) (s : pystr) : file_object * result unit :=
  file_flush capacity keep
    {| on_storage := on_storage f;
       in_buffer := in_buffer f ++ text_bytes linesep s |}.

(** [close] hands on all the bytes of the buffer. *)
Definition file_close (capacity : option nat) (f : file_object)
  : file_object * result unit :=
  file_flush capacity 0 f.

(** The loop over the sorted entries; [keep i] is what the file object
    keeps in its buffer at the end of the write number [i]. *)
Fixpoint write_entries_to (cfg : config) (clock : nat -> Z)
    (linesep : pystr) (capacity : option nat) (keep : nat -> nat) (i : nat)
    (entries : list entry) (navit_poi_file : file_object)
  : file_object * result unit :=
  match entries with
  | [] => (navit_poi_file, Ok tt)
  | e :: entries' =>
      match poi_line cfg (clock i) e with
      | Raise x => (navit_poi_file, Raise x)
      | Ok line =>
          match file_write linesep capacity (keep i) navit_poi_file line with
          | (f, Raise x) => (f, Raise x)
          | (f, Ok _) =>
              write_entries_to cfg clock linesep capacity keep (S i)
                entries' f
          end
      end
  end.

(** [refresh_navit_poi_file_from_dictionary] with the file object written
    out. Opening the file with ['w+'] empties it; [file] is what it held.
    The [with] statement closes the file when the loop has ended, by an
    exception or not, and an exception of the closing is the one that is
    passed on. The result is what the storage holds afterwards. *)
Definition refresh_navit_poi_file_on_storage
    (cfg : config) (clock : nat -> Z) (linesep : pystr)
    (capacity : option nat) (keep : nat -> nat) (d : dict) (file : list N)
  : list N * result unit :=
  let navit_poi_file := {| on_storage := []; in_buffer := [] |} in
  let sorted_poi_dictionary := Py.sorted_reverse isotime (dict_values d) in
  let (f, r) :=
    write_entries_to cfg clock linesep capacity keep 0 sorted_poi_dictionary
      navit_poi_file in
  match file_close capacity f with
  | (f', Raise x) => (on_storage f', Raise x)
  | (f', Ok _) => (on_storage f', r)
  end.

(** ** The thread *)

(** One turn of the loop of [dire_wolf_to_navit]: an exception ends the
    thread, and the steps behind it do not run. *)
Definition dire_wolf_to_navit_cycle
    (cfg : config) (clock1 clock2 : nat -> Z) (write_fails : nat -> bool)
    (log : option (list row)) (d : dict) (file : pystr)
  : dict * option (list row) * pystr * result unit :=
  let (d1, log1) := refresh_dictionary_from_dire_wolf_csv_log_file cfg log d in
  match remove_stale_entries_from_dictionary cfg clock1 d1 with
  | (d2, Raise x) => (d2, log1, file, Raise x)
  | (d2, Ok _) =>
      let (file2, r) :=
        refresh_navit_poi_file_from_dictionary cfg clock2 write_fails d2 file
      in (d2, log1, file2, r)
  end.

(** The time of the entry passed the validator. *)
Definition time_valid (e : entry) : Prop :=
  iso_string_valid (isotime e) = true.

(** The dictionaries that the thread can hold: empty at the start, then
    after each reading of a log and each removal of stale entries, ended
    by an exception or not. *)
Inductive reachable : dict -> Prop :=
| reachable_start : reachable []
| reachable_refresh (cfg : config) (log : option (list row)) (d : dict) :
    reachable d ->
    reachable (fst (refresh_dictionary_from_dire_wolf_csv_log_file cfg log d))
| reachable_remove (cfg : config) (clock : nat -> Z) (d : dict) :
    reachable d ->
    reachable (fst (remove_stale_entries_from_dictionary cfg clock d)).

End Script.

(** ** The constants of the script *)

Definition default_config : config := {|
  LATITUDE := Py.b64_round (33435 # 1000);
  LONGITUDE := Py.b64_round (- (11200833334 # 100000000));
  NAVIT_POI_ACTIVE_ICON_FILE_PATH :=
    lit "/home/pi/dire_wolf_to_navit/icons/gprs_active.png";
  NAVIT_POI_INACTIVE_ICON_FILE_PATH :=
    lit "/home/pi/dire_wolf_to_navit/icons/gprs_inactive.png";
  CLEAR_DIRE_WOLF_CSV_LOG_FILE_AFTER_READING := true;
  SHOW_COMMENT_FIELD := true;
  MINUTES_UNTIL_APRS_INACTIVE := Some 5;
  MINUTES_UNTIL_APRS_REMOVED := Some 60
|}.

Definition DIRE_WOLF_CSV_FIELD_NAMES : list pystr :=
  List.map lit
    ["chan"; "utime"; "isotime"; "source"; "heard"; "level"; "error"; "dti";
     "name"; "symbol"; "latitude"; "longitude"; "speed"; "course";
     "altitude"; "frequency"; "offset"; "tone"; "system"; "status";
     "telemetry"; "comment"]%string.

(** ** Reference parsers *)

(** Parsers to compute with. They accept the ASCII strings of the
    documented formats: for [float] an optional sign, then [inf],
    [infinity], [nan] or a decimal number with an optional exponent, with
    blanks around; for [fromisoformat] the format of Python 3.7 to 3.10,
    [YYYY-MM-DD[*HH[:MM[:SS[.fff[fff]]]][+HH:MM[:SS[.ffffff]]]]]. *)
Module Reference.

Definition is_digit (c : N) : bool := ((48 <=? c) && (c <=? 57))%N.

Definition digit_value (c : N) : Z := Z.of_N c - 48.

(** The value of a sequence of digit values. *)
Definition number_of (ds : list Z) : Z :=
  List.fold_left (fun a d => 10 * a + d) ds 0.

(** The digits and underscores that continue a digit part. *)
Fixpoint digitpart_rest (s : pystr) : list Z * pystr :=
  match s with
  | c :: s' =>
      if is_digit c then
        let (ds, r) := digitpart_rest s' in (digit_value c :: ds, r)
      else if (c =? 95)%N then
        match s' with
        | c' :: _ => if is_digit c' then digitpart_rest s' else ([], s)
        | [] => ([], s)
        end
      else ([], s)
  | [] => ([], [])
  end.

(** [digit (["_"] digit)*] *)
Definition digitpart (s : pystr) : option (list Z * pystr) :=
  match s with
  | c :: _ => if is_digit c then Some (digitpart_rest s) else None
  | [] => None
  end.

(** [[digitpart] "." digitpart | digitpart ["."]]: the digits before and
    after the point, and the rest. *)
Definition number (s : pystr) : option (list Z * list Z * pystr) :=
  match digitpart s with
  | Some (ip, r) =>
      match r with
      | 46%N :: r' =>
          match digitpart r' with
          | Some (fp, r'') => Some (ip, fp, r'')
          | None => Some (ip, [], r')
          end
      | _ => Some (ip, [], r)
      end
  | None =>
      match s with
      | 46%N :: r' =>
          match digitpart r' with
          | Some (fp, r'') => Some ([], fp, r'')
          | None => None
          end
      | _ => None
      end
  end.

Definition signed (s : pystr) : bool * pystr :=
  match s with
  | 43%N :: r => (false, r)
  | 45%N :: r => (true, r)
  | _ => (false, s)
  end.

(** [(e | E) [sign] digitpart] up to the end, or nothing. *)
Definition exponent (s : pystr) : option Z :=
  match s with
  | [] => Some 0
  | c :: r =>
      if ((c =? 101) || (c =? 69))%N then
        let (negative, r') := signed r in
        match digitpart r' with
        | Some (ds, []) =>
            Some (if negative then - number_of ds else number_of ds)
        | _ => None
        end
      else None
  end.

Definition lower (c : N) : N :=
  if ((65 <=? c) && (c <=? 90))%N then (c + 32)%N else c.

Definition float (s : pystr) : result Py.pyfloat :=
  let (negative, s') := signed (Py.strip s) in
  let word := List.map lower s' in
  if Py.str_eqb word (lit "inf") || Py.str_eqb word (lit "infinity")
  then Ok (Py.Finf negative)
  else if Py.str_eqb word (lit "nan") then Ok Py.Fnan
  else
    match number s' with
    | Some (ip, fp, r) =>
        match exponent r with
        | Some e =>
            let q := (inject_Z (number_of (ip ++ fp))
                      * Qpower 10 (e - Z.of_nat (List.length fp)))%Q in
            Ok (Py.b64_round (if negative then Qopp q else q))
        | None => Raise ValueError
        end
    | None => Raise ValueError
    end.

(** Exactly [n] digits. *)
Fixpoint take_digits (n : nat) (acc : Z) (s : pystr) : option (Z * pystr) :=
  match n with
  | O => Some (acc, s)
  | S n' =>
      match s with
      | c :: s' =>
          if is_digit c then take_digits n' (10 * acc + digit_value c) s'
          else None
      | [] => None
      end
  end.

(** [.fff[fff]] up to the end, in microseconds. *)
Definition fraction (s : pystr) : option Z :=
  match List.length s with
  | 3%nat =>
      match take_digits 3 0 s with
      | Some (v, _) => Some (v * 1000)
      | None => None
      end
  | 6%nat =>
      match take_digits 6 0 s with
      | Some (v, _) => Some v
      | None => None
      end
  | _ => None
  end.

(** [HH[:MM[:SS[.fff[fff]]]]] up to the end. *)
Definition hh_mm_ss_ff (s : pystr) : option (Z * Z * Z * Z) :=
  match take_digits 2 0 s with
  | Some (h, []) => Some (h, 0, 0, 0)
  | Some (h, 58%N :: r) =>
      match take_digits 2 0 r with
      | Some (m, []) => Some (h, m, 0, 0)
      | Some (m, 58%N :: r') =>
          match take_digits 2 0 r' with
          | Some (sec, []) => Some (h, m, sec, 0)
          | Some (sec, 46%N :: r'') =>
              match fraction r'' with
              | Some us => Some (h, m, sec, us)
              | None => None
              end
          | _ => None
          end
      | _ => None
      end
  | _ => None
  end.

(** The text before the first sign, the sign and the text behind it. *)
Fixpoint split_at_sign (s : pystr) : pystr * option (bool * pystr) :=
  match s with
  | [] => ([], None)
  | c :: s' =>
      if (c =? 43)%N then ([], Some (false, s'))
      else if (c =? 45)%N then ([], Some (true, s'))
      else let (a, b) := split_at_sign s' in (c :: a, b)
  end.

Definition microseconds (h m s us : Z) : Z :=
  ((h * 60 + m) * 60 + s) * 1000000 + us.

Definition is_leap (y : Z) : bool :=
  (y mod 4 =? 0) && (negb (y mod 100 =? 0) || (y mod 400 =? 0)).

Definition days_in_month (y m : Z) : Z :=
  if m =? 2 then (if is_leap y then 29 else 28)
  else if (m =? 4) || (m =? 6) || (m =? 9) || (m =? 11) then 30 else 31.

Definition days_before_year (y : Z) : Z :=
  let p := y - 1 in p * 365 + p / 4 - p / 100 + p / 400.

Definition days_before_month (y m : Z) : Z :=
  List.fold_left (fun a k => a + days_in_month y (Z.of_nat k))
    (List.seq 1 (Z.to_nat (m - 1))) 0.

(** The date is one of the calendar, from the year 1 to the year 9999. *)
Definition date_ok (y m d : Z) : bool :=
  (1 <=? y) && (y <=? 9999) && (1 <=? m) && (m <=? 12)
  && (1 <=? d) && (d <=? days_in_month y m).

Definition time_ok (h m s : Z) : bool :=
  (h <? 24) && (m <? 60) && (s <? 60).

(** The time and the offset of the text behind the separator. *)
Definition time_and_zone (s : pystr) : option (Z * option Z) :=
  let (timestr, zone) := split_at_sign s in
  match hh_mm_ss_ff timestr with
  | Some (h, m, sec, us) =>
      if time_ok h m sec then
        match zone with
        | None => Some (microseconds h m sec us, None)
        | Some (negative, tzstr) =>
            let n := List.length tzstr in
            if (Nat.eqb n 5 || Nat.eqb n 8 || Nat.eqb n 15)%nat then
              match hh_mm_ss_ff tzstr with
              | Some (zh, zm, zs, zus) =>
                  let off := microseconds zh zm zs zus in
                  if off <? 86400 * 1000000 then
                    Some (microseconds h m sec us,
                          Some (if negative then - off else off))
                  else None
              | None => None
              end
            else None
        end
      else None
  | None => None
  end.

Definition fromisoformat (s : pystr) : result Py.datetime :=
  match take_digits 4 0 s with
  | Some (y, 45%N :: r) =>
      match take_digits 2 0 r with
      | Some (m, 45%N :: r') =>
          match take_digits 2 0 r' with
          | Some (d, rest) =>
              if date_ok y m d then
                let day :=
                  (days_before_year y + days_before_month y m + d - 1)
                  * 86400 * 1000000 in
                match rest with
                | [] => Ok {| Py.wall := day; Py.utcoffset := None |}
                | _ :: t =>
                    match time_and_zone t with
                    | Some (us, zone) =>
                        Ok {| Py.wall := day + us; Py.utcoffset := zone |}
                    | None => Raise ValueError
                    end
                end
              else Raise ValueError
          | None => Raise ValueError
          end
      | _ => Raise ValueError
      end
  | _ => Raise ValueError
  end.

Definition parsers : Py.Parsers :=
  {| Py.float := float; Py.fromisoformat := fromisoformat |}.

End Reference.

(** ** The times that Dire Wolf writes *)

(** A time of the log, [YYYY-MM-DDTHH:MM:SSZ], by its six numbers. *)
Record stamp : Type := {
  year : Z;
  month : Z;
  day : Z;
  hour : Z;
  minute : Z;
  second : Z
}.

(** The numbers are the ones of a date and of a time of the day. *)
Definition stamp_ok (t : stamp) : bool :=
  Reference.date_ok (year t) (month t) (day t)
  && (0 <=? hour t) && (0 <=? minute t) && (0 <=? second t)
  && Reference.time_ok (hour t) (minute t) (second t).

(** A number below 100 in two digits. *)
Definition two_digits (n : Z) : pystr :=
  [Z.to_N (48 + n / 10); Z.to_N (48 + n mod 10)].

Definition four_digits (n : Z) : pystr :=
  two_digits (n / 100) ++ two_digits (n mod 100).

Definition dire_wolf_isotime (t : stamp) : pystr :=
  four_digits (year t) ++ lit "-" ++ two_digits (month t) ++ lit "-"
  ++ two_digits (day t) ++ lit "T" ++ two_digits (hour t) ++ lit ":"
  ++ two_digits (minute t) ++ lit ":" ++ two_digits (second t) ++ lit "Z".

(** The instant of the time, in microseconds from 0001-01-01T00:00:00 UTC. *)
Definition stamp_instant (t : stamp) : Z :=
  (Reference.days_before_year (year t)
   + Reference.days_before_month (year t) (month t) + day t - 1)
  * 86400 * 1000000
  + Reference.microseconds (hour t) (minute t) (second t) 0.

(** The order of the six numbers, the year first. *)
Definition stamp_ltb (a b : stamp) : bool :=
  (year a <? year b)
  || (year a =? year b)
     && ((month a <? month b)
         || (month a =? month b)
            && ((day a <? day b)
                || (day a =? day b)
                   && ((hour a <? hour b)
                       || (hour a =? hour b)
                          && ((minute a <? minute b)
                              || (minute a =? minute b)
                                 && (second a <? second b))))).

(** The entries are in descending order of the instants of their
    times. *)
Definition by_instant_descending {parsers : Py.Parsers} (l : list entry)
  : Prop :=
  StronglySorted
    (fun a b =>
       match instant_of a, instant_of b with
       | Some x, Some y => y <= x
       | _, _ => False
       end)
    l.

(** The day that a leap year has more. *)
Definition leap_day (y : Z) : Z := if Reference.is_leap y then 1 else 0.

(** The number of the day in its year. *)
Definition day_of_year (t : stamp) : Z :=
  Reference.days_before_month (year t) (month t) + day t.

(** The entry has a time in the form that Dire Wolf writes. *)
Definition dire_wolf_stamped (e : entry) : Prop :=
  exists t, stamp_ok t = true /\ isotime e = dire_wolf_isotime t.

(** ** Rows as the reader builds them *)

(** [dict(zip(fieldnames, values))], the fields that [values] is too
    short for set to [None]. *)
Fixpoint dict_reader_row (fieldnames values : list pystr) : row :=
  match fieldnames with
  | [] => []
  | f :: fieldnames' =>
      match values with
      | [] => (f, None) :: dict_reader_row fieldnames' []
      | v :: values' => (f, Some v) :: dict_reader_row fieldnames' values'
      end
  end.

(** The row of a line of the log with the given time, station, position
    and comment, the other fields empty. *)
Definition report (isotime source latitude longitude comment : string)
  : row :=
  dict_reader_row DIRE_WOLF_CSV_FIELD_NAMES
    ([lit "0"; lit "0"; lit isotime; lit source]
     ++ List.repeat [] 6 ++ [lit latitude; lit longitude]
     ++ List.repeat [] 9 ++ [lit comment]).

(** ** Machine floats *)

(** The binary64 values of the machine, to compare the model of
    [float] with. *)
Definition pyfloat_of_machine (f : PrimFloat.float) : Py.pyfloat :=
  match Prim2SF f with
  | S754_zero _ => Py.Ffinite 0
  | S754_infinity s => Py.Finf s
  | S754_nan => Py.Fnan
  | S754_finite s m e =>
      Py.Ffinite
        (Qred (inject_Z (if s then Z.neg m else Z.pos m) * Qpower 2 e))
  end.

(** The float [m * 2^e], for [|m| < 2^53]. *)
Definition machine_float (me : Z * Z) : PrimFloat.float :=
  let m := PrimFloat.of_uint63 (Uint63.of_Z (Z.abs (fst me))) in
  Z.ldexp (if fst me <? 0 then PrimFloat.opp m else m) (snd me).

(** Quotients of whole numbers: the coordinates of the script, thirds,
    and numbers between two floats, halfway and not. *)
Definition ratio_samples : list (Z * Z) :=
  [(33435, 1000); (11200833334, 100000000); (1, 10); (1, 3); (2, 3);
   (9007199254740993, 1); (9007199254740995, 1); (9007199254740991, 2);
   (1, 9007199254740991); (179999999999, 1000000000);
   (5, 1000000000000)].

(** Pairs of floats whose products and differences are exact, rounded,
    halfway, subnormal, or beyond the largest float. *)
Definition float_samples : list ((Z * Z) * (Z * Z)) :=
  [((3, 0), (5, 0)); ((1, 600), (1, 600)); ((-1, 600), (1, 600));
   ((1, -600), (1, -500)); ((3, -1074), (1, -1)); ((1, -1074), (1, -1));
   ((9007199254740991, 0), (9007199254740991, 0));
   ((9007199254740991, 971), (1, 918));
   ((9007199254740991, 971), (1, 917));
   ((9007199254740991, 971), (-9007199254740991, 971));
   ((4503599627370497, -52), (1, -53));
   ((4503599627370497, -52), (3, -54));
   ((7, -1074), (9007199254740991, -53))].

(** ** Data for the examples *)

(** The instant 2024-01-01T12:00:00 UTC, in microseconds. *)
Definition noon : Z := 63839664000000000 + 12 * 3600 * 1000000.

(** Two stations heard 61 and 59 minutes before [noon]. *)
Definition heard_61 : entry :=
  {| isotime := lit "2024-01-01T10:59:00Z"; source := lit "OLD";
     latitude := lit "33.1"; longitude := lit "-112.1"; comment := [] |}.

Definition heard_59 : entry :=
  {| isotime := lit "2024-01-01T11:01:00Z"; source := lit "NEW";
     latitude := lit "33.2"; longitude := lit "-112.2";
     comment := lit "test" |}.

Definition two_stations : dict := [(lit "OLD", heard_61); (lit "NEW", heard_59)].

(** The constants of the script with the two thresholds set to [None]. *)
Definition no_thresholds : config := {|
  LATITUDE := LATITUDE default_config;
  LONGITUDE := LONGITUDE default_config;
  NAVIT_POI_ACTIVE_ICON_FILE_PATH :=
    NAVIT_POI_ACTIVE_ICON_FILE_PATH default_config;
  NAVIT_POI_INACTIVE_ICON_FILE_PATH :=
    NAVIT_POI_INACTIVE_ICON_FILE_PATH default_config;
  CLEAR_DIRE_WOLF_CSV_LOG_FILE_AFTER_READING := true;
  SHOW_COMMENT_FIELD := true;
  MINUTES_UNTIL_APRS_INACTIVE := None;
  MINUTES_UNTIL_APRS_REMOVED := None
|}.

(** A station heard six minutes before [noon]. *)
Definition six_minutes_ago : entry :=
  {| isotime := lit "2024-01-01T11:54:00Z"; source := lit "N0CALL";
     latitude := lit "33.1"; longitude := lit "-112.1";
     comment := lit "test" |}.




(** ** What the dictionary holds *)

(** What reading the log asks of a row before it stores its entry under
    the key: the key is the station of the entry, it is not the word of
    the header line and not blank, the latitude and the time passed their
    validators, and the comment is stripped. *)
Definition stored_ok {parsers : Py.Parsers} (kv : pystr * entry) : Prop :=
  source (snd kv) = fst kv
  /\ fst kv <> lit "source"
  /\ Py.isspace (fst kv) = false
  /\ latitude_string_valid (latitude (snd kv)) = true
  /\ iso_string_valid (isotime (snd kv)) = true
  /\ Py.strip (comment (snd kv)) = comment (snd kv).

(** The assignments that reading the rows makes, in their order. *)
Definition row_entries {parsers : Py.Parsers} (rows : list row)
  : list (pystr * entry) :=
  List.flat_map
    (fun r =>
       if all_valid r then
         match entry_of_row r with
         | Some e => [(source e, e)]
         | None => []
         end
       else [])
    rows.

(** [d[k] = v] for each pair, in their order. *)
Definition dict_update (d : dict) (l : list (pystr * entry)) : dict :=
  List.fold_left (fun d kv => dict_set d (fst kv) (snd kv)) l d.

(** The entries that the removal keeps when the entry number [i] of the
    dictionary is looked at while the clock reads [clock i]. *)
Fixpoint kept_by_clock {parsers : Py.Parsers} (threshold : option Z)
    (clock : nat -> Z) (i : nat) (d : dict) : dict :=
  match d with
  | [] => []
  | kv :: d' =>
      if expired threshold (clock i) (snd kv)
      then kept_by_clock threshold clock (S i) d'
      else kv :: kept_by_clock threshold clock (S i) d'
  end.

(** The lines of the entries when the line of the entry number [i] is
    made while the clock reads [clock i]. *)
Fixpoint lines_by_clock {parsers : Py.Parsers} (cfg : config)
    (clock : nat -> Z) (i : nat) (entries : list entry) : pystr :=
  match entries with
  | [] => []
  | e :: entries' =>
      poi_text cfg (clock i) e ++ lines_by_clock cfg clock (S i) entries'
  end.

(** A threshold that is not set, or one of no more than a year. *)
Definition threshold_ok (threshold : option Z) : Prop :=
  match threshold with
  | Some m => 0 <= m <= 525600
  | None => True
  end.

(** A time in the form that Dire Wolf writes, before the year 9999. *)
Definition dire_wolf_time (s : pystr) : Prop :=
  exists t, stamp_ok t = true /\ year t <= 9998 /\ s = dire_wolf_isotime t.


(** ** Reading a checksum *)

(** The value of a hexadecimal digit, [0] to [9] and [A] to [F]. *)
Definition hex_digit (c : N) : option N :=
  if ((48 <=? c) && (c <=? 57))%N then Some (c - 48)%N
  else if ((65 <=? c) && (c <=? 70))%N then Some (c - 55)%N
  else None.

(** The number that hexadecimal digits denote, behind the digits of
    [acc]. *)
Fixpoint hex_value (acc : N) (s : pystr) : option N :=
  match s with
  | [] => Some acc
  | c :: s' =>
      match hex_digit c with
      | Some d => hex_value (16 * acc + d)%N s'
      | None => None
      end
  end.

Definition hex_decode (s : pystr) : option N :=
  match s with
  | [] => None
  | _ => hex_value 0%N s
  end.

(** The characters of the body of the sentence: digits, upper-case
    letters, the comma and the point. *)
Definition is_body_char (c : N) : bool :=
  (is_decimal c || ((65 <=? c) && (c <=? 90)) || (c =? 44) || (c =? 46))%N.

(** A sentence as a receiver checks it: ['$'], a body of digits, letters,
    commas and points, ['*'], and two hexadecimal digits that denote the
    XOR of the code points of the body. *)
Definition checked_sentence (s : pystr) : Prop :=
  exists body checksum,
    s = lit "$" ++ body ++ lit "*" ++ checksum
    /\ List.forallb is_body_char body = true
    /\ List.length checksum = 2%nat
    /\ hex_decode checksum = Some (xor_fold body).

(** ** The loop of the main thread *)

(** [n] turns of the loop that prints the mock GPS sentence; the clock
    reads [clock i] in the turn number [i]. The result is what was
    printed, line by line; an exception ends the program. *)
Fixpoint main_loop (cfg : config) (clock : nat -> Z) (zone : Z) (i n : nat)
  : list pystr * result unit :=
  match n with
  | O => ([], Ok tt)
  | S n' =>
      match get_mock_gps_location_in_nmea_gpgga_format cfg (clock i) zone with
      | Raise x => ([], Raise x)
      | Ok sentence =>
          let (printed, r) := main_loop cfg clock zone (S i) n' in
          (sentence :: printed, r)
      end
  end.

(** ** The loop of the thread *)

(** What the world does around a turn of the thread: what the log holds
    when the turn begins, given what the turn before left of it, the
    readings of the clock during the removal and during the writing, and
    the writes that fail. *)
Record turn : Type := {
  turn_log : option (list row) -> option (list row);
  turn_clock1 : nat -> Z;
  turn_clock2 : nat -> Z;
  turn_write_fails : nat -> bool
}.

(** The loop of [dire_wolf_to_navit] over the turns that it is given: an
    exception ends the thread, with the dictionary and the files as they
    are then. *)
Fixpoint dire_wolf_to_navit {parsers : Py.Parsers} (cfg : config)
    (turns : list turn) (log : option (list row)) (d : dict) (file : pystr)
  : dict * option (list row) * pystr * result unit :=
  match turns with
  | [] => (d, log, file, Ok tt)
  | t :: turns' =>
      match
        dire_wolf_to_navit_cycle cfg (turn_clock1 t) (turn_clock2 t)
          (turn_write_fails t) (turn_log t log) d file
      with
      | (d', log', file', Ok _) => dire_wolf_to_navit cfg turns' log' d' file'
      | (d', log', file', Raise x) => (d', log', file', Raise x)
      end
  end.

(** * Properties *)

(** ** Checksum *)

Lemma lxor_byte (a b : N) : (a < 256 -> b < 256 -> N.lxor a b < 256)%N.
Proof.
  intros Ha Hb.
  destruct (N.eq_dec (N.lxor a b) 0) as [E | E]; [rewrite E; reflexivity |].
  change 256%N with (2 ^ 8)%N.
  apply N.log2_lt_pow2; [lia |].
  eapply N.le_lt_trans; [apply N.log2_lxor |].
  apply N.max_lub_lt.
  - destruct (N.eq_dec a 0) as [-> | Na]; [reflexivity |].
    apply N.log2_lt_pow2; [lia | exact Ha].
  - destruct (N.eq_dec b 0) as [-> | Nb]; [reflexivity |].
    apply N.log2_lt_pow2; [lia | exact Hb].
Qed.

Lemma chr_in_range (i : N) : (i <= Py.max_code_point)%N -> Py.chr i = Ok i.
Proof.
  intros H. unfold Py.chr.
  destruct (N.leb_spec i Py.max_code_point) as [_ | L]; [reflexivity | lia].
Qed.

Lemma checksum_fold_latin1 (s : pystr) :
  forall a, (a < 256)%N -> latin1 s ->
  List.fold_left checksum_step s (Ok a) = Ok (List.fold_left N.lxor s a)
  /\ (List.fold_left N.lxor s a < 256)%N.
Proof.
  induction s as [| c s IH]; intros a Ha Hs; simpl.
  - split; [reflexivity | exact Ha].
  - inversion Hs as [| ? ? Hc Hs']; subst.
    pose proof (lxor_byte Ha Hc) as Hx.
    unfold Py.ord. rewrite chr_in_range by (unfold Py.max_code_point; lia).
    apply IH; assumption.
Qed.

Lemma format_02X_byte (x : N) :
  (x < 256)%N ->
  Py.format_02X x = [Py.digit_char (x / 16); Py.digit_char (x mod 16)].
Proof.
  intros Hx.
  assert (T : List.forallb
                (fun n => Py.str_eqb (Py.format_02X n)
                            [Py.digit_char (n / 16); Py.digit_char (n mod 16)])
                (List.map N.of_nat (List.seq 0 256%nat)) = true)
    by (vm_compute; reflexivity).
  rewrite List.forallb_forall in T.
  specialize (T x).
  assert (I : In x (List.map N.of_nat (List.seq 0 256%nat))).
  { apply List.in_map_iff. exists (N.to_nat x). split; [apply N2Nat.id |].
    apply List.in_seq. lia. }
  specialize (T I). unfold Py.str_eqb in T.
  destruct (list_eq_dec N.eq_dec _ _) as [E | _]; [exact E | discriminate].
Qed.

Lemma digit_char_upper_hex (d : N) : (d < 16)%N -> is_upper_hex (Py.digit_char d).
Proof.
  intros Hd. unfold is_upper_hex, Py.digit_char.
  destruct (N.ltb_spec d 10); lia.
Qed.

(** The checksum of a string of code points below 256. *)
Lemma get_checksum_byte (s : pystr) :
  latin1 s ->
  get_checksum s
  = Ok [Py.digit_char (xor_fold s / 16); Py.digit_char (xor_fold s mod 16)]
  /\ (xor_fold s < 256)%N.
Proof.
  intros Hs.
  destruct (@checksum_fold_latin1 s 0%N) as [Hfold Hlt]; [lia | exact Hs |].
  fold (xor_fold s) in Hfold, Hlt.
  split; [| exact Hlt].
  unfold get_checksum. rewrite chr_in_range by (unfold Py.max_code_point; lia).
  rewrite Hfold. simpl. unfold Py.ord. now rewrite format_02X_byte.
Qed.

(** C7, as amended: for every string [s] whose code points are all below
    256 (every ASCII sentence body is one), [get_checksum s] returns the
    XOR of the code points of [s] written as exactly two upper-case
    hexadecimal digits, the high one first and zero-padded; the checksum
    of the empty string is ["00"]. Being a function of [s] alone, the
    result is the same whenever the input is. *)
Theorem get_checksum_latin1 (s : pystr) :
  latin1 s ->
  get_checksum s
  = Ok [Py.digit_char (xor_fold s / 16); Py.digit_char (xor_fold s mod 16)]
  /\ (xor_fold s < 256)%N
  /\ is_upper_hex (Py.digit_char (xor_fold s / 16))
  /\ is_upper_hex (Py.digit_char (xor_fold s mod 16))
  /\ get_checksum [] = Ok (lit "00").
Proof.
  intros Hs. destruct (get_checksum_byte Hs) as [Hc Hlt].
  repeat split.
  - exact Hc.
  - exact Hlt.
  - apply digit_char_upper_hex. apply N.Div0.div_lt_upper_bound. lia.
  - apply digit_char_upper_hex. apply N.mod_lt. lia.
Qed.

Lemma get_checksum_latin1_witness :
  latin1 (lit "GPGGA")
  /\ get_checksum (lit "GPGGA") = Ok (lit "56").
Proof.
  assert (H : latin1 (lit "GPGGA")) by (repeat constructor).
  split; [exact H |].
  exact (proj1 (get_checksum_latin1 H)).
Defined.

(** C7, as stated, fails on a string with a code point from 256 on: the
    checksum of the one-character string U+0100 is ["100"], not two
    digits. *)
Lemma get_checksum_three_digits :
  get_checksum [256%N] = Ok (lit "100")
  /\ ~ (exists d1 d2, get_checksum [256%N] = Ok [d1; d2]).
Proof.
  split; [reflexivity |].
  intros (d1 & d2 & H). vm_compute in H. discriminate H.
Qed.

(** ** The dictionary *)

Lemma str_eqb_eq (a b : pystr) : Py.str_eqb a b = true <-> a = b.
Proof.
  unfold Py.str_eqb. destruct (list_eq_dec N.eq_dec a b); split; congruence.
Qed.

Lemma str_eqb_refl (a : pystr) : Py.str_eqb a a = true.
Proof. now apply str_eqb_eq. Qed.

Lemma str_eqb_neq (a b : pystr) : Py.str_eqb a b = false <-> a <> b.
Proof.
  unfold Py.str_eqb. destruct (list_eq_dec N.eq_dec a b); split; congruence.
Qed.

Lemma dict_set_keys (d : dict) (k : pystr) (v : entry) :
  dict_keys (dict_set d k v)
  = if List.existsb (Py.str_eqb k) (dict_keys d) then dict_keys d
    else dict_keys d ++ [k].
Proof.
  induction d as [| [k' v'] d IH]; simpl; [reflexivity |].
  destruct (Py.str_eqb k k') eqn:E; simpl; [reflexivity |].
  rewrite IH. now destruct (List.existsb _ _).
Qed.

Lemma existsb_str_eqb (k : pystr) (l : list pystr) :
  List.existsb (Py.str_eqb k) l = true <-> In k l.
Proof.
  rewrite List.existsb_exists. split.
  - intros (x & Hx & E). apply str_eqb_eq in E. now subst.
  - intros H. exists k. split; [exact H | apply str_eqb_refl].
Qed.

Lemma dict_set_NoDup (d : dict) (k : pystr) (v : entry) :
  NoDup (dict_keys d) -> NoDup (dict_keys (dict_set d k v)).
Proof.
  intros H. rewrite dict_set_keys.
  destruct (List.existsb (Py.str_eqb k) (dict_keys d)) eqn:E; [exact H |].
  apply NoDup_app; [exact H | repeat constructor; intros [] |].
  intros x Hx [<- | []].
  apply existsb_str_eqb in Hx. congruence.
Qed.

Lemma dict_item_set (d : dict) (k : pystr) (v : entry) :
  dict_item (dict_set d k v) k = Ok v.
Proof.
  induction d as [| [k' v'] d IH]; simpl.
  - now rewrite str_eqb_refl.
  - destruct (Py.str_eqb k k') eqn:E; simpl; rewrite E; [reflexivity | exact IH].
Qed.

Lemma filter_key_absent (d : dict) (k : pystr) :
  ~ In k (dict_keys d) ->
  List.filter (fun kv => Py.str_eqb (fst kv) k) d = [].
Proof.
  induction d as [| [k' v'] d IH]; simpl; intros H; [reflexivity |].
  destruct (Py.str_eqb k' k) eqn:E.
  - apply str_eqb_eq in E. tauto.
  - apply IH. tauto.
Qed.

Lemma filter_key_set (d : dict) (k : pystr) (v : entry) :
  NoDup (dict_keys d) ->
  List.filter (fun kv => Py.str_eqb (fst kv) k) (dict_set d k v) = [(k, v)].
Proof.
  induction d as [| [k' v'] d IH]; simpl; intros H.
  - now rewrite str_eqb_refl.
  - inversion H as [| ? ? Hk' Hd]; subst.
    destruct (Py.str_eqb k k') eqn:E; simpl.
    + apply str_eqb_eq in E. subst k'. rewrite str_eqb_refl.
      now rewrite filter_key_absent.
    + destruct (Py.str_eqb k' k) eqn:E'.
      * apply str_eqb_eq in E'. apply str_eqb_neq in E. congruence.
      * now apply IH.
Qed.

(** ** Reading the log *)

Section Ingest.

Context {parsers : Py.Parsers}.

Lemma is_not_None_Some (f : option pystr) :
  is_not_None f = true -> exists s, f = Some s.
Proof. destruct f; [eauto | discriminate]. Qed.

(** A valid row has its four fields, and is stored as they are. *)
Lemma all_valid_fields (r : row) :
  all_valid r = true ->
  exists i s la lo,
    row_get r (lit "isotime") = Some i
    /\ row_get r (lit "source") = Some s
    /\ row_get r (lit "latitude") = Some la
    /\ row_get r (lit "longitude") = Some lo
    /\ iso_string_valid i = true
    /\ latitude_string_valid la = true.
Proof.
  unfold all_valid, valid_source, valid_latitude, valid_longitude, valid_isotime.
  intros H.
  apply andb_prop in H as [H Hi]. apply andb_prop in H as [H Hlo].
  apply andb_prop in H as [Hs Hla].
  apply andb_prop in Hi as [Hi Hiv]. apply andb_prop in Hlo as [Hlo _].
  apply andb_prop in Hla as [Hla Hlav].
  apply is_not_None_Some in Hi as [i Hi], Hlo as [lo Hlo], Hla as [la Hla].
  destruct (row_get r (lit "source")) as [s |] eqn:Es; [| discriminate].
  rewrite Hi in Hiv. rewrite Hla in Hlav. simpl in Hiv, Hlav.
  exists i, s, la, lo. auto 10.
Qed.

Lemma ingest_row_valid (d : dict) (r : row) (i s la lo : pystr) :
  all_valid r = true ->
  row_get r (lit "isotime") = Some i ->
  row_get r (lit "source") = Some s ->
  row_get r (lit "latitude") = Some la ->
  row_get r (lit "longitude") = Some lo ->
  ingest_row d r
  = dict_set d s {| isotime := i; source := s; latitude := la;
                    longitude := lo; comment := row_comment r |}.
Proof.
  intros V Hi Hs Hla Hlo. unfold ingest_row, entry_of_row.
  rewrite V, Hi, Hs, Hla, Hlo. reflexivity.
Qed.

Lemma ingest_row_invalid (d : dict) (r : row) :
  all_valid r = false -> ingest_row d r = d.
Proof. intros V. unfold ingest_row. now rewrite V. Qed.

End Ingest.



(** The two rows of the witness: the second one, with the earlier time,
    is the one that stays. *)
Example last_write_wins_earlier_time :
  let r1 := report "2024-01-01T00:10:00Z" "N0CALL" "33.1" "-112.1" "first" in
  let r2 := report "2024-01-01T00:00:00Z" "N0CALL" "33.2" "-112.2" " second " in
  fst (refresh_dictionary_from_dire_wolf_csv_log_file
         (parsers := Reference.parsers) default_config (Some [r1; r2]) [])
  = [(lit "N0CALL",
      {| isotime := lit "2024-01-01T00:00:00Z"; source := lit "N0CALL";
         latitude := lit "33.2"; longitude := lit "-112.2";
         comment := lit "second" |})].
Proof. vm_compute. reflexivity. Qed.

(** C1 fails on the code: the row below has the longitude 200.0, which
    the validator of longitudes rejects, and is stored all the same,
    because the validator is given the latitude of the row. *)
Theorem longitude_not_checked :
  let r := report "2024-01-01T00:00:00Z" "N0CALL" "33.1" "200.0" "test" in
  longitude_string_valid (parsers := Reference.parsers) (lit "200.0") = false
  /\ valid_longitude (parsers := Reference.parsers) r = true
  /\ fst (refresh_dictionary_from_dire_wolf_csv_log_file
            (parsers := Reference.parsers) default_config (Some [r]) [])
     = [(lit "N0CALL",
         {| isotime := lit "2024-01-01T00:00:00Z"; source := lit "N0CALL";
            latitude := lit "33.1"; longitude := lit "200.0";
            comment := lit "test" |})].
Proof. vm_compute. repeat split; reflexivity. Qed.

(** ** Ages *)

Section Ages.

Context {parsers : Py.Parsers}.

Lemma older_than_expired (threshold : option Z) (now : Z) (e : entry) :
  utc_stamped threshold e = true ->
  older_than threshold now e = Ok (expired threshold now e).
Proof.
  unfold utc_stamped, older_than, expired, instant_of.
  destruct (Py.fromisoformat _) as [t |]; [| discriminate]. simpl.
  destruct threshold as [m |]; [| reflexivity].
  destruct (Py.utcoffset t) as [o |] eqn:Eo; [| discriminate].
  unfold Py.timedelta_minutes.
  destruct (Z.abs _ <=? 999999999); [| discriminate]. simpl.
  intros H. unfold Py.datetime_add. rewrite H. simpl.
  unfold Py.datetime_lt. simpl. rewrite Eo. f_equal. f_equal; lia.
Qed.


(** The only [ValueError] of the comparison is the one of the parser. *)
Lemma older_than_ValueError (threshold : option Z) (now : Z) (e : entry) :
  iso_string_valid (isotime e) = true ->
  older_than threshold now e <> Raise ValueError.
Proof.
  unfold iso_string_valid, older_than.
  destruct (Py.fromisoformat _) as [t |]; [| discriminate]. intros _. simpl.
  destruct threshold as [m |]; [| discriminate].
  unfold Py.timedelta_minutes.
  destruct (Z.abs _ <=? 999999999); [| discriminate]. simpl.
  unfold Py.datetime_add.
  destruct (_ && _); [| discriminate]. simpl.
  unfold Py.datetime_lt. simpl.
  destruct (Py.utcoffset t); discriminate.
Qed.

(** *** Removal *)

Lemma dict_item_app (pre d : dict) (k : pystr) :
  ~ In k (dict_keys pre) -> dict_item (pre ++ d) k = dict_item d k.
Proof.
  induction pre as [| [k' v'] pre IH]; simpl; intros H; [reflexivity |].
  destruct (Py.str_eqb k k') eqn:E.
  - apply str_eqb_eq in E. subst k'. tauto.
  - apply IH. tauto.
Qed.

Lemma dict_del_app (pre d : dict) (k : pystr) :
  ~ In k (dict_keys pre) -> dict_del (pre ++ d) k = pre ++ dict_del d k.
Proof.
  induction pre as [| [k' v'] pre IH]; simpl; intros H; [reflexivity |].
  destruct (Py.str_eqb k k') eqn:E.
  - apply str_eqb_eq in E. subst k'. tauto.
  - f_equal. apply IH. tauto.
Qed.



End Ages.



(** Under the threshold of 60 minutes the station heard 61 minutes ago is
    removed and the one heard 59 minutes ago stays. *)
Example remove_stale_entries_61_59 :
  remove_stale_entries_from_dictionary (parsers := Reference.parsers)
    default_config (fun _ => noon) two_stations
  = (List.tl two_stations, Ok tt).
Proof. vm_compute. reflexivity. Qed.

(** ** The order of strings *)

Lemma str_ltb_irrefl (a : pystr) : Py.str_ltb a a = false.
Proof.
  induction a as [| x a IH]; simpl; [reflexivity |].
  rewrite N.ltb_irrefl, N.eqb_refl. exact IH.
Qed.

Lemma str_ltb_trans (a : pystr) :
  forall b c, Py.str_ltb a b = true -> Py.str_ltb b c = true ->
  Py.str_ltb a c = true.
Proof.
  induction a as [| x a IH]; intros [| y b] [| z c]; simpl;
    try discriminate; try reflexivity.
  intros H1 H2.
  destruct (N.ltb_spec x y), (N.eqb_spec x y), (N.ltb_spec y z),
    (N.eqb_spec y z), (N.ltb_spec x z), (N.eqb_spec x z);
    simpl in *; try discriminate; try reflexivity; try lia.
  eapply IH; eassumption.
Qed.

Lemma str_ltb_connex (a : pystr) :
  forall b, Py.str_ltb a b = false -> Py.str_ltb b a = false -> a = b.
Proof.
  induction a as [| x a IH]; intros [| y b]; simpl;
    try discriminate; try reflexivity.
  intros H1 H2.
  destruct (N.ltb_spec x y), (N.eqb_spec x y), (N.ltb_spec y x),
    (N.eqb_spec y x); simpl in *; try discriminate; try lia.
  subst y. f_equal. now apply IH.
Qed.

Lemma str_ltb_asym (a b : pystr) :
  Py.str_ltb a b = true -> Py.str_ltb b a = false.
Proof.
  intros H. destruct (Py.str_ltb b a) eqn:E; [| reflexivity].
  pose proof (str_ltb_trans _ _ _ H E) as C.
  rewrite str_ltb_irrefl in C. discriminate.
Qed.

(** "Not less" is transitive. *)
Lemma str_geb_trans (a b c : pystr) :
  Py.str_ltb a b = false -> Py.str_ltb b c = false ->
  Py.str_ltb a c = false.
Proof.
  intros H1 H2. destruct (Py.str_ltb a c) eqn:E; [| reflexivity].
  destruct (Py.str_ltb b a) eqn:E'.
  - rewrite (str_ltb_trans _ _ _ E' E) in H2. discriminate.
  - rewrite (str_ltb_connex _ _ H1 E') in E. congruence.
Qed.

(** ** Sorting *)

Section SortedReverse.

Variable A : Type.
Variable key : A -> pystr.

Lemma insert_desc_perm (x : A) (l : list A) :
  Permutation (Py.insert_desc key x l) (x :: l).
Proof.
  induction l as [| y l IH]; simpl; [reflexivity |].
  destruct (Py.str_ltb (key x) (key y)); [| reflexivity].
  rewrite IH. apply perm_swap.
Qed.

Lemma sorted_reverse_perm (l : list A) :
  Permutation (Py.sorted_reverse key l) l.
Proof.
  induction l as [| x l IH]; simpl; [reflexivity |].
  rewrite insert_desc_perm. now constructor.
Qed.

Lemma insert_desc_descending (x : A) (l : list A) :
  Py.descending key l -> Py.descending key (Py.insert_desc key x l).
Proof.
  unfold Py.descending.
  induction l as [| y l IH]; simpl; intros H.
  - repeat constructor.
  - inversion H as [| ? ? Hl Hy]; subst.
    destruct (Py.str_ltb (key x) (key y)) eqn:E.
    + constructor; [now apply IH |].
      apply Forall_forall. intros z Hz.
      apply (Permutation_in _ (insert_desc_perm x l)) in Hz.
      destruct Hz as [<- | Hz].
      * now apply str_ltb_asym.
      * rewrite Forall_forall in Hy. now apply Hy.
    + constructor; [exact H |].
      constructor; [exact E |].
      apply Forall_forall. intros z Hz.
      rewrite Forall_forall in Hy.
      eapply str_geb_trans; [exact E | now apply Hy].
Qed.

Lemma sorted_reverse_descending (l : list A) :
  Py.descending key (Py.sorted_reverse key l).
Proof.
  induction l as [| x l IH]; simpl.
  - constructor.
  - now apply insert_desc_descending.
Qed.

Lemma insert_desc_with_key (s : pystr) (x : A) (l : list A) :
  Py.with_key key s (Py.insert_desc key x l) = Py.with_key key s (x :: l).
Proof.
  unfold Py.with_key.
  induction l as [| y l IH]; simpl; [reflexivity |].
  destruct (Py.str_ltb (key x) (key y)) eqn:E; [| reflexivity].
  simpl. rewrite IH. simpl.
  destruct (Py.str_eqb (key x) s) eqn:Ex, (Py.str_eqb (key y) s) eqn:Ey;
    try reflexivity.
  apply str_eqb_eq in Ex, Ey. rewrite Ex, Ey, str_ltb_irrefl in E.
  discriminate.
Qed.

Lemma sorted_reverse_stable (s : pystr) (l : list A) :
  Py.with_key key s (Py.sorted_reverse key l) = Py.with_key key s l.
Proof.
  induction l as [| x l IH]; simpl; [reflexivity |].
  rewrite insert_desc_with_key. unfold Py.with_key in *. simpl.
  now rewrite IH.
Qed.

End SortedReverse.

Section Unique.

Variable A : Type.
Variable key : A -> pystr.

Lemma with_key_In (s : pystr) (x : A) (l : list A) :
  In x (Py.with_key key s l) <-> In x l /\ key x = s.
Proof.
  unfold Py.with_key. rewrite List.filter_In, str_eqb_eq. tauto.
Qed.

Lemma descending_head (x : A) (l : list A) (y : A) :
  Py.descending key (x :: l) -> In y (x :: l) ->
  Py.str_ltb (key x) (key y) = false.
Proof.
  intros H [<- | Hy]; [apply str_ltb_irrefl |].
  inversion H as [| ? ? _ Hx]; subst.
  rewrite Forall_forall in Hx. now apply Hx.
Qed.

(** A descending list is determined by the elements of each key in their
    order: there is one stable sort. *)
Lemma descending_unique (l1 : list A) :
  forall l2,
  Py.descending key l1 -> Py.descending key l2 ->
  (forall s, Py.with_key key s l1 = Py.with_key key s l2) ->
  l1 = l2.
Proof.
  induction l1 as [| x l1 IH]; intros l2 H1 H2 Hk.
  - destruct l2 as [| y l2]; [reflexivity |].
    specialize (Hk (key y)). unfold Py.with_key in Hk. simpl in Hk.
    rewrite str_eqb_refl in Hk. discriminate.
  - destruct l2 as [| y l2].
    + specialize (Hk (key x)). unfold Py.with_key in Hk. simpl in Hk.
      rewrite str_eqb_refl in Hk. discriminate.
    + assert (Hy1 : In y (x :: l1)).
      { apply (with_key_In (key y)). rewrite Hk.
        apply with_key_In. split; [now left | reflexivity]. }
      assert (Hx2 : In x (y :: l2)).
      { apply (with_key_In (key x)). rewrite <- Hk.
        apply with_key_In. split; [now left | reflexivity]. }
      assert (Ek : key x = key y).
      { apply str_ltb_connex.
        - now apply (descending_head H1).
        - now apply (descending_head H2). }
      pose proof (Hk (key x)) as Hkx. unfold Py.with_key in Hkx.
      simpl in Hkx. rewrite <- Ek, str_eqb_refl in Hkx.
      injection Hkx as Exy Hrest. subst y. f_equal.
      inversion H1; inversion H2; subst.
      apply IH; try assumption.
      intros s. specialize (Hk s). unfold Py.with_key in *. simpl in Hk.
      destruct (Py.str_eqb (key x) s); [now injection Hk | exact Hk].
Qed.

(** Every stable sort in descending order gives what [sorted_reverse]
    gives. *)
Lemma sorted_reverse_unique (l l' : list A) :
  Py.descending key l' ->
  (forall s, Py.with_key key s l' = Py.with_key key s l) ->
  l' = Py.sorted_reverse key l.
Proof.
  intros Hd Hs. apply descending_unique; [exact Hd | |].
  - apply sorted_reverse_descending.
  - intros s. now rewrite Hs, sorted_reverse_stable.
Qed.

End Unique.

(** ** Writing the POI file *)

Section Writing.

Context {parsers : Py.Parsers}.

Variable cfg : config.
Variable now : Z.

Lemma poi_line_text (e : entry) :
  utc_stamped (MINUTES_UNTIL_APRS_INACTIVE cfg) e = true ->
  poi_line cfg now e = Ok (poi_text cfg now e).
Proof.
  intros H. unfold poi_line, poi_text.
  now rewrite older_than_expired.
Qed.

Lemma write_entries_ok (write_fails : nat -> bool) (entries : list entry) :
  forall (i : nat) (file : pystr),
  List.forallb (utc_stamped (MINUTES_UNTIL_APRS_INACTIVE cfg)) entries = true ->
  (forall j, (j < List.length entries)%nat -> write_fails (i + j)%nat = false) ->
  write_entries cfg (fun _ => now) write_fails i entries file
  = (file ++ List.concat (List.map (poi_text cfg now) entries), Ok tt).
Proof.
  induction entries as [| e entries IH]; intros i file Hst Hw; simpl.
  - now rewrite List.app_nil_r.
  - simpl in Hst. apply andb_prop in Hst as [He Hst].
    rewrite poi_line_text by exact He.
    pose proof (Hw 0%nat ltac:(simpl; lia)) as H0.
    rewrite Nat.add_0_r in H0. rewrite H0.
    rewrite IH; [now rewrite <- List.app_assoc | exact Hst |].
    intros j Hj. rewrite Nat.add_succ_l, <- Nat.add_succ_r.
    apply Hw. simpl. lia.
Qed.

End Writing.




(** ** The POI file on the storage *)

Lemma text_bytes_app (linesep s1 s2 : pystr) :
  text_bytes linesep (s1 ++ s2)
  = text_bytes linesep s1 ++ text_bytes linesep s2.
Proof.
  unfold text_bytes. now rewrite !List.flat_map_app.
Qed.

Lemma within_le (capacity : option nat) (m n : nat) :
  (m <= n)%nat -> within capacity n = true -> within capacity m = true.
Proof.
  destruct capacity as [k |]; simpl; [| reflexivity].
  rewrite !Nat.leb_le. lia.
Qed.

Lemma cut_within (capacity : option nat) (bytes : list N) :
  within capacity (List.length bytes) = true -> cut capacity bytes = bytes.
Proof.
  destruct capacity as [k |]; simpl; [| reflexivity].
  rewrite Nat.leb_le. apply List.firstn_all2.
Qed.

Lemma cut_app (capacity : option nat) (bytes rest : list N) :
  within capacity (List.length bytes) = false ->
  cut capacity (bytes ++ rest) = cut capacity bytes.
Proof.
  destruct capacity as [k |]; simpl; [| discriminate].
  rewrite Nat.leb_gt. intros H. rewrite List.firstn_app.
  replace (k - List.length bytes)%nat with 0%nat by lia.
  simpl. apply List.app_nil_r.
Qed.

Lemma cut_cut_app (capacity : option nat) (bytes rest : list N) :
  within capacity (List.length bytes) = false ->
  cut capacity (cut capacity bytes ++ rest) = cut capacity bytes.
Proof.
  destruct capacity as [k |]; simpl; [| discriminate].
  rewrite Nat.leb_gt. intros H. rewrite List.firstn_app.
  rewrite List.firstn_firstn, Nat.min_id, List.length_firstn.
  replace (k - Nat.min k (List.length bytes))%nat with 0%nat by lia.
  simpl. apply List.app_nil_r.
Qed.

Section Storage.

Context {parsers : Py.Parsers}.

Variable cfg : config.
Variable clock : nat -> Z.
Variable linesep : pystr.
Variable capacity : option nat.
Variable keep : nat -> nat.

(** The text that has been written is never taken back. *)
Lemma write_entries_extends (entries : list entry) :
  forall (i : nat) (file : pystr),
  exists rest,
    fst (write_entries cfg clock (fun _ => false) i entries file)
    = file ++ rest.
Proof.
  induction entries as [| e entries IH]; intros i file; simpl.
  - exists []. now rewrite List.app_nil_r.
  - destruct (poi_line cfg (clock i) e) as [line |]; simpl.
    + destruct (IH (S i) (file ++ line)) as (rest & E).
      exists (line ++ rest). now rewrite E, List.app_assoc.
    + exists []. now rewrite List.app_nil_r.
Qed.

(** The loop with the file object, by the text that the loop writes:
    either the storage has taken every byte that the object handed on,
    and the storage and the buffer hold the bytes of the text between
    them, or it has refused one, and it holds the bytes of the text that
    it has room for. *)
Lemma write_entries_to_text (entries : list entry) :
  forall (i : nat) (f : file_object) (text : pystr),
  on_storage f ++ in_buffer f = text_bytes linesep text ->
  within capacity (List.length (on_storage f)) = true ->
  let p := write_entries cfg clock (fun _ => false) i entries text in
  let q := write_entries_to cfg clock linesep capacity keep i entries f in
  (snd q = snd p
   /\ on_storage (fst q) ++ in_buffer (fst q) = text_bytes linesep (fst p)
   /\ within capacity (List.length (on_storage (fst q))) = true)
  \/ (snd q = Raise OSError
      /\ within capacity (List.length (text_bytes linesep (fst p))) = false
      /\ on_storage (fst q) = cut capacity (text_bytes linesep (fst p))).
Proof.
  induction entries as [| e entries IH]; intros i f text Hf Hw; simpl.
  - left. auto.
  - destruct (poi_line cfg (clock i) e) as [line | x]; simpl; [| left; auto].
    unfold file_write, file_flush. cbn [on_storage in_buffer].
    set (buffer := in_buffer f ++ text_bytes linesep line).
    set (n := (List.length buffer - keep i)%nat).
    set (bytes := on_storage f ++ List.firstn n buffer).
    assert (E : bytes ++ List.skipn n buffer
                = text_bytes linesep (text ++ line)).
    { unfold bytes, buffer. rewrite <- List.app_assoc, List.firstn_skipn.
      now rewrite text_bytes_app, <- Hf, List.app_assoc. }
    destruct (within capacity (List.length bytes)) eqn:Hb.
    + apply IH; cbn [on_storage in_buffer]; rewrite (cut_within _ _ Hb);
        assumption.
    + right. cbn [fst snd on_storage].
      destruct (write_entries_extends entries (S i) (text ++ line))
        as (rest & ->).
      rewrite text_bytes_app, <- E, <- List.app_assoc.
      split; [reflexivity |]. split.
      * destruct (within capacity (List.length (bytes ++ _))) eqn:Hall;
          [| reflexivity].
        rewrite <- Hb. symmetry. eapply within_le; [| exact Hall].
        rewrite List.length_app. lia.
      * now rewrite cut_app.
Qed.

(** What the storage holds after the call, by the text that the loop
    writes: the bytes of the text when the storage has room for them, with
    the ending of the loop; and the bytes that it has room for when it
    has not, with an [OSError]. Neither [keep] nor what the file held
    has a part in it. *)
Lemma on_storage_by_text (d : dict) (file : list N) :
  let p :=
    refresh_navit_poi_file_from_dictionary cfg clock (fun _ => false) d [] in
  let bytes := text_bytes linesep (fst p) in
  refresh_navit_poi_file_on_storage cfg clock linesep capacity keep d file
  = if within capacity (List.length bytes) then (bytes, snd p)
    else (cut capacity bytes, Raise OSError).
Proof.
  unfold refresh_navit_poi_file_on_storage, refresh_navit_poi_file_from_dictionary.
  set (entries := Py.sorted_reverse isotime (dict_values d)).
  assert (H0 : within capacity 0 = true) by (now destruct capacity).
  destruct (write_entries_to_text entries 0
              {| on_storage := []; in_buffer := [] |} [] eq_refl H0)
    as [(Hr & Hb & Hw) | (Hr & Hw & Hs)];
    destruct (write_entries_to cfg clock linesep capacity keep 0 entries _)
      as [f r];
    destruct (write_entries cfg clock (fun _ => false) 0 entries [])
      as [text r'];
    cbn [fst snd] in *; unfold file_close, file_flush;
    rewrite Nat.sub_0_r, List.firstn_all, List.skipn_all.
  - rewrite Hb. subst r'.
    destruct (within capacity (List.length (text_bytes linesep text))) eqn:Ht.
    + now rewrite (cut_within _ _ Ht).
    + reflexivity.
  - rewrite Hw, Hs, (cut_cut_app _ _ _ Hw). subst r.
    destruct (within capacity (List.length (_ ++ _))); reflexivity.
Qed.

End Storage.

(** C4, as amended: the file is emptied when it is opened, and the lines
    go to the storage through the buffer of the file object. When the
    storage takes no more than the first [k] bytes of a file, and the new
    text has more, the storage holds the first [k] bytes of the new text
    afterwards, cut where they end, and nothing of what the file held;
    the error is passed on. This is so however the file object fills and
    empties its buffer. *)
Theorem poi_file_after_failure {parsers : Py.Parsers} (cfg : config)
    (now : Z) (linesep : pystr) (k : nat) (keep : nat -> nat) (d : dict)
    (file : list N) :
  List.forallb (utc_stamped (MINUTES_UNTIL_APRS_INACTIVE cfg)) (dict_values d)
  = true ->
  let text :=
    List.concat
      (List.map (poi_text cfg now)
         (Py.sorted_reverse isotime (dict_values d))) in
  (k < List.length (text_bytes linesep text))%nat ->
  refresh_navit_poi_file_on_storage cfg (fun _ => now) linesep (Some k) keep d file
  = (List.firstn k (text_bytes linesep text), Raise OSError).
Proof.
  intros Hst text Hk.
  pose proof (sorted_reverse_perm isotime (dict_values d)) as Hp.
  rewrite on_storage_by_text.
  unfold refresh_navit_poi_file_from_dictionary.
  rewrite (@write_entries_ok _ cfg now (fun _ => false) _ 0%nat []);
    [| | reflexivity].
  - cbn [fst snd List.app]. fold text. simpl.
    apply Nat.leb_gt in Hk. now rewrite Hk.
  - rewrite List.forallb_forall in *. intros e He.
    apply Hst. eapply Permutation_in; eassumption.
Qed.

Lemma poi_file_after_failure_witness :
  let text :=
    List.concat
      (List.map (poi_text (parsers := Reference.parsers) default_config noon)
         (Py.sorted_reverse isotime (dict_values two_stations))) in
  refresh_navit_poi_file_on_storage (parsers := Reference.parsers)
    default_config (fun _ => noon) [10%N] (Some 200%nat) (fun _ => 4096%nat)
    two_stations (text_bytes [10%N] (lit "mg: old"))
  = (List.firstn 200 (text_bytes [10%N] text), Raise OSError).
Proof.
  apply (@poi_file_after_failure Reference.parsers default_config noon
           [10%N] 200%nat (fun _ => 4096%nat) two_stations
           (text_bytes [10%N] (lit "mg: old"))).
  - vm_compute; reflexivity.
  - vm_compute. lia.
Defined.

(** C4, as stated, fails. The file holds the two lines of the two
    stations, written by a call that the storage had room for. The
    storage then takes no more than the first line and fifty bytes: the
    next call, for the same two stations, ends with an [OSError], and the
    file holds the first line and the first fifty bytes of the second one
    instead of what it held. *)
Lemma poi_file_half_written :
  let write capacity file :=
    refresh_navit_poi_file_on_storage (parsers := Reference.parsers)
      default_config (fun _ => noon) [10%N] capacity (fun _ => 4096%nat)
      two_stations file in
  let line e :=
    text_bytes [10%N]
      (poi_text (parsers := Reference.parsers) default_config noon e) in
  let before := write None [] in
  let after :=
    write (Some (List.length (line heard_59) + 50)%nat) (fst before) in
  before = (line heard_59 ++ line heard_61, Ok tt)
  /\ after = (line heard_59 ++ List.firstn 50 (line heard_61), Raise OSError)
  /\ fst after <> fst before.
Proof.
  vm_compute. repeat split. discriminate.
Qed.

(** The bytes that the storage has room for can end within a character:
    here they end with the first two of the three bytes of the dash of
    the label. *)
Example poi_file_cut_in_a_character :
  let after :=
    refresh_navit_poi_file_on_storage (parsers := Reference.parsers)
      default_config (fun _ => noon) [10%N] (Some 142%nat) (fun _ => 0%nat)
      two_stations [] in
  snd after = Raise OSError
  /\ List.skipn 136 (fst after) = text_bytes [10%N] (lit "NEW ") ++ [226; 128]%N
  /\ utf8_char 8212 = [226; 128; 148]%N.
Proof.
  vm_compute. repeat split.
Qed.



(** An entry heard six minutes ago is inactive under the threshold of
    five minutes, and active with no threshold. *)
Example six_minutes_ago_inactive :
  expired (parsers := Reference.parsers) (Some 5) noon six_minutes_ago = true
  /\ poi_line (parsers := Reference.parsers) default_config noon
       six_minutes_ago
     = Ok (poi_format six_minutes_ago
             (NAVIT_POI_INACTIVE_ICON_FILE_PATH default_config)
             (lit "N0CALL" ++ m_dash ++ lit "test"))
  /\ poi_line (parsers := Reference.parsers) no_thresholds noon
       six_minutes_ago
     = Ok (poi_format six_minutes_ago
             (NAVIT_POI_ACTIVE_ICON_FILE_PATH default_config)
             (lit "N0CALL" ++ m_dash ++ lit "test")).
Proof. vm_compute. repeat split. Qed.

(** ** The times that are stored *)

Section Stored.

Context {parsers : Py.Parsers}.

Lemma dict_set_Forall (P : entry -> Prop) (d : dict) (k : pystr) (v : entry) :
  Forall P (dict_values d) -> P v -> Forall P (dict_values (dict_set d k v)).
Proof.
  intros Hd Hv. induction d as [| [k' v'] d IH]; simpl.
  - repeat constructor. exact Hv.
  - inversion Hd as [| ? ? Hv' Hd']; subst.
    destruct (Py.str_eqb k k'); simpl; constructor; auto.
Qed.

Lemma dict_del_Forall (P : entry -> Prop) (d : dict) (k : pystr) :
  Forall P (dict_values d) -> Forall P (dict_values (dict_del d k)).
Proof.
  intros Hd. induction d as [| [k' v'] d IH]; simpl; [constructor |].
  inversion Hd as [| ? ? Hv' Hd']; subst.
  destruct (Py.str_eqb k k'); simpl; [exact Hd' | constructor; auto].
Qed.

Lemma dict_item_In (d : dict) (k : pystr) (e : entry) :
  dict_item d k = Ok e -> In e (dict_values d).
Proof.
  induction d as [| [k' v'] d IH]; simpl; [discriminate |].
  destruct (Py.str_eqb k k'); intros H.
  - left. congruence.
  - right. now apply IH.
Qed.

Lemma dict_item_KeyError (d : dict) (k : pystr) (x : exn) :
  dict_item d k = Raise x -> x = KeyError.
Proof.
  induction d as [| [k' v'] d IH]; simpl; [congruence |].
  destruct (Py.str_eqb k k'); [discriminate | exact IH].
Qed.

Lemma ingest_row_time_valid (d : dict) (r : row) :
  Forall time_valid (dict_values d) ->
  Forall time_valid (dict_values (ingest_row d r)).
Proof.
  intros Hd. destruct (all_valid r) eqn:V.
  - destruct (all_valid_fields _ V)
      as (i & s & la & lo & Hi & Hs & Hla & Hlo & Hiv & _).
    rewrite (@ingest_row_valid _ d r _ _ _ _ V Hi Hs Hla Hlo).
    apply dict_set_Forall; [exact Hd | exact Hiv].
  - now rewrite ingest_row_invalid.
Qed.

Lemma ingest_rows_time_valid (rows : list row) :
  forall d, Forall time_valid (dict_values d) ->
  Forall time_valid (dict_values (List.fold_left ingest_row rows d)).
Proof.
  induction rows as [| r rows IH]; intros d Hd; simpl; [exact Hd |].
  apply IH. now apply ingest_row_time_valid.
Qed.

Lemma remove_stale_loop_Forall (P : entry -> Prop) (cfg : config)
    (clock : nat -> Z) (keys : list pystr) :
  forall (i : nat) (d : dict),
  Forall P (dict_values d) ->
  Forall P (dict_values (fst (remove_stale_loop cfg clock i keys d))).
Proof.
  induction keys as [| k keys IH]; intros i d Hd; simpl; [exact Hd |].
  destruct (dict_item d k) as [e |]; simpl; [| exact Hd].
  destruct (older_than _ _ e) as [[|] |]; simpl.
  - apply IH. now apply dict_del_Forall.
  - now apply IH.
  - exact Hd.
Qed.

Lemma reachable_time_valid (d : dict) :
  reachable d -> Forall time_valid (dict_values d).
Proof.
  induction 1 as [| cfg log d _ IH | cfg clock d _ IH].
  - constructor.
  - destruct log as [rows |]; simpl; [| exact IH].
    now apply ingest_rows_time_valid.
  - now apply remove_stale_loop_Forall.
Qed.

Lemma remove_stale_loop_no_ValueError (cfg : config) (clock : nat -> Z)
    (keys : list pystr) :
  forall (i : nat) (d : dict),
  Forall time_valid (dict_values d) ->
  snd (remove_stale_loop cfg clock i keys d) <> Raise ValueError.
Proof.
  induction keys as [| k keys IH]; intros i d Hd; simpl; [discriminate |].
  destruct (dict_item d k) as [e | x] eqn:Ek; simpl;
    [| apply dict_item_KeyError in Ek; subst x; discriminate].
  assert (He : time_valid e).
  { rewrite Forall_forall in Hd. apply Hd. eapply dict_item_In. exact Ek. }
  pose proof (older_than_ValueError (MINUTES_UNTIL_APRS_REMOVED cfg)
                (clock i) e He) as Hno.
  destruct (older_than _ _ e) as [[|] | x]; simpl.
  - apply IH. now apply dict_del_Forall.
  - now apply IH.
  - congruence.
Qed.

Lemma write_entries_no_ValueError (cfg : config) (clock : nat -> Z)
    (write_fails : nat -> bool) (entries : list entry) :
  forall (i : nat) (file : pystr),
  Forall time_valid entries ->
  snd (write_entries cfg clock write_fails i entries file) <> Raise ValueError.
Proof.
  induction entries as [| e entries IH]; intros i file He; simpl;
    [discriminate |].
  inversion He as [| ? ? Hv He']; subst.
  pose proof (older_than_ValueError (MINUTES_UNTIL_APRS_INACTIVE cfg)
                (clock i) e Hv) as Hno.
  unfold poi_line.
  destruct (older_than _ _ e) as [b | x]; simpl.
  - destruct (write_fails i); simpl; [discriminate | now apply IH].
  - congruence.
Qed.

End Stored.

(** C10: in every dictionary that the thread can hold, the time of every
    entry, with ['Z'] replaced by ['+00:00'] as the script does it, is
    read by [fromisoformat] without an error; so neither the removal of
    stale entries nor the writing of the POI file ends with the
    [ValueError] of an unreadable time. *)
Theorem stored_times_parse {parsers : Py.Parsers} (d : dict) :
  reachable d ->
  (forall k e, In (k, e) d ->
     exists t,
       Py.fromisoformat (Py.replace_char 90 (lit "+00:00") (isotime e)) = Ok t)
  /\ (forall cfg clock,
        snd (remove_stale_entries_from_dictionary cfg clock d)
        <> Raise ValueError)
  /\ (forall cfg clock write_fails file,
        snd (refresh_navit_poi_file_from_dictionary cfg clock write_fails d
               file)
        <> Raise ValueError).
Proof.
  intros Hr. pose proof (reachable_time_valid Hr) as Hv.
  split; [| split].
  - intros k e Hin. rewrite Forall_forall in Hv.
    assert (He : time_valid e).
    { apply Hv. unfold dict_values. apply List.in_map_iff. now exists (k, e). }
    unfold time_valid, iso_string_valid in He.
    destruct (Py.fromisoformat _) as [t |]; [now exists t | discriminate].
  - intros cfg clock. now apply remove_stale_loop_no_ValueError.
  - intros cfg clock write_fails file.
    apply write_entries_no_ValueError.
    rewrite Forall_forall in *. intros e He. apply Hv.
    eapply Permutation_in; [apply sorted_reverse_perm | exact He].
Qed.

Lemma stored_times_parse_witness :
  let d :=
    fst (refresh_dictionary_from_dire_wolf_csv_log_file
           (parsers := Reference.parsers) default_config
           (Some [report "2024-01-01T00:00:00Z" "N0CALL" "33.1" "-112.1"
                    "test"])
           []) in
  (forall k e, In (k, e) d ->
     exists t,
       Py.fromisoformat (Parsers := Reference.parsers)
         (Py.replace_char 90 (lit "+00:00") (isotime e)) = Ok t)
  /\ (forall cfg clock,
        snd (remove_stale_entries_from_dictionary
               (parsers := Reference.parsers) cfg clock d)
        <> Raise ValueError)
  /\ (forall cfg clock write_fails file,
        snd (refresh_navit_poi_file_from_dictionary
               (parsers := Reference.parsers) cfg clock write_fails d file)
        <> Raise ValueError).
Proof.
  intros d. apply (@stored_times_parse Reference.parsers d).
  apply reachable_refresh. apply reachable_start.
Defined.

(** ** The keys of the dictionary *)

Lemma dict_del_keys_incl (d : dict) (k x : pystr) :
  In x (dict_keys (dict_del d k)) -> In x (dict_keys d).
Proof.
  induction d as [| [k' v'] d IH]; simpl; [tauto |].
  destruct (Py.str_eqb k k'); simpl; tauto.
Qed.

Lemma dict_del_NoDup (d : dict) (k : pystr) :
  NoDup (dict_keys d) -> NoDup (dict_keys (dict_del d k)).
Proof.
  induction d as [| [k' v'] d IH]; simpl; intros H; [constructor |].
  inversion H as [| ? ? Hk Hd]; subst.
  destruct (Py.str_eqb k k'); simpl; [exact Hd |].
  constructor; [| now apply IH].
  intros Hin. apply Hk. eapply dict_del_keys_incl. exact Hin.
Qed.

Section Keys.

Context {parsers : Py.Parsers}.

Lemma ingest_rows_NoDup (rows : list row) :
  forall d, NoDup (dict_keys d) ->
  NoDup (dict_keys (List.fold_left ingest_row rows d)).
Proof.
  induction rows as [| r rows IH]; intros d Hd; simpl; [exact Hd |].
  apply IH. unfold ingest_row.
  destruct (negb (all_valid r)); [exact Hd |].
  destruct (entry_of_row r); [now apply dict_set_NoDup | exact Hd].
Qed.

Lemma remove_stale_loop_NoDup (cfg : config) (clock : nat -> Z)
    (keys : list pystr) :
  forall (i : nat) (d : dict),
  NoDup (dict_keys d) ->
  NoDup (dict_keys (fst (remove_stale_loop cfg clock i keys d))).
Proof.
  induction keys as [| k keys IH]; intros i d Hd; simpl; [exact Hd |].
  destruct (dict_item d k) as [e |]; simpl; [| exact Hd].
  destruct (older_than _ _ e) as [[|] |]; simpl.
  - apply IH. now apply dict_del_NoDup.
  - now apply IH.
  - exact Hd.
Qed.

(** The dictionary of the thread never has a key twice. *)
Lemma reachable_NoDup (d : dict) : reachable d -> NoDup (dict_keys d).
Proof.
  induction 1 as [| cfg log d _ IH | cfg clock d _ IH].
  - constructor.
  - destruct log as [rows |]; simpl; [| exact IH].
    now apply ingest_rows_NoDup.
  - now apply remove_stale_loop_NoDup.
Qed.

End Keys.

Lemma dict_item_set_other (d : dict) (k s : pystr) (v : entry) :
  k <> s -> dict_item (dict_set d k v) s = dict_item d s.
Proof.
  intros Hks. induction d as [| [k' v'] d IH]; simpl.
  - destruct (Py.str_eqb s k) eqn:E; [| reflexivity].
    apply str_eqb_eq in E. congruence.
  - destruct (Py.str_eqb k k') eqn:E; simpl.
    + apply str_eqb_eq in E. subst k'.
      destruct (Py.str_eqb s k) eqn:E'; [| reflexivity].
      apply str_eqb_eq in E'. congruence.
    + now rewrite IH.
Qed.

Lemma filter_key_set_other (d : dict) (k s : pystr) (v : entry) :
  k <> s ->
  List.filter (fun kv => Py.str_eqb (fst kv) s) (dict_set d k v)
  = List.filter (fun kv => Py.str_eqb (fst kv) s) d.
Proof.
  intros Hks. induction d as [| [k' v'] d IH]; simpl.
  - destruct (Py.str_eqb k s) eqn:E; [| reflexivity].
    apply str_eqb_eq in E. congruence.
  - destruct (Py.str_eqb k k') eqn:E; simpl.
    + apply str_eqb_eq in E. subst k'.
      destruct (Py.str_eqb k s) eqn:E'; [| reflexivity].
      apply str_eqb_eq in E'. congruence.
    + now rewrite IH.
Qed.

Section LastRow.

Context {parsers : Py.Parsers}.

(** Rows of other stations leave the entry of a station as it is. *)
Lemma ingest_rows_other (s : pystr) (rows : list row) :
  (forall r, In r rows -> all_valid r = true ->
     row_get r (lit "source") <> Some s) ->
  forall d,
  dict_item (List.fold_left ingest_row rows d) s = dict_item d s
  /\ List.filter (fun kv => Py.str_eqb (fst kv) s)
       (List.fold_left ingest_row rows d)
     = List.filter (fun kv => Py.str_eqb (fst kv) s) d.
Proof.
  induction rows as [| r rows IH]; intros Hrows d; simpl; [auto |].
  destruct (IH (fun r' Hr' => Hrows r' (or_intror Hr')) (ingest_row d r))
    as [Hi Hf].
  rewrite Hi, Hf.
  destruct (all_valid r) eqn:V; [| now rewrite ingest_row_invalid].
  destruct (all_valid_fields _ V) as (i & k & la & lo & Hi' & Hk & Hla & Hlo & _).
  rewrite (@ingest_row_valid _ d r _ _ _ _ V Hi' Hk Hla Hlo).
  assert (Hks : k <> s).
  { intros ->. apply (Hrows r (or_introl eq_refl) V). exact Hk. }
  split; [now apply dict_item_set_other | now apply filter_key_set_other].
Qed.

(** The last valid row of a station in a log is the one that is stored,
    whatever comes before it. *)
Lemma ingest_last_row (cfg : config) (d : dict) (before after : list row)
    (r : row) (i s la lo : pystr) :
  NoDup (dict_keys d) ->
  all_valid r = true ->
  row_get r (lit "isotime") = Some i ->
  row_get r (lit "source") = Some s ->
  row_get r (lit "latitude") = Some la ->
  row_get r (lit "longitude") = Some lo ->
  (forall r', In r' after -> all_valid r' = true ->
     row_get r' (lit "source") <> Some s) ->
  let e := {| isotime := i; source := s; latitude := la; longitude := lo;
              comment := row_comment r |} in
  let d' := fst (refresh_dictionary_from_dire_wolf_csv_log_file cfg
                   (Some (before ++ r :: after)) d) in
  dict_item d' s = Ok e
  /\ List.filter (fun kv => Py.str_eqb (fst kv) s) d' = [(s, e)].
Proof.
  intros Hd V Hi Hs Hla Hlo Hafter e d'. unfold d'. simpl.
  rewrite List.fold_left_app. simpl.
  destruct (@ingest_rows_other s after Hafter
              (ingest_row (List.fold_left ingest_row before d) r))
    as [Hitem Hfilter].
  rewrite Hitem, Hfilter.
  rewrite (@ingest_row_valid _ _ r _ _ _ _ V Hi Hs Hla Hlo).
  split; [apply dict_item_set |].
  apply filter_key_set. now apply ingest_rows_NoDup.
Qed.

End LastRow.

(** A time without an offset passes the validator and is stored, but
    cannot be compared with the clock: the comparison raises a
    [TypeError]. This is why [utc_stamped] asks for an offset. *)
Example time_without_offset :
  let r := report "2024-01-01T10:59:00" "N0CALL" "33.1" "-112.1" "test" in
  let d :=
    fst (refresh_dictionary_from_dire_wolf_csv_log_file
           (parsers := Reference.parsers) default_config (Some [r]) []) in
  List.length d = 1%nat
  /\ remove_stale_entries_from_dictionary (parsers := Reference.parsers)
       default_config (fun _ => noon) d
     = (d, Raise TypeError).
Proof. vm_compute. split; reflexivity. Qed.

(** ** Digits *)

Lemma digit_char_latin1 (d : N) : (d < 200)%N -> (Py.digit_char d < 256)%N.
Proof. intros H. unfold Py.digit_char. destruct (d <? 10)%N; lia. Qed.

Lemma digits_aux_latin1 (b : N) (fuel : nat) :
  (0 < b <= 200)%N ->
  forall (n : N) (acc : pystr),
  latin1 acc -> latin1 (Py.digits_aux fuel b n acc).
Proof.
  intros Hb. induction fuel as [| fuel IH]; intros n acc Hacc; simpl.
  - exact Hacc.
  - assert (Hc : latin1 (Py.digit_char (n mod b) :: acc)).
    { constructor; [| exact Hacc]. apply digit_char_latin1.
      pose proof (N.mod_lt n b). lia. }
    destruct (n / b =? 0)%N; [exact Hc | now apply IH].
Qed.

Lemma digits_latin1 (b n : N) : (0 < b <= 200)%N -> latin1 (Py.digits b n).
Proof. intros Hb. apply digits_aux_latin1; [exact Hb | constructor]. Qed.

Lemma latin1_app (a b : pystr) : latin1 a -> latin1 b -> latin1 (a ++ b).
Proof. intros Ha Hb. apply Forall_app. now split. Qed.

Lemma zfill_latin1 (w : nat) (s : pystr) : latin1 s -> latin1 (Py.zfill w s).
Proof.
  intros Hs. apply latin1_app; [| exact Hs].
  apply Forall_forall. intros c Hc. apply List.repeat_spec in Hc. subst c. lia.
Qed.

Lemma lit_latin1 (s : string) : latin1 (lit s).
Proof.
  unfold lit. apply Forall_forall. intros c Hc.
  apply List.in_map_iff in Hc as (a & <- & _).
  apply N_ascii_bounded.
Qed.

(** Strings put together from literals and digits. *)
Ltac latin1_parts :=
  repeat match goal with
    | |- latin1 (_ ++ _) => apply latin1_app
    | |- latin1 (lit _) => apply lit_latin1
    | |- latin1 (Py.zfill _ _) => apply zfill_latin1
    | |- latin1 (Py.digits _ _) => apply digits_latin1; lia
    end.

Lemma strftime_HMS_latin1 (t : Py.datetime) : latin1 (Py.strftime_HMS t).
Proof. unfold Py.strftime_HMS. latin1_parts. Qed.

(** ** The mock GPS sentence *)

(** With the constants of the script, whatever the clock and the zone:
    the sentence is ['$'], the body, ['*'] and the checksum of the body,
    and the time in the body is the one of the local wall clock. *)
Lemma gpgga_sentence_form (utc zone : Z) :
  let body :=
    gpgga_body (Py.strftime_HMS (Py.datetime_now utc zone))
      (lit "3326.100000,N") (lit "11200.500000,W") in
  exists checksum,
    get_checksum body = Ok checksum
    /\ List.length checksum = 2%nat
    /\ get_mock_gps_location_in_nmea_gpgga_format default_config utc zone
       = Ok (lit "$" ++ body ++ lit "*" ++ checksum).
Proof.
  intros body.
  assert (Hb : latin1 body).
  { unfold body, gpgga_body. latin1_parts. apply strftime_HMS_latin1. }
  destruct (get_checksum_byte Hb) as [Hc _].
  eexists. split; [exact Hc |]. split; [reflexivity |].
  unfold get_mock_gps_location_in_nmea_gpgga_format.
  assert (Ela : convert_latitude_to_nmea_format (LATITUDE default_config)
                = Ok (lit "3326.100000,N")) by (vm_compute; reflexivity).
  assert (Elo : convert_longitude_to_nmea_format (LONGITUDE default_config)
                = Ok (lit "11200.500000,W")) by (vm_compute; reflexivity).
  rewrite Ela, Elo. simpl. fold body. rewrite Hc. reflexivity.
Qed.

(** C6 fails on the code for the time: at 12:34:56 UTC on a machine whose
    local time is seven hours behind UTC the sentence carries 053456, the
    local time, where the UTC time is 123456. *)
Theorem gps_time_is_local :
  let utc := noon + (34 * 60 + 56) * 1000000 in
  let zone := - (7 * 3600 * 1000000) in
  get_mock_gps_location_in_nmea_gpgga_format default_config utc zone
  = Ok (lit "$GPGGA,053456,3326.100000,N,11200.500000,W,1,12,1.0,0.0,M,0.0,M,,*61")
  /\ Py.strftime_HMS (Py.datetime_utcnow utc) = lit "123456"
  /\ Py.strftime_HMS (Py.datetime_now utc zone) = lit "053456".
Proof. vm_compute. repeat split. Qed.

(** ** Rounding *)

Open Scope Q_scope.

Lemma round_half_even_close (q : Q) :
  Qabs (inject_Z (Py.round_half_even q) - q) <= 1 # 2.
Proof.
  unfold Py.round_half_even.
  pose proof (Qfloor_le q) as Hlo. pose proof (Qlt_floor q) as Hhi.
  rewrite inject_Z_plus in Hhi. change (inject_Z 1) with 1 in Hhi.
  apply Qabs_Qle_condition.
  destruct (Qcompare_spec (q - inject_Z (Qfloor q)) (1 # 2)) as [E | L | G];
    [destruct (Z.even (Qfloor q)) | |];
    rewrite ?inject_Z_plus; change (inject_Z 1) with 1; lra.
Qed.

Lemma round_half_even_nonneg (q : Q) :
  0 <= q -> (0 <= Py.round_half_even q)%Z.
Proof.
  intros Hq. unfold Py.round_half_even.
  assert (Hf : (0 <= Qfloor q)%Z).
  { change 0%Z with (Qfloor 0). now apply Qfloor_resp_le. }
  destruct (Qcompare _ _); [destruct (Z.even _) | |]; lia.
Qed.

Lemma pow2_pos (e : Z) : 0 < Qpower 2 e.
Proof. apply Qpower_0_lt. reflexivity. Qed.

Lemma pow2_le (a b : Z) : (a <= b)%Z -> Qpower 2 a <= Qpower 2 b.
Proof. intros H. apply Qpower_le_compat_l; [exact H | discriminate]. Qed.

Lemma pow2_inject (k : Z) : (0 <= k)%Z -> inject_Z (2 ^ k) == Qpower 2 k.
Proof. intros H. now rewrite Zpower_Qpower. Qed.

(** The exponent of a number below [2^k]. *)
Lemma ilog2_below (q : Q) (k : Z) :
  (0 <= k)%Z -> Qabs q < inject_Z (2 ^ k) -> (Py.ilog2 q <= k - 1)%Z.
Proof.
  intros Hk Hq. unfold Py.ilog2.
  set (e := (Z.log2 (Z.abs (Qnum q)) - Z.log2 (Z.pos (Qden q)))%Z).
  assert (He : (e <= k)%Z).
  { assert (Hz : (Z.abs (Qnum q) <= Z.pos (Qden q) * 2 ^ k)%Z).
    { destruct q as [n d]. unfold Qlt in Hq. cbn [Qabs Qnum Qden inject_Z] in Hq |- *. lia. }
    apply Z.log2_le_mono in Hz.
    rewrite Z.log2_mul_pow2 in Hz by lia. unfold e. lia. }
  destruct (Qle_bool (Qpower 2 e) (Qabs q)) eqn:T; [| lia].
  apply Qle_bool_iff in T.
  assert (Hlt : Qpower 2 e < Qpower 2 k).
  { pose proof (pow2_inject Hk) as E. rewrite E in Hq.
    eapply Qle_lt_trans; eassumption. }
  apply Qpower_lt_compat_l_inv in Hlt; [lia | reflexivity].
Qed.

Lemma ulp_exp_below (q : Q) (k : Z) :
  (0 <= k)%Z -> Qabs q < inject_Z (2 ^ k) -> (Py.ulp_exp q <= k - 53)%Z.
Proof.
  intros Hk Hq. pose proof (ilog2_below q Hk Hq). unfold Py.ulp_exp. lia.
Qed.

(** The nearest binary64 value is within half a unit in the last place. *)
Lemma b64_nearest_close (q : Q) (k : Z) :
  (0 <= k)%Z -> Qabs q < inject_Z (2 ^ k) ->
  Qabs (Py.b64_nearest q - q) <= Qpower 2 (k - 54).
Proof.
  intros Hk Hq. unfold Py.b64_nearest.
  pose proof (ulp_exp_below q Hk Hq) as Hu.
  set (u := Qpower 2 (Py.ulp_exp q)) in *.
  assert (Hpos : 0 < u) by apply pow2_pos.
  pose proof (round_half_even_close (q / u)) as Hr.
  set (m := inject_Z (Py.round_half_even (q / u))) in *.
  assert (E : m * u - q == (m - q / u) * u) by (field; lra).
  rewrite E, Qabs_Qmult, (Qabs_pos u) by lra.
  assert (Hu2 : u <= Qpower 2 (k - 53)) by (apply pow2_le; exact Hu).
  assert (Hh : Qpower 2 (k - 53) == 2 * Qpower 2 (k - 54)).
  { replace (k - 53)%Z with (1 + (k - 54))%Z by lia.
    rewrite Qpower_plus by discriminate. reflexivity. }
  pose proof (Qabs_nonneg (m - q / u)) as Hn.
  nra.
Qed.

Lemma b64_nearest_nonneg (q : Q) : 0 <= q -> 0 <= Py.b64_nearest q.
Proof.
  intros Hq. unfold Py.b64_nearest.
  pose proof (pow2_pos (Py.ulp_exp q)) as Hpos.
  assert (H : (0 <= Py.round_half_even (q / Qpower 2 (Py.ulp_exp q)))%Z).
  { apply round_half_even_nonneg. apply Qle_shift_div_l; lra. }
  apply Qmult_le_0_compat; [| lra].
  change 0 with (inject_Z 0). now rewrite <- Zle_Qle.
Qed.

(** Rounding a number that is small next to [2^1024] gives a finite
    value. *)
Lemma b64_round_finite (q : Q) :
  Qabs (Py.b64_nearest q) < 64 ->
  Py.b64_round q = Py.Ffinite (Qred (Py.b64_nearest q)).
Proof.
  intros H. unfold Py.b64_round.
  destruct (Qle_bool (Qpower 2 1024) (Qabs (Py.b64_nearest q))) eqn:T;
    [| reflexivity].
  apply Qle_bool_iff in T.
  assert (H64 : 64 <= Qpower 2 1024).
  { change 64 with (Qpower 2 6). apply pow2_le. lia. }
  lra.
Qed.

Close Scope Q_scope.

(** The model of binary64 rounding gives what the machine gives: on the
    quotients of the samples, and on the products and differences of the
    pairs of floats. *)
Example b64_round_as_machine :
  List.map
    (fun nd =>
       pyfloat_of_machine
         (PrimFloat.div (machine_float (fst nd, 0))
            (machine_float (snd nd, 0))))
    ratio_samples
  = List.map (fun nd => Py.b64_round (fst nd # Z.to_pos (snd nd)))
      ratio_samples.
Proof. vm_compute. reflexivity. Qed.

Example float_mul_sub_as_machine :
  List.map
    (fun ab =>
       let a := machine_float (fst ab) in
       let b := machine_float (snd ab) in
       (pyfloat_of_machine (PrimFloat.mul a b),
        pyfloat_of_machine (PrimFloat.sub a b)))
    float_samples
  = List.map
      (fun ab =>
         let a := pyfloat_of_machine (machine_float (fst ab)) in
         let b := pyfloat_of_machine (machine_float (snd ab)) in
         (Py.float_mul a b, Py.float_sub a b))
      float_samples.
Proof. vm_compute. reflexivity. Qed.

(** ** Decimal digits *)

Lemma digit_char_decimal (d : N) :
  (d < 10)%N ->
  is_decimal (Py.digit_char d) = true /\ (Py.digit_char d - 48 = d)%N.
Proof.
  intros H. unfold is_decimal, Py.digit_char.
  destruct (N.ltb_spec d 10); [| lia].
  split; [| lia].
  apply andb_true_intro. split; apply N.leb_le; lia.
Qed.

Lemma digits_value_app (s1 s2 : pystr) :
  forall a,
  digits_value a (s1 ++ s2)
  = match digits_value a s1 with
    | Some v => digits_value v s2
    | None => None
    end.
Proof.
  induction s1 as [| c s1 IH]; intros a; simpl; [reflexivity |].
  destruct (is_decimal c); [apply IH | reflexivity].
Qed.

(** What the loop of [digits] adds in front of [acc]. *)
Lemma digits_aux_decimal (fuel : nat) :
  forall (n : N) (acc : pystr),
  (n < 2 ^ N.of_nat fuel)%N ->
  exists ds,
    Py.digits_aux fuel 10 n acc = ds ++ acc
    /\ digits_value 0 ds = Some n
    /\ (fuel <> 0%nat -> ds <> [])
    /\ (forall k, (0 < k)%nat -> (n < 10 ^ N.of_nat k)%N ->
        (List.length ds <= k)%nat).
Proof.
  induction fuel as [| fuel IH]; intros n acc Hn.
  - exists []. simpl in Hn. assert (n = 0%N) by lia. subst n.
    repeat split; simpl; try reflexivity; try lia; try congruence.
  - simpl.
    destruct (digit_char_decimal (d := (n mod 10)%N)) as [Hd Hv];
      [apply N.mod_lt; lia |].
    destruct (N.eqb_spec (n / 10) 0) as [E | E].
    + exists [Py.digit_char (n mod 10)].
      assert (n mod 10 = n)%N as Hsmall.
      { apply N.mod_small. apply N.div_small_iff in E; lia. }
      repeat split; cbn [digits_value List.length].
      * rewrite Hd, Hv. f_equal. lia.
      * discriminate.
      * intros k Hk _. lia.
    + assert (Hhalf : (n / 10 < 2 ^ N.of_nat fuel)%N).
      { rewrite Nat2N.inj_succ, N.pow_succ_r' in Hn.
        apply N.Div0.div_lt_upper_bound.
        remember (2 ^ N.of_nat fuel)%N as X. clear - Hn. lia. }
      destruct (IH (n / 10)%N (Py.digit_char (n mod 10) :: acc) Hhalf)
        as (ds & Heq & Hval & _ & Hlen).
      exists (ds ++ [Py.digit_char (n mod 10)]).
      repeat split.
      * rewrite Heq, <- List.app_assoc. reflexivity.
      * rewrite digits_value_app, Hval. cbn [digits_value].
        rewrite Hd, Hv. f_equal. symmetry. apply N.div_mod. lia.
      * intros _. destruct ds; discriminate.
      * intros k Hk Hlt. rewrite List.length_app. simpl.
        destruct k as [| [| k]]; [lia | |].
        -- change (10 ^ N.of_nat 1)%N with 10%N in Hlt.
           apply N.div_small_iff in Hlt; [| lia]. contradiction.
        -- assert ((List.length ds <= S k)%nat); [| lia].
           apply Hlen; [lia |].
           rewrite Nat2N.inj_succ, N.pow_succ_r' in Hlt.
           apply N.Div0.div_lt_upper_bound. exact Hlt.
Qed.

Lemma digits_decimal (n : N) :
  digits_value 0 (Py.digits 10 n) = Some n
  /\ Py.digits 10 n <> []
  /\ (forall k, (0 < k)%nat -> (n < 10 ^ N.of_nat k)%N ->
      (List.length (Py.digits 10 n) <= k)%nat).
Proof.
  unfold Py.digits.
  destruct (@digits_aux_decimal (S (N.to_nat (N.log2 n))) n [])
    as (ds & Heq & Hval & Hne & Hlen).
  - rewrite Nat2N.inj_succ, N2Nat.id.
    destruct (N.eq_dec n 0) as [-> | Hn]; [reflexivity |].
    apply N.log2_spec. lia.
  - rewrite Heq, List.app_nil_r. repeat split; auto.
Qed.

Lemma number_of_digits_digits (n : N) :
  number_of_digits (Py.digits 10 n) = Some n.
Proof.
  destruct (digits_decimal n) as (Hval & Hne & _).
  unfold number_of_digits. destruct (Py.digits 10 n); [congruence | exact Hval].
Qed.

Lemma digits_value_zeros (k : nat) (s : pystr) :
  digits_value 0 (List.repeat 48%N k ++ s) = digits_value 0 s.
Proof. induction k as [| k IH]; simpl; [reflexivity | exact IH]. Qed.

Lemma number_of_digits_zfill (w : nat) (n : N) :
  number_of_digits (Py.zfill w (Py.digits 10 n)) = Some n.
Proof.
  destruct (digits_decimal n) as (Hval & Hne & _).
  unfold number_of_digits, Py.zfill.
  destruct (List.repeat 48%N _ ++ Py.digits 10 n) eqn:E.
  - apply List.app_eq_nil in E as [_ E]. congruence.
  - rewrite <- E, digits_value_zeros. exact Hval.
Qed.

Lemma zfill_length (w : nat) (s : pystr) :
  (List.length s <= w)%nat -> List.length (Py.zfill w s) = w.
Proof.
  intros H. unfold Py.zfill. rewrite List.length_app, List.repeat_length. lia.
Qed.

Lemma zfill_digits_length (w : nat) (n : N) :
  (0 < w)%nat -> (n < 10 ^ N.of_nat w)%N ->
  List.length (Py.zfill w (Py.digits 10 n)) = w.
Proof.
  intros Hw Hn. apply zfill_length.
  destruct (digits_decimal n) as (_ & _ & Hlen). now apply Hlen.
Qed.

(** Padding a text that ends in [k] characters which are not padded. *)
Lemma zfill_app (w k : nat) (a b : pystr) :
  List.length b = k -> Py.zfill (w + k) (a ++ b) = Py.zfill w a ++ b.
Proof.
  intros H. unfold Py.zfill. rewrite List.length_app, H, <- List.app_assoc.
  do 2 f_equal. lia.
Qed.

(** ** The minutes field and the decoding *)

Lemma minutes_field_length (micro : N) :
  (micro < 100000000)%N -> List.length (minutes_field micro) = 9%nat.
Proof.
  intros H. unfold minutes_field.
  rewrite !List.length_app, !zfill_digits_length; try reflexivity; try lia.
  - apply N.mod_lt. lia.
  - apply N.Div0.div_lt_upper_bound. exact H.
Qed.

(** A list of a known length as its elements. *)
Lemma length_2 (s : pystr) :
  List.length s = 2%nat -> exists a b, s = [a; b].
Proof. destruct s as [| a [| b [| ? ?]]]; try discriminate. eauto. Qed.

Lemma length_6 (s : pystr) :
  List.length s = 6%nat -> exists a b c d e f, s = [a; b; c; d; e; f].
Proof.
  destruct s as [| a [| b [| c [| d [| e [| f [| ? ?]]]]]]]; try discriminate.
  repeat eexists.
Qed.

Lemma nmea_decode_text (degrees micro : N) (c : N) (negative : bool) :
  (micro < 100000000)%N ->
  is_south_or_west c = Some negative ->
  nmea_decode (nmea_text (Z.of_N degrees) micro [c])
  = Some (let v := (inject_Z (Z.of_N degrees)
                    + (inject_Z (Z.of_N (micro / 1000000))
                       + (Z.of_N (micro mod 1000000) # 1000000)) / 60)%Q in
          if negative then Qopp v else v).
Proof.
  intros Hm Hc. unfold nmea_decode, nmea_text.
  assert (Hd : Py.str_of_int (Z.of_N degrees) = Py.digits 10 degrees).
  { unfold Py.str_of_int. destruct degrees; reflexivity. }
  rewrite Hd.
  set (D := Py.digits 10 degrees).
  assert (Hlen : List.length (minutes_field micro ++ lit "," ++ [c]) = 11%nat).
  { rewrite List.length_app, minutes_field_length by exact Hm. reflexivity. }
  replace (List.length (D ++ minutes_field micro ++ lit "," ++ [c]) - 11)%nat
    with (List.length D + 0)%nat
    by (rewrite List.length_app, Hlen; lia).
  rewrite List.skipn_app, List.firstn_app.
  rewrite Nat.add_0_r, List.skipn_all, List.firstn_all. simpl List.app at 1.
  replace (List.length D - List.length D)%nat with 0%nat by lia.
  simpl List.skipn. simpl List.firstn. rewrite List.app_nil_r.
  unfold minutes_field.
  destruct (@length_2 (Py.zfill 2 (Py.digits 10 (micro / 1000000))))
    as (m1 & m2 & Em).
  { apply zfill_digits_length; [lia |].
    apply N.Div0.div_lt_upper_bound. exact Hm. }
  destruct (@length_6 (Py.zfill 6 (Py.digits 10 (micro mod 1000000))))
    as (f1 & f2 & f3 & f4 & f5 & f6 & Ef).
  { apply zfill_digits_length; [lia |]. apply N.mod_lt. lia. }
  pose proof (number_of_digits_zfill 2 (micro / 1000000)) as Hmm.
  pose proof (number_of_digits_zfill 6 (micro mod 1000000)) as Hff.
  rewrite Em in Hmm |- *. rewrite Ef in Hff |- *.
  cbn [List.app lit List.map list_ascii_of_string N_of_ascii N_of_digits].
  cbn [N.eqb Pos.eqb andb].
  unfold D. rewrite number_of_digits_digits, Hmm, Hff, Hc. reflexivity.
Qed.

(** ** Coordinates in NMEA format *)

(** The whole degrees are exact as floats. *)
Lemma float_of_int_degrees (n : Z) :
  0 <= n < 180 -> Py.float_of_int n = Ok (Py.Ffinite (inject_Z n)).
Proof.
  intros Hn.
  assert (T : List.forallb
                (fun k =>
                   match Py.float_of_int (Z.of_nat k) with
                   | Ok (Py.Ffinite (a # b)) =>
                       (a =? Z.of_nat k) && (b =? 1)%positive
                   | _ => false
                   end)
                (List.seq 0 180) = true)
    by (vm_compute; reflexivity).
  rewrite List.forallb_forall in T.
  specialize (T (Z.to_nat n)).
  rewrite Z2Nat.id in T by lia.
  assert (I : In (Z.to_nat n) (List.seq 0 180)) by (apply List.in_seq; lia).
  specialize (T I).
  destruct (Py.float_of_int n) as [[[a b] | |] |]; try discriminate.
  apply andb_prop in T as [Ha Hb].
  apply Z.eqb_eq in Ha. apply Pos.eqb_eq in Hb. subst. reflexivity.
Qed.

Open Scope Q_scope.

(** The fraction of a degree as a float, and its sixtyfold. *)
Lemma minutes_close (f : Q) :
  0 <= f < 1 ->
  exists m p,
    Py.b64_round f = Py.Ffinite m
    /\ Py.b64_round (m * 60) = Py.Ffinite p
    /\ 0 <= p
    /\ Qabs (p - 60 * f) <= 1 # 140737488355328.
Proof.
  intros Hf.
  assert (H54 : Qpower 2 (0 - 54) == 1 # 18014398509481984) by reflexivity.
  assert (H48 : Qpower 2 (6 - 54) == 1 # 281474976710656) by reflexivity.
  pose proof (@b64_nearest_close f 0 ltac:(lia)) as Hm.
  rewrite H54 in Hm.
  assert (Hfa : Qabs f < inject_Z (2 ^ 0))
    by (rewrite Qabs_pos by lra; change (inject_Z (2 ^ 0)) with 1; lra).
  specialize (Hm Hfa). apply Qabs_diff_Qle_condition in Hm.
  pose proof (b64_nearest_nonneg (q := f) ltac:(lra)) as Hm0.
  set (m := Qred (Py.b64_nearest f)).
  assert (Em : m == Py.b64_nearest f) by apply Qred_correct.
  pose proof (@b64_nearest_close (m * 60) 6 ltac:(lia)) as Hp.
  rewrite H48 in Hp.
  assert (Hga : Qabs (m * 60) < inject_Z (2 ^ 6)).
  { rewrite Qabs_pos by lra. change (inject_Z (2 ^ 6)) with 64. lra. }
  specialize (Hp Hga). apply Qabs_diff_Qle_condition in Hp.
  pose proof (b64_nearest_nonneg (q := m * 60) ltac:(lra)) as Hp0.
  set (p := Qred (Py.b64_nearest (m * 60))).
  assert (Ep : p == Py.b64_nearest (m * 60)) by apply Qred_correct.
  exists m, p. repeat split.
  - apply b64_round_finite. rewrite Qabs_pos by lra. lra.
  - apply b64_round_finite. rewrite Qabs_pos by lra. lra.
  - lra.
  - apply Qabs_diff_Qle_condition. lra.
Qed.

Lemma Qabs_nonneg_eq (p : Q) : 0 <= p -> Qabs p = p.
Proof.
  destruct p as [n d]. unfold Qle, Qabs. cbn [Qnum Qden]. intros H.
  f_equal. apply Z.abs_eq. lia.
Qed.

(** Millionths of a minute as a whole number and a fraction. *)
Lemma micro_split (micro : N) :
  inject_Z (Z.of_N (micro / 1000000))
  + (Z.of_N (micro mod 1000000) # 1000000)
  == inject_Z (Z.of_N micro) / 1000000.
Proof.
  assert (HZ : (Z.of_N micro
                = 1000000 * Z.of_N (micro / 1000000)
                  + Z.of_N (micro mod 1000000))%Z).
  { pose proof (N.div_mod micro 1000000 ltac:(lia)). lia. }
  change (inject_Z (Z.of_N micro) / 1000000)
    with (inject_Z (Z.of_N micro) / inject_Z (Z.pos 1000000)).
  rewrite <- Qmake_Qdiv, HZ.
  unfold Qeq, Qplus, inject_Z. cbn [Qnum Qden]. lia.
Qed.

Close Scope Q_scope.

Section Converter.

(** A converter with the body that the two of the script share, the
    letters apart. *)
Variable convert : Py.pyfloat -> result pystr.
Variables south north : N.

Hypothesis convert_body : forall x : Py.pyfloat,
  convert x
  = (let unsigned_decimal_degree := Py.float_abs x in
     whole <- Py.math_floor unsigned_decimal_degree ;;
     degrees <- Py.float_of_int whole ;;
     let minutes := Py.float_sub unsigned_decimal_degree degrees in
     let cardinal := if Py.float_lt_int x 0 then [south] else [north] in
     d <- Py.int_of_float degrees ;;
     Ok (Py.str_of_int d
         ++ Py.format_09_6f (Py.float_mul minutes (Py.Ffinite 60))
         ++ lit "," ++ cardinal)).

Open Scope Q_scope.

Lemma convert_text (q : Q) :
  Qabs q < 180 ->
  exists (degrees micro : N),
    convert (Py.Ffinite q)
    = Ok (nmea_text (Z.of_N degrees) micro
            [if Qlt_le_dec q 0 then south else north])
    /\ inject_Z (Z.of_N degrees) <= Qabs q
    /\ (micro <= 60000000)%N
    /\ Qabs (inject_Z (Z.of_N degrees)
             + (inject_Z (Z.of_N (micro / 1000000))
                + (Z.of_N (micro mod 1000000) # 1000000)) / 60
             - Qabs q) * 60
       <= (1 # 2000000) + (1 # 140737488355328).
Proof.
  intros Hq. rewrite convert_body. cbv zeta.
  unfold Py.float_abs, Py.math_floor. cbn [bind].
  set (u := Qabs q) in *.
  assert (Hu0 : 0 <= u) by apply Qabs_nonneg.
  set (whole := Qfloor u).
  pose proof (Qfloor_le u) as Hlo. pose proof (Qlt_floor u) as Hhi.
  fold whole in Hlo, Hhi.
  rewrite inject_Z_plus in Hhi. change (inject_Z 1) with 1 in Hhi.
  assert (Hw : (0 <= whole < 180)%Z).
  { split.
    - change 0%Z with (Qfloor 0). now apply Qfloor_resp_le.
    - rewrite Zlt_Qlt. change (inject_Z 180) with 180. lra. }
  rewrite float_of_int_degrees by exact Hw. cbn [bind].
  unfold Py.float_sub, Py.int_of_float. cbn [bind inject_Z Qnum Qden].
  rewrite Z.quot_1_r.
  destruct (@minutes_close (u - inject_Z whole)) as (m & p & Em & Ep & Hp0 & Hp);
    [lra |].
  change (whole # 1) with (inject_Z whole).
  rewrite Em. unfold Py.float_mul. rewrite Ep.
  unfold Py.format_09_6f, Py.is_negative.
  destruct (Qlt_le_dec p 0) as [Hneg | _]; [lra |].
  pose proof (round_half_even_close (Qabs p * inject_Z 1000000)) as Hr.
  pose proof (round_half_even_nonneg (q := Qabs p * inject_Z 1000000)) as Hr0.
  rewrite (Qabs_nonneg_eq Hp0) in Hr, Hr0 |- *.
  change (inject_Z 1000000) with 1000000 in *.
  specialize (Hr0 ltac:(lra)).
  set (M := Py.round_half_even (p * 1000000)) in *.
  apply Qabs_diff_Qle_condition in Hp. apply Qabs_Qle_condition in Hr.
  assert (HM : (M <= 60000000)%Z).
  { apply Z.lt_succ_r. rewrite Zlt_Qlt.
    change (inject_Z (Z.succ 60000000)) with 60000001. lra. }
  exists (Z.to_N whole), (Z.to_N M).
  rewrite micro_split, !Z2N.id by lia.
  repeat split.
  - assert (E9 : Py.zfill 9
                   (Py.digits 10 (Z.to_N M / 1000000) ++ [46%N]
                    ++ Py.zfill 6 (Py.digits 10 (Z.to_N M mod 1000000)))
                 = minutes_field (Z.to_N M)).
    { unfold minutes_field. change 9%nat with (2 + 7)%nat. apply zfill_app.
      cbn [List.app List.length]. f_equal.
      apply zfill_digits_length; [lia |]. apply N.mod_lt. lia. }
    assert (EC : (if Py.float_lt_int (Py.Ffinite q) 0 then [south]
                  else [north])
                 = [if Qlt_le_dec q 0 then south else north]).
    { unfold Py.float_lt_int. change (inject_Z 0) with 0.
      now destruct (Qlt_le_dec q 0). }
    rewrite E9, EC. reflexivity.
  - exact Hlo.
  - lia.
  - assert (E : inject_Z whole + inject_Z M / 1000000 / 60 - u
                == (inject_Z M / 1000000 - 60 * (u - inject_Z whole)) / 60)
      by field.
    rewrite E.
    set (d := inject_Z M / 1000000 - 60 * (u - inject_Z whole)).
    assert (Hd : Qabs d <= (1 # 2000000) + (1 # 140737488355328)).
    { apply Qabs_Qle_condition. unfold d.
      assert (Et : inject_Z M == inject_Z M / 1000000 * 1000000) by field.
      set (t := inject_Z M / 1000000) in *. rewrite Et in Hr. lra. }
    assert (E60 : Qabs (d / 60) * 60 == Qabs d).
    { unfold Qdiv. rewrite Qabs_Qmult. change (Qabs (/ 60)) with (/ 60). field. }
    rewrite E60. exact Hd.
Qed.

(** The text decodes to the coordinate, up to the rounding of the
    minutes. *)
Lemma convert_decodes (q : Q) :
  Qabs q < 180 ->
  is_south_or_west south = Some true ->
  is_south_or_west north = Some false ->
  exists (degrees micro : N) (v : Q),
    convert (Py.Ffinite q)
    = Ok (nmea_text (Z.of_N degrees) micro
            [if Qlt_le_dec q 0 then south else north])
    /\ inject_Z (Z.of_N degrees) <= Qabs q
    /\ (micro <= 60000000)%N
    /\ List.length (minutes_field micro) = 9%nat
    /\ nmea_decode
         (nmea_text (Z.of_N degrees) micro
            [if Qlt_le_dec q 0 then south else north])
       = Some v
    /\ Qabs (v - q) * 60 <= (1 # 2000000) + (1 # 140737488355328).
Proof.
  intros Hq Hs Hn.
  destruct (convert_text q Hq) as (degrees & micro & Hc & Hd & Hm & He).
  exists degrees, micro.
  assert (Hm' : (micro < 100000000)%N) by lia.
  destruct (Qlt_le_dec q 0) as [Hneg | Hpos].
  - eexists. split; [exact Hc |]. split; [exact Hd |]. split; [exact Hm |].
    split; [now apply minutes_field_length |].
    split; [apply (@nmea_decode_text degrees micro south true Hm' Hs) |].
    cbv zeta beta iota.
    rewrite (Qabs_neg q) in He by lra.
    set (w := inject_Z (Z.of_N degrees)
              + (inject_Z (Z.of_N (micro / 1000000))
                 + (Z.of_N (micro mod 1000000) # 1000000)) / 60) in *.
    assert (E : - w - q == - (w - - q)) by ring.
    rewrite E, Qabs_opp. exact He.
  - eexists. split; [exact Hc |]. split; [exact Hd |]. split; [exact Hm |].
    split; [now apply minutes_field_length |].
    split; [apply (@nmea_decode_text degrees micro north false Hm' Hn) |].
    cbv zeta beta iota.
    now rewrite (Qabs_pos q) in He by lra.
Qed.

Close Scope Q_scope.

End Converter.

(** C8: for every latitude [x] strictly between -90 and 90 and every
    longitude [y] strictly between -180 and 180, the converters give the
    degrees, the minutes with six digits behind the point in a field of
    nine characters, a comma and the letter of the hemisphere ([S] and [W]
    exactly for the negative ones), and the text decodes, as degrees plus
    minutes over sixty with the sign of the hemisphere, to the coordinate
    up to the rounding of the minutes to six digits. *)
Theorem nmea_roundtrip (x y : Q) :
  (- (90) < x < 90)%Q ->
  (- (180) < y < 180)%Q ->
  coordinate_encoded convert_latitude_to_nmea_format (lit "S") (lit "N") 90 x
  /\ coordinate_encoded convert_longitude_to_nmea_format (lit "W") (lit "E")
       180 y.
Proof.
  intros Hx Hy. split.
  - destruct (@convert_decodes convert_latitude_to_nmea_format 83%N 78%N
                ltac:(reflexivity) x)
      as (degrees & micro & v & Hc & Hd & Hm & Hl & Hv & He);
      try reflexivity.
    { apply Qabs_Qlt_condition. lra. }
    exists degrees, micro, v. cbv zeta.
    replace (if Qlt_le_dec x 0 then lit "S" else lit "N")
      with [if Qlt_le_dec x 0 then 83%N else 78%N]
      by (now destruct (Qlt_le_dec x 0)).
    repeat split; try assumption.
    rewrite Zlt_Qlt. change (inject_Z 90) with 90%Q.
    assert (Qabs x < 90)%Q by (apply Qabs_Qlt_condition; lra). lra.
  - destruct (@convert_decodes convert_longitude_to_nmea_format 87%N 69%N
                ltac:(reflexivity) y)
      as (degrees & micro & v & Hc & Hd & Hm & Hl & Hv & He);
      try reflexivity.
    { apply Qabs_Qlt_condition. lra. }
    exists degrees, micro, v. cbv zeta.
    replace (if Qlt_le_dec y 0 then lit "W" else lit "E")
      with [if Qlt_le_dec y 0 then 87%N else 69%N]
      by (now destruct (Qlt_le_dec y 0)).
    repeat split; try assumption.
    rewrite Zlt_Qlt. change (inject_Z 180) with 180%Q.
    assert (Qabs y < 180)%Q by (apply Qabs_Qlt_condition; lra). lra.
Qed.

Lemma nmea_roundtrip_witness :
  coordinate_encoded convert_latitude_to_nmea_format (lit "S") (lit "N") 90
    (33435 # 1000)
  /\ coordinate_encoded convert_longitude_to_nmea_format (lit "W") (lit "E")
       180 (- (11200833334 # 100000000)).
Proof.
  apply (@nmea_roundtrip (33435 # 1000) (- (11200833334 # 100000000))).
  - split; reflexivity.
  - split; reflexivity.
Defined.

(** The coordinates of the script, and a latitude whose minutes round to
    sixty. *)
Example nmea_of_the_map_center :
  convert_latitude_to_nmea_format (LATITUDE default_config)
  = Ok (lit "3326.100000,N")
  /\ convert_longitude_to_nmea_format (LONGITUDE default_config)
     = Ok (lit "11200.500000,W")
  /\ nmea_decode (lit "11200.500000,W") = Some (- (112 + (0 + (500000 # 1000000)) / 60))%Q
  /\ convert_latitude_to_nmea_format
       (Py.b64_round (3399999999999 # 100000000000))
     = Ok (lit "3360.000000,N").
Proof. vm_compute. repeat split. Qed.

(** ** The times that Dire Wolf writes *)

(** *** The order of the strings *)

Lemma str_ltb_cons (x y : N) (a b : pystr) :
  Py.str_ltb (x :: a) (y :: b) = ((x <? y)%N || ((x =? y)%N && Py.str_ltb a b)).
Proof. reflexivity. Qed.

Lemma str_ltb_two_digits (a b : Z) (r1 r2 : pystr) :
  0 <= a < 100 -> 0 <= b < 100 ->
  Py.str_ltb (two_digits a ++ r1) (two_digits b ++ r2)
  = ((a <? b) || ((a =? b) && Py.str_ltb r1 r2)).
Proof.
  intros Ha Hb. unfold two_digits. cbn [List.app].
  rewrite !str_ltb_cons.
  destruct (N.ltb_spec (Z.to_N (48 + a / 10)) (Z.to_N (48 + b / 10)));
    destruct (N.eqb_spec (Z.to_N (48 + a / 10)) (Z.to_N (48 + b / 10)));
    destruct (N.ltb_spec (Z.to_N (48 + a mod 10)) (Z.to_N (48 + b mod 10)));
    destruct (N.eqb_spec (Z.to_N (48 + a mod 10)) (Z.to_N (48 + b mod 10)));
    destruct (Z.ltb_spec a b); destruct (Z.eqb_spec a b);
    cbn [orb andb]; try reflexivity; exfalso;
    Z.div_mod_to_equations; lia.
Qed.

Lemma str_ltb_four_digits (a b : Z) (r1 r2 : pystr) :
  0 <= a < 10000 -> 0 <= b < 10000 ->
  Py.str_ltb (four_digits a ++ r1) (four_digits b ++ r2)
  = ((a <? b) || ((a =? b) && Py.str_ltb r1 r2)).
Proof.
  intros Ha Hb. unfold four_digits. rewrite <- !List.app_assoc.
  rewrite !str_ltb_two_digits by (Z.div_mod_to_equations; lia).
  destruct (Z.ltb_spec (a / 100) (b / 100));
    destruct (Z.eqb_spec (a / 100) (b / 100));
    destruct (Z.ltb_spec (a mod 100) (b mod 100));
    destruct (Z.eqb_spec (a mod 100) (b mod 100));
    destruct (Z.ltb_spec a b); destruct (Z.eqb_spec a b);
    cbn [orb andb]; try reflexivity; exfalso;
    Z.div_mod_to_equations; lia.
Qed.

Lemma str_ltb_same_head (x : N) (a b : pystr) :
  Py.str_ltb (x :: a) (x :: b) = Py.str_ltb a b.
Proof. simpl. now rewrite N.ltb_irrefl, N.eqb_refl. Qed.

Lemma stamp_ok_bounds (t : stamp) :
  stamp_ok t = true ->
  1 <= year t <= 9999 /\ 1 <= month t <= 12
  /\ 1 <= day t <= Reference.days_in_month (year t) (month t)
  /\ 0 <= hour t < 24 /\ 0 <= minute t < 60 /\ 0 <= second t < 60.
Proof.
  unfold stamp_ok, Reference.date_ok, Reference.time_ok. intros H.
  repeat (apply andb_prop in H; destruct H as [H ?]).
  repeat match goal with
         | H : (_ <=? _) = true |- _ => apply Z.leb_le in H
         | H : (_ <? _) = true |- _ => apply Z.ltb_lt in H
         end.
  lia.
Qed.

Lemma days_in_month_bounds (y m : Z) :
  28 <= Reference.days_in_month y m <= 31.
Proof.
  unfold Reference.days_in_month.
  destruct (m =? 2); [destruct (Reference.is_leap y); lia |].
  destruct (_ || _); lia.
Qed.

(** The strings are in the order of the six numbers. *)
Lemma dire_wolf_isotime_ltb (a b : stamp) :
  stamp_ok a = true -> stamp_ok b = true ->
  Py.str_ltb (dire_wolf_isotime a) (dire_wolf_isotime b) = stamp_ltb a b.
Proof.
  intros Ha Hb.
  pose proof (stamp_ok_bounds a Ha). pose proof (stamp_ok_bounds b Hb).
  pose proof (days_in_month_bounds (year a) (month a)).
  pose proof (days_in_month_bounds (year b) (month b)).
  unfold dire_wolf_isotime, stamp_ltb.
  rewrite str_ltb_four_digits by lia.
  cbn [lit List.map list_ascii_of_string List.app]. rewrite str_ltb_same_head.
  rewrite str_ltb_two_digits by lia. rewrite str_ltb_same_head.
  rewrite str_ltb_two_digits by lia. rewrite str_ltb_same_head.
  rewrite str_ltb_two_digits by lia. rewrite str_ltb_same_head.
  rewrite str_ltb_two_digits by lia. rewrite str_ltb_same_head.
  rewrite str_ltb_two_digits by lia.
  rewrite str_ltb_irrefl, andb_false_r, orb_false_r. reflexivity.
Qed.

(** *** The calendar *)

Lemma days_before_next_year (y : Z) :
  Reference.days_before_year (y + 1)
  = Reference.days_before_year y + 365 + leap_day y.
Proof.
  unfold Reference.days_before_year, leap_day, Reference.is_leap.
  replace (y + 1 - 1) with y by lia.
  destruct (Z.eqb_spec (y mod 4) 0); destruct (Z.eqb_spec (y mod 100) 0);
    destruct (Z.eqb_spec (y mod 400) 0); cbn [andb orb negb];
    Z.div_mod_to_equations; lia.
Qed.

Lemma days_before_year_mono (y y' : Z) :
  y <= y' -> Reference.days_before_year y <= Reference.days_before_year y'.
Proof.
  intros H. unfold Reference.days_before_year.
  Z.div_mod_to_equations. lia.
Qed.

(** The days before a month, month by month. *)
Lemma days_before_month_table (y m : Z) :
  1 <= m <= 12 ->
  Reference.days_before_month y m
  = match m with
    | 1 => 0 | 2 => 31 | 3 => 59 + leap_day y | 4 => 90 + leap_day y
    | 5 => 120 + leap_day y | 6 => 151 + leap_day y
    | 7 => 181 + leap_day y | 8 => 212 + leap_day y
    | 9 => 243 + leap_day y | 10 => 273 + leap_day y
    | 11 => 304 + leap_day y | _ => 334 + leap_day y
    end.
Proof.
  intros Hm.
  assert (C : m = 1 \/ m = 2 \/ m = 3 \/ m = 4 \/ m = 5 \/ m = 6 \/ m = 7
              \/ m = 8 \/ m = 9 \/ m = 10 \/ m = 11 \/ m = 12) by lia.
  unfold leap_day, Reference.days_before_month, Reference.days_in_month.
  repeat (destruct C as [-> | C]); try subst m;
    cbn; destruct (Reference.is_leap y); reflexivity.
Qed.

Lemma days_in_month_table (y m : Z) :
  1 <= m <= 12 ->
  Reference.days_in_month y m
  = match m with
    | 2 => 28 + leap_day y
    | 4 | 6 | 9 | 11 => 30
    | _ => 31
    end.
Proof.
  intros Hm.
  assert (C : m = 1 \/ m = 2 \/ m = 3 \/ m = 4 \/ m = 5 \/ m = 6 \/ m = 7
              \/ m = 8 \/ m = 9 \/ m = 10 \/ m = 11 \/ m = 12) by lia.
  unfold leap_day, Reference.days_in_month.
  repeat (destruct C as [-> | C]); try subst m;
    cbn; destruct (Reference.is_leap y); reflexivity.
Qed.

Lemma day_of_year_bounds (t : stamp) :
  stamp_ok t = true -> 1 <= day_of_year t <= 365 + leap_day (year t).
Proof.
  intros Hok. destruct (stamp_ok_bounds t Hok) as (_ & Hm & Hd & _).
  unfold day_of_year.
  rewrite days_before_month_table by exact Hm.
  rewrite days_in_month_table in Hd by exact Hm.
  assert (C : month t = 1 \/ month t = 2 \/ month t = 3 \/ month t = 4
              \/ month t = 5 \/ month t = 6 \/ month t = 7 \/ month t = 8
              \/ month t = 9 \/ month t = 10 \/ month t = 11 \/ month t = 12)
    by lia.
  assert (0 <= leap_day (year t) <= 1)
    by (unfold leap_day; destruct (Reference.is_leap _); lia).
  repeat (destruct C as [C | C]); rewrite C in *; cbv beta iota in *; lia.
Qed.

(** In one year, the earlier month or day is the earlier day of the
    year. *)
Lemma day_of_year_lt (a b : stamp) :
  stamp_ok a = true -> stamp_ok b = true ->
  year a = year b ->
  month a < month b \/ (month a = month b /\ day a < day b) ->
  day_of_year a < day_of_year b.
Proof.
  intros Ha Hb Hy Hlt.
  destruct (stamp_ok_bounds a Ha) as (_ & Hma & Hda & _).
  destruct (stamp_ok_bounds b Hb) as (_ & Hmb & Hdb & _).
  unfold day_of_year.
  rewrite days_in_month_table in Hda, Hdb by assumption.
  rewrite !days_before_month_table by assumption.
  rewrite <- Hy in *.
  assert (0 <= leap_day (year a) <= 1)
    by (unfold leap_day; destruct (Reference.is_leap _); lia).
  assert (Ca : month a = 1 \/ month a = 2 \/ month a = 3 \/ month a = 4
               \/ month a = 5 \/ month a = 6 \/ month a = 7 \/ month a = 8
               \/ month a = 9 \/ month a = 10 \/ month a = 11
               \/ month a = 12) by lia.
  assert (Cb : month b = 1 \/ month b = 2 \/ month b = 3 \/ month b = 4
               \/ month b = 5 \/ month b = 6 \/ month b = 7 \/ month b = 8
               \/ month b = 9 \/ month b = 10 \/ month b = 11
               \/ month b = 12) by lia.
  repeat (destruct Ca as [Ca | Ca]); rewrite Ca in *;
    repeat (destruct Cb as [Cb | Cb]); rewrite Cb in *; cbv beta iota in *; lia.
Qed.

(** The instant by the day and the time of the day. *)
Lemma stamp_instant_parts (t : stamp) :
  stamp_instant t
  = (Reference.days_before_year (year t) + day_of_year t - 1)
    * 86400000000
    + ((hour t * 60 + minute t) * 60 + second t) * 1000000.
Proof.
  unfold stamp_instant, day_of_year, Reference.microseconds. lia.
Qed.

(** The earlier of two times, by their numbers, has the earlier
    instant. *)
Lemma stamp_instant_lt (a b : stamp) :
  stamp_ok a = true -> stamp_ok b = true ->
  stamp_ltb a b = true -> stamp_instant a < stamp_instant b.
Proof.
  intros Ha Hb Hlt.
  pose proof (stamp_ok_bounds a Ha) as Ba.
  pose proof (stamp_ok_bounds b Hb) as Bb.
  pose proof (day_of_year_bounds a Ha) as Da.
  pose proof (day_of_year_bounds b Hb) as Db.
  rewrite !stamp_instant_parts.
  unfold stamp_ltb in Hlt.
  destruct (Z.ltb_spec (year a) (year b)) as [Hy | Hy].
  { pose proof (days_before_next_year (year a)) as Hn.
    pose proof (@days_before_year_mono (year a + 1) (year b) ltac:(lia)).
    lia. }
  destruct (Z.eqb_spec (year a) (year b)) as [Ey | Ey];
    [| discriminate Hlt].
  cbn [orb andb] in Hlt.
  destruct (Z.ltb_spec (month a) (month b)) as [Hm | Hm].
  { pose proof (@day_of_year_lt a b Ha Hb Ey ltac:(lia)). rewrite Ey. lia. }
  destruct (Z.eqb_spec (month a) (month b)) as [Em | Em];
    [| discriminate Hlt].
  cbn [orb andb] in Hlt.
  destruct (Z.ltb_spec (day a) (day b)) as [Hd | Hd].
  { pose proof (@day_of_year_lt a b Ha Hb Ey ltac:(lia)). rewrite Ey. lia. }
  destruct (Z.eqb_spec (day a) (day b)) as [Ed | Ed];
    [| discriminate Hlt].
  cbn [orb andb] in Hlt.
  assert (Edoy : day_of_year a = day_of_year b)
    by (unfold day_of_year; congruence).
  rewrite Ey, Edoy.
  destruct (Z.ltb_spec (hour a) (hour b)); [lia |].
  destruct (Z.eqb_spec (hour a) (hour b)); [| discriminate Hlt].
  cbn [orb andb] in Hlt.
  destruct (Z.ltb_spec (minute a) (minute b)); [lia |].
  destruct (Z.eqb_spec (minute a) (minute b)); [| discriminate Hlt].
  cbn [orb andb] in Hlt. apply Z.ltb_lt in Hlt. lia.
Qed.

(** Two times are in the order of their numbers, the one before the
    other, or have the same numbers. *)
Lemma stamp_ltb_total (a b : stamp) :
  stamp_ltb a b = false -> stamp_ltb b a = false ->
  year a = year b /\ month a = month b /\ day a = day b
  /\ hour a = hour b /\ minute a = minute b /\ second a = second b.
Proof.
  unfold stamp_ltb. intros H1 H2. lia.
Qed.

(** The order of the numbers is the order of the instants. *)
Lemma stamp_ltb_instant (a b : stamp) :
  stamp_ok a = true -> stamp_ok b = true ->
  stamp_ltb a b = (stamp_instant a <? stamp_instant b).
Proof.
  intros Ha Hb.
  destruct (stamp_ltb a b) eqn:Eab.
  - symmetry. apply Z.ltb_lt. now apply stamp_instant_lt.
  - symmetry. apply Z.ltb_ge.
    destruct (stamp_ltb b a) eqn:Eba.
    + apply Z.lt_le_incl. now apply stamp_instant_lt.
    + destruct (stamp_ltb_total a b Eab Eba) as (Ey & Em & Ed & Eh & Emi & Es).
      unfold stamp_instant. rewrite Ey, Em, Ed, Eh, Emi, Es. lia.
Qed.

(** *** Reading the times that Dire Wolf writes *)

Lemma digit_char_value (d : Z) :
  0 <= d <= 9 ->
  Reference.is_digit (Z.to_N (48 + d)) = true
  /\ Reference.digit_value (Z.to_N (48 + d)) = d.
Proof.
  intros Hd. unfold Reference.is_digit, Reference.digit_value. split.
  - apply andb_true_intro. split; apply N.leb_le; lia.
  - lia.
Qed.

Lemma take_two_digits (acc n : Z) (r : pystr) :
  0 <= n < 100 ->
  Reference.take_digits 2 acc (two_digits n ++ r) = Some (100 * acc + n, r).
Proof.
  intros Hn. unfold two_digits. cbn [app Reference.take_digits].
  destruct (@digit_char_value (n / 10)) as [D1 V1];
    [Z.div_mod_to_equations; lia |].
  destruct (@digit_char_value (n mod 10)) as [D2 V2];
    [Z.div_mod_to_equations; lia |].
  rewrite D1, V1, D2, V2. do 2 f_equal.
  Z.div_mod_to_equations; lia.
Qed.

Lemma take_digits_add (n m : nat) (acc : Z) (s : pystr) :
  Reference.take_digits (n + m) acc s
  = match Reference.take_digits n acc s with
    | Some (v, s') => Reference.take_digits m v s'
    | None => None
    end.
Proof.
  revert acc s. induction n as [| n IH]; intros acc s; [reflexivity |].
  cbn [Nat.add Reference.take_digits].
  destruct s as [| c s]; [reflexivity |].
  destruct (Reference.is_digit c); [apply IH | reflexivity].
Qed.

Lemma take_four_digits (n : Z) (r : pystr) :
  0 <= n < 10000 ->
  Reference.take_digits 4 0 (four_digits n ++ r) = Some (n, r).
Proof.
  intros Hn. unfold four_digits.
  change 4%nat with (2 + 2)%nat. rewrite take_digits_add.
  rewrite <- List.app_assoc.
  rewrite take_two_digits by (Z.div_mod_to_equations; lia).
  rewrite take_two_digits by (Z.div_mod_to_equations; lia).
  do 2 f_equal. Z.div_mod_to_equations; lia.
Qed.

(** The digits are kept by the replacement of [Z] and are before the
    sign of the offset. *)
Lemma replace_two_digits (new : pystr) (n : Z) (r : pystr) :
  0 <= n < 100 ->
  Py.replace_char 90 new (two_digits n ++ r)
  = two_digits n ++ Py.replace_char 90 new r.
Proof.
  intros Hn. unfold Py.replace_char, two_digits. cbn [app List.flat_map].
  destruct (N.eqb_spec (Z.to_N (48 + n / 10)) 90) as [E | _];
    [exfalso; Z.div_mod_to_equations; lia |].
  destruct (N.eqb_spec (Z.to_N (48 + n mod 10)) 90) as [E | _];
    [exfalso; Z.div_mod_to_equations; lia |].
  reflexivity.
Qed.

Lemma split_two_digits (n : Z) (r : pystr) :
  0 <= n < 100 ->
  Reference.split_at_sign (two_digits n ++ r)
  = (two_digits n ++ fst (Reference.split_at_sign r),
     snd (Reference.split_at_sign r)).
Proof.
  intros Hn. unfold two_digits. cbn [app Reference.split_at_sign].
  destruct (N.eqb_spec (Z.to_N (48 + n / 10)) 43) as [E | _];
    [exfalso; Z.div_mod_to_equations; lia |].
  destruct (N.eqb_spec (Z.to_N (48 + n / 10)) 45) as [E | _];
    [exfalso; Z.div_mod_to_equations; lia |].
  destruct (N.eqb_spec (Z.to_N (48 + n mod 10)) 43) as [E | _];
    [exfalso; Z.div_mod_to_equations; lia |].
  destruct (N.eqb_spec (Z.to_N (48 + n mod 10)) 45) as [E | _];
    [exfalso; Z.div_mod_to_equations; lia |].
  destruct (Reference.split_at_sign r); reflexivity.
Qed.

Lemma split_colon (r : pystr) :
  Reference.split_at_sign (58%N :: r)
  = (58%N :: fst (Reference.split_at_sign r),
     snd (Reference.split_at_sign r)).
Proof.
  cbn [Reference.split_at_sign N.eqb Pos.eqb].
  destruct (Reference.split_at_sign r); reflexivity.
Qed.

(** The time of the day, with the offset that the script writes in the
    place of [Z]. *)
Lemma time_and_zone_utc (h m s : Z) :
  0 <= h < 24 -> 0 <= m < 60 -> 0 <= s < 60 ->
  Reference.time_and_zone
    (two_digits h ++ 58%N :: two_digits m ++ 58%N :: two_digits s
     ++ lit "+00:00")
  = Some (Reference.microseconds h m s 0, Some 0).
Proof.
  intros Hh Hm Hs. unfold Reference.time_and_zone.
  rewrite split_two_digits by lia. rewrite split_colon.
  rewrite split_two_digits by lia. rewrite split_colon.
  rewrite split_two_digits by lia.
  change (Reference.split_at_sign (lit "+00:00"))
    with (@nil N, Some (false, lit "00:00")).
  cbn [fst snd]. rewrite List.app_nil_r.
  unfold Reference.hh_mm_ss_ff at 1.
  rewrite take_two_digits by lia.
  rewrite take_two_digits by lia.
  rewrite <- (List.app_nil_r (two_digits s)).
  rewrite take_two_digits by lia.
  replace (Reference.time_ok (100 * 0 + h) (100 * 0 + m) (100 * 0 + s))
    with true
    by (unfold Reference.time_ok; symmetry; lia).
  change (List.length (lit "00:00")) with 5%nat.
  change (Reference.hh_mm_ss_ff (lit "00:00")) with (Some (0, 0, 0, 0)).
  cbn [Nat.eqb orb]. 
  change (Reference.microseconds 0 0 0 0) with 0.
  cbn [Z.ltb Z.compare Z.mul Pos.mul Pos.add].
  replace (100 * 0 + h) with h by lia.
  replace (100 * 0 + m) with m by lia.
  replace (100 * 0 + s) with s by lia.
  reflexivity.
Qed.

(** What the script reads in a time of the log: the instant of its
    numbers, with the offset 0. *)
Lemma dire_wolf_isotime_parses (t : stamp) :
  stamp_ok t = true ->
  Reference.fromisoformat
    (Py.replace_char 90 (lit "+00:00") (dire_wolf_isotime t))
  = Ok {| Py.wall := stamp_instant t; Py.utcoffset := Some 0 |}.
Proof.
  intros Hok.
  destruct (stamp_ok_bounds t Hok) as (Hy & Hm & Hd & Hh & Hmi & Hs).
  pose proof (days_in_month_bounds (year t) (month t)) as Hdim.
  assert (Hdate : Reference.date_ok (year t) (month t) (day t) = true).
  { unfold stamp_ok in Hok.
    do 4 (apply andb_prop in Hok; destruct Hok as [Hok _]). exact Hok. }
  unfold dire_wolf_isotime, four_digits.
  change (lit "-") with [45%N]. change (lit "T") with [84%N].
  change (lit ":") with [58%N]. change (lit "Z") with [90%N].
  cbn [app].
  rewrite <- List.app_assoc.
  rewrite replace_two_digits by (Z.div_mod_to_equations; lia).
  rewrite replace_two_digits by (Z.div_mod_to_equations; lia).
  change (Py.replace_char 90 (lit "+00:00") (45%N :: ?r))
    with (45%N :: Py.replace_char 90 (lit "+00:00") r).
  rewrite replace_two_digits by lia.
  change (Py.replace_char 90 (lit "+00:00") (45%N :: ?r))
    with (45%N :: Py.replace_char 90 (lit "+00:00") r).
  rewrite replace_two_digits by lia.
  change (Py.replace_char 90 (lit "+00:00") (84%N :: ?r))
    with (84%N :: Py.replace_char 90 (lit "+00:00") r).
  rewrite replace_two_digits by lia.
  change (Py.replace_char 90 (lit "+00:00") (58%N :: ?r))
    with (58%N :: Py.replace_char 90 (lit "+00:00") r).
  rewrite replace_two_digits by lia.
  change (Py.replace_char 90 (lit "+00:00") (58%N :: ?r))
    with (58%N :: Py.replace_char 90 (lit "+00:00") r).
  rewrite replace_two_digits by lia.
  change (Py.replace_char 90 (lit "+00:00") [90%N]) with (lit "+00:00").
  rewrite List.app_assoc. fold (four_digits (year t)).
  unfold Reference.fromisoformat.
  rewrite take_four_digits by lia.
  rewrite take_two_digits by lia.
  rewrite take_two_digits by lia.
  replace (100 * 0 + month t) with (month t) by lia.
  replace (100 * 0 + day t) with (day t) by lia.
  rewrite Hdate. cbn [app].
  rewrite time_and_zone_utc by lia.
  reflexivity.
Qed.

Lemma dire_wolf_instant (e : entry) (t : stamp) :
  stamp_ok t = true -> isotime e = dire_wolf_isotime t ->
  instant_of (parsers := Reference.parsers) e = Some (stamp_instant t).
Proof.
  intros Hok E. unfold instant_of. rewrite E.
  change (@Py.fromisoformat Reference.parsers) with Reference.fromisoformat.
  rewrite dire_wolf_isotime_parses by exact Hok.
  cbn [Py.utcoffset Py.wall]. f_equal. lia.
Qed.

Lemma StronglySorted_impl (A : Type) (P : A -> Prop) (R R' : A -> A -> Prop)
    (l : list A) :
  (forall a b, P a -> P b -> R a b -> R' a b) ->
  Forall P l -> StronglySorted R l -> StronglySorted R' l.
Proof.
  intros HR HP HS. induction HS as [| a l HS IH Ha]; [constructor |].
  inversion HP as [| ? ? Pa Pl]; subst.
  constructor; [now apply IH |].
  rewrite Forall_forall in *. intros b Hb. apply HR; auto.
Qed.

(** On times in the form that Dire Wolf writes, the order of the strings
    is the order of the instants: the entries sorted by the script are
    in descending order of the instants of their times. *)
Lemma sorted_reverse_by_instant (l : list entry) :
  Forall dire_wolf_stamped l ->
  by_instant_descending (parsers := Reference.parsers)
    (Py.sorted_reverse isotime l).
Proof.
  intros Hl. unfold by_instant_descending.
  apply (@StronglySorted_impl entry dire_wolf_stamped
           (fun a b => Py.str_ltb (isotime a) (isotime b) = false)).
  - intros a b (ta & Oa & Ea) (tb & Ob & Eb) Hab.
    rewrite (dire_wolf_instant a Oa Ea), (dire_wolf_instant b Ob Eb).
    rewrite Ea, Eb, dire_wolf_isotime_ltb in Hab by assumption.
    rewrite stamp_ltb_instant in Hab by assumption.
    now apply Z.ltb_ge in Hab.
  - rewrite Forall_forall in *. intros e He. apply Hl.
    eapply Permutation_in; [apply sorted_reverse_perm | exact He].
  - apply sorted_reverse_descending.
Qed.


(** The first second of 2024, as Dire Wolf writes it and as the script
    reads it. *)
Example dire_wolf_isotime_new_year :
  let t := {| year := 2024; month := 1; day := 1;
              hour := 0; minute := 0; second := 0 |} in
  stamp_ok t = true
  /\ dire_wolf_isotime t = lit "2024-01-01T00:00:00Z"
  /\ Reference.fromisoformat (lit "2024-01-01T00:00:00+00:00")
     = Ok {| Py.wall := stamp_instant t; Py.utcoffset := Some 0 |}.
Proof.
  repeat split; vm_compute; reflexivity.
Qed.

(** ** The validators of the coordinates *)

Lemma float_between (x : Py.pyfloat) (lo hi : Z) :
  Py.float_gt_int x lo && Py.float_lt_int x hi = true
  <-> exists q, x = Py.Ffinite q /\ (inject_Z lo < q < inject_Z hi)%Q.
Proof.
  destruct x as [q | negative |]; simpl.
  - split.
    + intros H. exists q. split; [reflexivity |].
      destruct (Qlt_le_dec (inject_Z lo) q) as [L | L];
        destruct (Qlt_le_dec q (inject_Z hi)) as [U | U];
        try discriminate H. auto.
    + intros (q' & E & L' & U'). injection E as <-.
      destruct (Qlt_le_dec (inject_Z lo) q) as [L | L];
        destruct (Qlt_le_dec q (inject_Z hi)) as [U | U];
        try reflexivity; exfalso; lra.
  - split; [destruct negative; discriminate |].
    intros (q & E & _). discriminate E.
  - split; [discriminate |]. intros (q & E & _). discriminate E.
Qed.

Section Validators.

Context {parsers : Py.Parsers}.

Lemma latitude_string_valid_between (s : pystr) :
  latitude_string_valid s = true
  <-> exists q,
        Py.float s = Ok (Py.Ffinite q)
        /\ (inject_Z (-90) < q < inject_Z 90)%Q.
Proof.
  unfold latitude_string_valid.
  destruct (Py.float s) as [x | e]; simpl.
  - assert (E : (if Py.float_gt_int x (-90) then Ok (Py.float_lt_int x 90)
                 else Ok false)
                = Ok (Py.float_gt_int x (-90) && Py.float_lt_int x 90))
      by (destruct (Py.float_gt_int x (-90)); reflexivity).
    rewrite E. split.
    + intros H. apply float_between in H as (q & -> & Hq). eauto.
    + intros (q & Eq & Hq). injection Eq as ->.
      apply float_between. eauto.
  - split; [discriminate |]. intros (q & E & _). discriminate E.
Qed.

Lemma longitude_string_valid_between (s : pystr) :
  longitude_string_valid s = true
  <-> exists q,
        Py.float s = Ok (Py.Ffinite q)
        /\ (inject_Z (-180) < q < inject_Z 180)%Q.
Proof.
  unfold longitude_string_valid.
  destruct (Py.float s) as [x | e]; simpl.
  - assert (E : (if Py.float_gt_int x (-180) then Ok (Py.float_lt_int x 180)
                 else Ok false)
                = Ok (Py.float_gt_int x (-180) && Py.float_lt_int x 180))
      by (destruct (Py.float_gt_int x (-180)); reflexivity).
    rewrite E. split.
    + intros H. apply float_between in H as (q & -> & Hq). eauto.
    + intros (q & Eq & Hq). injection Eq as ->.
      apply float_between. eauto.
  - split; [discriminate |]. intros (q & E & _). discriminate E.
Qed.

(** A string that the validator of latitudes accepts is one that the
    validator of longitudes accepts. *)
Lemma latitude_valid_longitude_valid (s : pystr) :
  latitude_string_valid s = true -> longitude_string_valid s = true.
Proof.
  rewrite latitude_string_valid_between, longitude_string_valid_between.
  intros (q & E & Hq). exists q. split; [exact E |].
  change (inject_Z (-90)) with (-90 # 1)%Q in Hq.
  change (inject_Z 90) with (90 # 1)%Q in Hq.
  change (inject_Z (-180)) with (-180 # 1)%Q.
  change (inject_Z 180) with (180 # 1)%Q. lra.
Qed.

(** The test of a row, by its four fields: the longitude is only asked
    to be there. *)
Lemma all_valid_by_fields (r : row) :
  all_valid r
  = match row_get r (lit "isotime"), row_get r (lit "source"),
          row_get r (lit "latitude"), row_get r (lit "longitude") with
    | Some i, Some s, Some la, Some lo =>
        negb (Py.str_eqb s (lit "source")) && negb (Py.isspace s)
        && latitude_string_valid la && iso_string_valid i
    | _, _, _, _ => false
    end.
Proof.
  unfold all_valid, valid_source, valid_latitude, valid_longitude,
    valid_isotime.
  destruct (row_get r (lit "isotime")) as [i |];
    destruct (row_get r (lit "source")) as [s |];
    destruct (row_get r (lit "latitude")) as [la |];
    destruct (row_get r (lit "longitude")) as [lo |];
    cbn [is_not_None on_field andb negb];
    rewrite ?andb_false_r; try reflexivity.
  destruct (latitude_string_valid la) eqn:Ela.
  - rewrite (latitude_valid_longitude_valid _ Ela).
    now rewrite !andb_true_r.
  - now rewrite !andb_false_r.
Qed.

End Validators.

(** X1: each validator of a coordinate returns [True] exactly on the
    strings that [float] reads as a finite number strictly between its
    two bounds, -90 and 90 for the latitude and -180 and 180 for the
    longitude; on every other string, also one that [float] does not
    read, [nan] and the infinities, it returns [False], and it never
    raises. *)
Theorem coordinate_strings_valid {parsers : Py.Parsers} (s : pystr) :
  (latitude_string_valid s = true
   <-> exists q, Py.float s = Ok (Py.Ffinite q) /\ (- (90) < q < 90)%Q)
  /\ (longitude_string_valid s = true
      <-> exists q, Py.float s = Ok (Py.Ffinite q) /\ (- (180) < q < 180)%Q).
Proof.
  split.
  - apply latitude_string_valid_between.
  - apply longitude_string_valid_between.
Qed.


(** ** Stripping *)

Lemma lstrip_head (s : pystr) :
  Py.lstrip s = [] \/ exists c t, Py.lstrip s = c :: t /\ Py.is_whitespace c = false.
Proof.
  induction s as [| c s IH]; simpl; [now left |].
  destruct (Py.is_whitespace c) eqn:E; [exact IH |].
  right. now exists c, s.
Qed.

Lemma lstrip_fixed (c : N) (t : pystr) :
  Py.is_whitespace c = false -> Py.lstrip (c :: t) = c :: t.
Proof. intros H. simpl. now rewrite H. Qed.

Lemma lstrip_last (c : N) (l : pystr) :
  Py.is_whitespace c = false -> exists l', Py.lstrip (l ++ [c]) = l' ++ [c].
Proof.
  intros H. induction l as [| x l IH]; simpl.
  - rewrite H. now exists [].
  - destruct (Py.is_whitespace x); [exact IH |]. now exists (x :: l).
Qed.

Lemma lstrip_lstrip (s : pystr) : Py.lstrip (Py.lstrip s) = Py.lstrip s.
Proof.
  induction s as [| c s IH]; simpl; [reflexivity |].
  destruct (Py.is_whitespace c) eqn:E; [exact IH |].
  simpl. now rewrite E.
Qed.

(** A stripped string is empty or has no blank at its two ends, so that
    stripping it again leaves it as it is. *)
Lemma strip_strip (s : pystr) : Py.strip (Py.strip s) = Py.strip s.
Proof.
  unfold Py.strip.
  destruct (lstrip_head s) as [E | (c & t & E & Hc)]; rewrite E.
  - reflexivity.
  - cbn [List.rev].
    destruct (@lstrip_last c (List.rev t) Hc) as (l' & El). rewrite El.
    rewrite List.rev_app_distr. cbn [List.rev List.app].
    rewrite (@lstrip_fixed c _ Hc).
    cbn [List.rev]. rewrite List.rev_involutive.
    rewrite <- El, lstrip_lstrip, El.
    rewrite List.rev_app_distr. reflexivity.
Qed.

(** ** What the dictionary holds *)

Section StoredOk.

Context {parsers : Py.Parsers}.

Lemma dict_set_Forall_pairs (P : pystr * entry -> Prop) (d : dict)
    (k : pystr) (v : entry) :
  Forall P d -> P (k, v) -> Forall P (dict_set d k v).
Proof.
  intros Hd Hv. induction d as [| [k' v'] d IH]; simpl.
  - repeat constructor. exact Hv.
  - inversion Hd as [| ? ? Hv' Hd']; subst.
    destruct (Py.str_eqb k k') eqn:E.
    + apply str_eqb_eq in E. subst k'. now constructor.
    + constructor; auto.
Qed.

Lemma dict_del_In (d : dict) (k : pystr) (kv : pystr * entry) :
  In kv (dict_del d k) -> In kv d.
Proof.
  induction d as [| [k' v'] d IH]; simpl; [tauto |].
  destruct (Py.str_eqb k k'); simpl; tauto.
Qed.

(** Whatever the removal does, and however it ends, what it leaves is
    made of entries that were there. *)
Lemma remove_stale_loop_In (cfg : config) (clock : nat -> Z)
    (keys : list pystr) :
  forall (i : nat) (d : dict) (kv : pystr * entry),
  In kv (fst (remove_stale_loop cfg clock i keys d)) -> In kv d.
Proof.
  induction keys as [| k keys IH]; intros i d kv; simpl; [tauto |].
  destruct (dict_item d k) as [e |]; simpl; [| tauto].
  destruct (older_than _ _ e) as [[|] |]; simpl.
  - intros H. apply IH in H. eapply dict_del_In. exact H.
  - apply IH.
  - tauto.
Qed.

Lemma ingest_row_stored_ok (d : dict) (r : row) :
  Forall stored_ok d -> Forall stored_ok (ingest_row d r).
Proof.
  intros Hd. unfold ingest_row. rewrite all_valid_by_fields.
  unfold entry_of_row.
  destruct (row_get r (lit "isotime")) as [i |]; [| exact Hd].
  destruct (row_get r (lit "source")) as [s |]; [| exact Hd].
  destruct (row_get r (lit "latitude")) as [la |]; [| exact Hd].
  destruct (row_get r (lit "longitude")) as [lo |]; [| exact Hd].
  destruct (_ && _) eqn:V; cbn [negb]; [| exact Hd].
  apply andb_prop in V as [V Hi]. apply andb_prop in V as [V Hla].
  apply andb_prop in V as [Hs Hb].
  apply negb_true_iff in Hs, Hb. apply str_eqb_neq in Hs.
  apply dict_set_Forall_pairs; [exact Hd |].
  unfold stored_ok. cbn [fst snd source latitude isotime comment].
  repeat split; try assumption.
  unfold row_comment.
  destruct (row_contains r (lit "comment")); [| reflexivity].
  destruct (row_get r (lit "comment")); [apply strip_strip | reflexivity].
Qed.

Lemma ingest_rows_stored_ok (rows : list row) :
  forall d, Forall stored_ok d ->
  Forall stored_ok (List.fold_left ingest_row rows d).
Proof.
  induction rows as [| r rows IH]; intros d Hd; simpl; [exact Hd |].
  apply IH. now apply ingest_row_stored_ok.
Qed.

Lemma reachable_Forall_stored_ok (d : dict) :
  reachable d -> Forall stored_ok d.
Proof.
  induction 1 as [| cfg log d _ IH | cfg clock d _ IH].
  - constructor.
  - destruct log as [rows |]; simpl; [| exact IH].
    now apply ingest_rows_stored_ok.
  - rewrite Forall_forall in *. intros kv Hkv. apply IH.
    eapply remove_stale_loop_In. exact Hkv.
Qed.

End StoredOk.



(** ** Reading the log as a sequence of assignments *)

Lemma dict_update_app (d : dict) (a b : list (pystr * entry)) :
  dict_update d (a ++ b) = dict_update (dict_update d a) b.
Proof. unfold dict_update. apply List.fold_left_app. Qed.

Lemma dict_update_keys (l : list (pystr * entry)) :
  forall d, exists new, dict_keys (dict_update d l) = dict_keys d ++ new.
Proof.
  induction l as [| [k v] l IH]; intros d.
  - exists []. now rewrite List.app_nil_r.
  - destruct (IH (dict_set d k v)) as (new & E).
    change (dict_update d ((k, v) :: l)) with (dict_update (dict_set d k v) l).
    rewrite E, dict_set_keys.
    destruct (List.existsb (Py.str_eqb k) (dict_keys d)).
    + now exists new.
    + exists (k :: new). now rewrite <- List.app_assoc.
Qed.

Lemma dict_update_keys_known (l : list (pystr * entry)) :
  forall d,
  (forall kv, In kv l -> In (fst kv) (dict_keys d)) ->
  dict_keys (dict_update d l) = dict_keys d.
Proof.
  induction l as [| [k v] l IH]; intros d H; [reflexivity |].
  change (dict_update d ((k, v) :: l)) with (dict_update (dict_set d k v) l).
  assert (Ek : dict_keys (dict_set d k v) = dict_keys d).
  { rewrite dict_set_keys.
    assert (Hk : In k (dict_keys d)) by (apply (H (k, v)); now left).
    apply existsb_str_eqb in Hk. now rewrite Hk. }
  rewrite IH; [exact Ek |].
  intros kv Hkv. rewrite Ek. apply H. now right.
Qed.

Lemma dict_update_has_keys (l : list (pystr * entry)) :
  forall d kv, In kv l -> In (fst kv) (dict_keys (dict_update d l)).
Proof.
  induction l as [| [k v] l IH]; intros d kv; [intros [] |].
  change (dict_update d ((k, v) :: l)) with (dict_update (dict_set d k v) l).
  intros [<- | H]; [| now apply IH].
  destruct (dict_update_keys l (dict_set d k v)) as (new & E).
  rewrite E. apply List.in_or_app. left. rewrite dict_set_keys. simpl.
  destruct (List.existsb (Py.str_eqb k) (dict_keys d)) eqn:Ek.
  - now apply existsb_str_eqb.
  - apply List.in_or_app. right. now left.
Qed.

Lemma dict_update_item_congr (k : pystr) (l : list (pystr * entry)) :
  forall d1 d2 : dict,
  dict_item d1 k = dict_item d2 k ->
  dict_item (dict_update d1 l) k = dict_item (dict_update d2 l) k.
Proof.
  induction l as [| [k' v] l IH]; intros d1 d2 E; [exact E |].
  change (dict_update d1 ((k', v) :: l))
    with (dict_update (dict_set d1 k' v) l).
  change (dict_update d2 ((k', v) :: l))
    with (dict_update (dict_set d2 k' v) l).
  apply IH.
  destruct (list_eq_dec N.eq_dec k' k) as [-> | Hne].
  - now rewrite !dict_item_set.
  - now rewrite !dict_item_set_other.
Qed.

(** The value of a station that the assignments name does not depend on
    the dictionary they are made to. *)
Lemma dict_update_item_named (k : pystr) (l : list (pystr * entry)) :
  In k (List.map fst l) ->
  forall d1 d2,
  dict_item (dict_update d1 l) k = dict_item (dict_update d2 l) k.
Proof.
  induction l as [| [k' v] l IH]; intros Hin d1 d2; [destruct Hin |].
  change (dict_update d1 ((k', v) :: l))
    with (dict_update (dict_set d1 k' v) l).
  change (dict_update d2 ((k', v) :: l))
    with (dict_update (dict_set d2 k' v) l).
  destruct (list_eq_dec N.eq_dec k' k) as [-> | Hne].
  - apply dict_update_item_congr. now rewrite !dict_item_set.
  - apply IH. destruct Hin as [E | Hin]; [simpl in E; congruence | exact Hin].
Qed.

(** The value of a station that the assignments do not name is the one
    it had. *)
Lemma dict_update_item_other (k : pystr) (l : list (pystr * entry)) :
  ~ In k (List.map fst l) ->
  forall d, dict_item (dict_update d l) k = dict_item d k.
Proof.
  induction l as [| [k' v] l IH]; intros Hin d; [reflexivity |].
  change (dict_update d ((k', v) :: l))
    with (dict_update (dict_set d k' v) l).
  simpl in Hin. rewrite IH by tauto.
  apply dict_item_set_other. tauto.
Qed.

Lemma dict_item_absent (d : dict) (k : pystr) :
  ~ In k (dict_keys d) -> dict_item d k = Raise KeyError.
Proof.
  induction d as [| [k' v'] d IH]; simpl; intros H; [reflexivity |].
  destruct (Py.str_eqb k k') eqn:E.
  - apply str_eqb_eq in E. subst k'. tauto.
  - apply IH. tauto.
Qed.

(** Two dictionaries with the same keys in the same order and the same
    value for every key are the same. *)
Lemma dict_ext (a : dict) :
  forall b : dict,
  NoDup (dict_keys a) ->
  dict_keys a = dict_keys b ->
  (forall k, dict_item a k = dict_item b k) ->
  a = b.
Proof.
  induction a as [| [k v] a IH]; intros [| [k' w] b] Hnd Hk Hi;
    try discriminate Hk; [reflexivity |].
  simpl in Hk. injection Hk as <- Hk.
  inversion Hnd as [| ? ? Hka Hnd']; subst.
  pose proof (Hi k) as Hv. simpl in Hv. rewrite str_eqb_refl in Hv.
  injection Hv as <-. f_equal.
  apply IH; [exact Hnd' | exact Hk |].
  intros x. destruct (list_eq_dec N.eq_dec x k) as [-> | Hne].
  - rewrite !dict_item_absent; [reflexivity | now rewrite <- Hk | exact Hka].
  - specialize (Hi x). simpl in Hi.
    apply str_eqb_neq in Hne. now rewrite Hne in Hi.
Qed.

Lemma dict_update_NoDup (l : list (pystr * entry)) :
  forall d, NoDup (dict_keys d) -> NoDup (dict_keys (dict_update d l)).
Proof.
  induction l as [| [k v] l IH]; intros d Hd; [exact Hd |].
  change (dict_update d ((k, v) :: l)) with (dict_update (dict_set d k v) l).
  apply IH. now apply dict_set_NoDup.
Qed.

(** Assignments made a second time change nothing. *)
Lemma dict_update_twice (l : list (pystr * entry)) (d : dict) :
  NoDup (dict_keys d) ->
  dict_update (dict_update d l) l = dict_update d l.
Proof.
  intros Hd. apply dict_ext.
  - now do 2 apply dict_update_NoDup.
  - apply dict_update_keys_known. intros kv Hkv.
    now apply dict_update_has_keys.
  - intros k.
    destruct (List.in_dec (list_eq_dec N.eq_dec) k (List.map fst l)) as [I | I].
    + now apply dict_update_item_named.
    + now rewrite dict_update_item_other.
Qed.

Section Rows.

Context {parsers : Py.Parsers}.

Lemma ingest_rows_update (rows : list row) :
  forall d,
  List.fold_left ingest_row rows d = dict_update d (row_entries rows).
Proof.
  induction rows as [| r rows IH]; intros d; [reflexivity |].
  cbn [List.fold_left]. rewrite IH.
  unfold row_entries. cbn [List.flat_map]. rewrite dict_update_app.
  f_equal. unfold ingest_row.
  destruct (all_valid r); cbn [negb]; [| reflexivity].
  destruct (entry_of_row r); reflexivity.
Qed.

End Rows.

(** X4: a log that is not cleared is read again from its first row in
    the next turn, with the rows that were added to it; this gives the
    dictionary that reading the longer log at once gives, so that reading
    rows a second time changes nothing. *)
Theorem refresh_again {parsers : Py.Parsers} (cfg : config)
    (rows more : list row) (d : dict) :
  NoDup (dict_keys d) ->
  fst (refresh_dictionary_from_dire_wolf_csv_log_file cfg
         (Some (rows ++ more))
         (fst (refresh_dictionary_from_dire_wolf_csv_log_file cfg
                 (Some rows) d)))
  = fst (refresh_dictionary_from_dire_wolf_csv_log_file cfg
           (Some (rows ++ more)) d).
Proof.
  intros Hd. cbn [refresh_dictionary_from_dire_wolf_csv_log_file fst].
  rewrite !List.fold_left_app. f_equal.
  rewrite !ingest_rows_update. now apply dict_update_twice.
Qed.

Lemma refresh_again_witness :
  let r1 := report "2024-01-01T00:10:00Z" "N0CALL" "33.1" "-112.1" "first" in
  let r2 := report "2024-01-01T00:20:00Z" "W1AW" "41.7" "-72.7" "second" in
  let r3 := report "2024-01-01T00:30:00Z" "N0CALL" "33.2" "-112.2" "third" in
  fst (refresh_dictionary_from_dire_wolf_csv_log_file
         (parsers := Reference.parsers) default_config
         (Some ([r1; r2] ++ [r3]))
         (fst (refresh_dictionary_from_dire_wolf_csv_log_file
                 (parsers := Reference.parsers) default_config
                 (Some [r1; r2]) [])))
  = fst (refresh_dictionary_from_dire_wolf_csv_log_file
           (parsers := Reference.parsers) default_config
           (Some ([r1; r2] ++ [r3])) []).
Proof.
  intros r1 r2 r3.
  apply (@refresh_again Reference.parsers default_config [r1; r2] [r3] []).
  constructor.
Defined.

(** X5: reading a log never removes a station and never moves one: the
    keys of the dictionary afterwards are the keys it had, in their
    order, followed by the new stations; and a station that no valid row
    of the log names keeps its entry. *)
Theorem refresh_keeps_stations {parsers : Py.Parsers} (cfg : config)
    (rows : list row) (d : dict) :
  let d' :=
    fst (refresh_dictionary_from_dire_wolf_csv_log_file cfg (Some rows) d) in
  (exists new, dict_keys d' = dict_keys d ++ new)
  /\ Forall
       (fun kv =>
          (forall r, In r rows -> all_valid r = true ->
             row_get r (lit "source") <> Some (fst kv)) ->
          dict_item d' (fst kv) = dict_item d (fst kv))
       d.
Proof.
  intros d'. subst d'.
  cbn [refresh_dictionary_from_dire_wolf_csv_log_file fst]. split.
  - rewrite ingest_rows_update. apply dict_update_keys.
  - apply Forall_forall. intros kv _ H.
    now apply ingest_rows_other.
Qed.

(** ** The lines of the log *)

Lemma row_get_reader (names : list pystr) :
  NoDup names ->
  forall (values : list pystr) (i : nat) (k : pystr),
  nth_error names i = Some k ->
  row_get (dict_reader_row names values) k = nth_error values i.
Proof.
  induction names as [| f names IH]; intros Hnd values i k Hk.
  - destruct i; discriminate Hk.
  - inversion Hnd as [| ? ? Hf Hnd']; subst.
    destruct i as [| i].
    + injection Hk as ->.
      destruct values as [| v values]; simpl; now rewrite str_eqb_refl.
    + simpl in Hk.
      assert (Hne : Py.str_eqb k f = false).
      { apply str_eqb_neq. intros ->. apply Hf.
        eapply List.nth_error_In. exact Hk. }
      destruct values as [| v values]; simpl; rewrite Hne.
      * rewrite (IH Hnd' [] i k Hk). now destruct i.
      * now apply IH.
Qed.

Lemma row_contains_reader (names values : list pystr) (k : pystr) :
  In k names -> row_contains (dict_reader_row names values) k = true.
Proof.
  revert values. induction names as [| f names IH]; intros values H;
    [destruct H |].
  unfold row_contains in *.
  destruct H as [-> | H].
  - destruct values; simpl; now rewrite str_eqb_refl.
  - destruct values; simpl; rewrite (IH _ H); apply orb_true_r.
Qed.

Lemma field_names_NoDup : NoDup DIRE_WOLF_CSV_FIELD_NAMES.
Proof.
  assert (T : forall l : list pystr,
             (fix nodup (l : list pystr) : bool :=
                match l with
                | [] => true
                | x :: l' =>
                    negb (List.existsb (Py.str_eqb x) l') && nodup l'
                end) l = true -> NoDup l).
  { induction l as [| x l IH]; intros H; [constructor |].
    apply andb_prop in H as [Hx Hl]. constructor; [| now apply IH].
    intros Hin. apply existsb_str_eqb in Hin. rewrite Hin in Hx.
    discriminate Hx. }
  apply T. vm_compute. reflexivity.
Qed.

(** X6: what reading a line of the log does, by the values of the line
    in their order: the time is the third value, the station the fourth,
    the latitude the eleventh, the longitude the twelfth and the comment
    the twenty-second. A line of fewer than twelve values changes
    nothing, and one of fewer than twenty-two values is stored with the
    empty comment. *)
Theorem ingest_line {parsers : Py.Parsers} (d : dict) (values : list pystr) :
  ingest_row d (dict_reader_row DIRE_WOLF_CSV_FIELD_NAMES values)
  = match nth_error values 2, nth_error values 3,
          nth_error values 10, nth_error values 11 with
    | Some i, Some s, Some la, Some lo =>
        if negb (Py.str_eqb s (lit "source")) && negb (Py.isspace s)
           && latitude_string_valid la && iso_string_valid i
        then dict_set d s
               {| isotime := i; source := s; latitude := la; longitude := lo;
                  comment := match nth_error values 21 with
                             | Some c => Py.strip c
                             | None => []
                             end |}
        else d
    | _, _, _, _ => d
    end.
Proof.
  set (r := dict_reader_row DIRE_WOLF_CSV_FIELD_NAMES values).
  assert (G : forall i k, nth_error DIRE_WOLF_CSV_FIELD_NAMES i = Some k ->
                          row_get r k = nth_error values i)
    by (intros i k; apply row_get_reader, field_names_NoDup).
  unfold ingest_row. rewrite all_valid_by_fields. unfold entry_of_row.
  rewrite (G 2%nat (lit "isotime") eq_refl), (G 3%nat (lit "source") eq_refl),
    (G 10%nat (lit "latitude") eq_refl), (G 11%nat (lit "longitude") eq_refl).
  destruct (nth_error values 2) as [i |]; [| reflexivity].
  destruct (nth_error values 3) as [s |]; [| reflexivity].
  destruct (nth_error values 10) as [la |]; [| reflexivity].
  destruct (nth_error values 11) as [lo |]; [| reflexivity].
  destruct (_ && _); cbn [negb]; [| reflexivity].
  unfold row_comment.
  rewrite (G 21%nat (lit "comment") eq_refl).
  unfold r. rewrite row_contains_reader; [reflexivity |].
  eapply List.nth_error_In with (n := 21%nat). reflexivity.
Qed.

(** ** Removal, whatever the clock reads and whatever the times are *)

Section Removal.

Context {parsers : Py.Parsers}.

(** The comparison ends without an exception only on the times that
    [utc_stamped] describes. *)
Lemma older_than_Ok_stamped (threshold : option Z) (now : Z) (e : entry)
    (b : bool) :
  older_than threshold now e = Ok b -> utc_stamped threshold e = true.
Proof.
  unfold older_than, utc_stamped.
  destruct (Py.fromisoformat _) as [t |]; [| discriminate]. simpl.
  destruct threshold as [m |]; [| reflexivity].
  destruct (Py.timedelta_minutes m) as [delta |]; [| discriminate]. simpl.
  unfold Py.datetime_add.
  destruct ((0 <=? Py.wall t + delta) && (Py.wall t + delta <? Py.wall_end));
    [| discriminate].
  simpl. unfold Py.datetime_lt. simpl.
  destruct (Py.utcoffset t); [reflexivity | discriminate].
Qed.

Lemma older_than_not_stamped (threshold : option Z) (now : Z) (e : entry) :
  utc_stamped threshold e = false ->
  exists x, older_than threshold now e = Raise x.
Proof.
  intros H. destruct (older_than threshold now e) as [b | x] eqn:E.
  - apply older_than_Ok_stamped in E. congruence.
  - now exists x.
Qed.

Lemma NoDup_keys_head (pre rest : dict) (k : pystr) (e : entry) :
  NoDup (dict_keys (pre ++ (k, e) :: rest)) ->
  ~ In k (dict_keys pre) /\ NoDup (dict_keys (pre ++ rest))
  /\ NoDup (dict_keys ((pre ++ [(k, e)]) ++ rest)).
Proof.
  intros Hnd. split; [| split].
  - unfold dict_keys in Hnd. rewrite List.map_app in Hnd.
    intros Hin. apply NoDup_remove_2 in Hnd. apply Hnd.
    apply List.in_or_app. now left.
  - unfold dict_keys in *. rewrite List.map_app in *.
    eapply NoDup_remove_1. exact Hnd.
  - now rewrite <- List.app_assoc.
Qed.

(** The loop over the keys of [rest], the entries of [pre] being the ones
    that were looked at and kept. *)
Lemma remove_stale_loop_clock (cfg : config) (clock : nat -> Z)
    (rest : dict) :
  forall (i : nat) (pre : dict),
  NoDup (dict_keys (pre ++ rest)) ->
  List.forallb (utc_stamped (MINUTES_UNTIL_APRS_REMOVED cfg)) (dict_values rest)
  = true ->
  remove_stale_loop cfg clock i (dict_keys rest) (pre ++ rest)
  = (pre ++ kept_by_clock (MINUTES_UNTIL_APRS_REMOVED cfg) clock i rest,
     Ok tt).
Proof.
  induction rest as [| [k e] rest IH]; intros i pre Hnd Hst; simpl.
  - reflexivity.
  - simpl in Hst. apply andb_prop in Hst as [He Hst].
    destruct (NoDup_keys_head _ _ _ _ Hnd) as (Hk & Hnd1 & Hnd2).
    rewrite dict_item_app by exact Hk. simpl. rewrite str_eqb_refl. simpl.
    rewrite older_than_expired by exact He.
    destruct (expired _ (clock i) e); simpl.
    + rewrite dict_del_app by exact Hk. simpl. rewrite str_eqb_refl.
      now apply IH.
    + specialize (IH (S i) (pre ++ [(k, e)])).
      rewrite <- !List.app_assoc in IH. simpl in IH.
      apply IH; [| exact Hst]. now rewrite <- List.app_assoc in Hnd2.
Qed.

(** The loop ends at the first entry whose time cannot be compared with
    the clock, with the exception of the comparison. *)
Lemma remove_stale_loop_stops (cfg : config) (clock : nat -> Z)
    (a : dict) (k : pystr) (e : entry) (b : dict) (x : exn) :
  forall (i : nat) (pre : dict),
  NoDup (dict_keys (pre ++ a ++ (k, e) :: b)) ->
  List.forallb (utc_stamped (MINUTES_UNTIL_APRS_REMOVED cfg)) (dict_values a)
  = true ->
  older_than (MINUTES_UNTIL_APRS_REMOVED cfg) (clock (i + List.length a)%nat) e
  = Raise x ->
  remove_stale_loop cfg clock i (dict_keys (a ++ (k, e) :: b))
    (pre ++ a ++ (k, e) :: b)
  = (pre ++ kept_by_clock (MINUTES_UNTIL_APRS_REMOVED cfg) clock i a
     ++ (k, e) :: b,
     Raise x).
Proof.
  induction a as [| [k' e'] a IH]; intros i pre Hnd Hst Hx; simpl.
  - destruct (NoDup_keys_head _ _ _ _ Hnd) as (Hk & _).
    rewrite dict_item_app by exact Hk. simpl. rewrite str_eqb_refl. simpl.
    simpl in Hx. rewrite Nat.add_0_r in Hx. now rewrite Hx.
  - simpl in Hst. apply andb_prop in Hst as [He Hst].
    simpl in Hnd.
    destruct (NoDup_keys_head _ _ _ _ Hnd) as (Hk & Hnd1 & Hnd2).
    rewrite dict_item_app by exact Hk. simpl. rewrite str_eqb_refl. simpl.
    rewrite older_than_expired by exact He.
    simpl in Hx. rewrite <- Nat.add_succ_comm in Hx.
    destruct (expired _ (clock i) e'); simpl.
    + rewrite dict_del_app by exact Hk. simpl. rewrite str_eqb_refl.
      now apply IH.
    + specialize (IH (S i) (pre ++ [(k', e')])).
      rewrite <- !List.app_assoc in IH. simpl in IH.
      apply IH; [| exact Hst | exact Hx].
      now rewrite <- List.app_assoc in Hnd2.
Qed.

Lemma forallb_first_false (A : Type) (f : A -> bool) (l : list A) :
  List.forallb f l = false ->
  exists a x b, l = a ++ x :: b /\ List.forallb f a = true /\ f x = false.
Proof.
  induction l as [| y l IH]; simpl; [discriminate |].
  destruct (f y) eqn:E; simpl.
  - intros H. destruct (IH H) as (a & x & b & -> & Ha & Hx).
    exists (y :: a), x, b. simpl. rewrite E. auto.
  - intros _. exists [], y, l. auto.
Qed.

Lemma kept_by_clock_In (threshold : option Z) (clock : nat -> Z) (d : dict) :
  forall (i : nat) (kv : pystr * entry),
  In kv (kept_by_clock threshold clock i d) <->
  exists j, nth_error d j = Some kv
            /\ expired threshold (clock (i + j)%nat) (snd kv) = false.
Proof.
  induction d as [| kv' d IH]; intros i kv; simpl.
  - split; [intros [] | intros ([| j] & H & _); discriminate H].
  - destruct (expired threshold (clock i) (snd kv')) eqn:E; simpl.
    + rewrite IH. split.
      * intros (j & Hj & He). exists (S j). simpl.
        now rewrite <- Nat.add_succ_comm.
      * intros ([| j] & Hj & He); simpl in Hj.
        -- injection Hj as ->. rewrite Nat.add_0_r in He. congruence.
        -- exists j. now rewrite <- Nat.add_succ_comm in He.
    + rewrite IH. split.
      * intros [-> | (j & Hj & He)].
        -- exists 0%nat. now rewrite Nat.add_0_r.
        -- exists (S j). simpl. now rewrite <- Nat.add_succ_comm.
      * intros ([| j] & Hj & He); simpl in Hj.
        -- left. congruence.
        -- right. exists j. now rewrite <- Nat.add_succ_comm in He.
Qed.

Lemma forallb_map_snd (f : entry -> bool) (l : dict) :
  List.forallb f (List.map snd l) = List.forallb (fun kv => f (snd kv)) l.
Proof.
  induction l as [| kv l IH]; simpl; [reflexivity | now rewrite IH].
Qed.

(** A stale entry stays stale. *)
Lemma expired_later (threshold : option Z) (t t' : Z) (e : entry) :
  t <= t' -> expired threshold t e = true -> expired threshold t' e = true.
Proof.
  unfold expired. intros Ht.
  destruct threshold as [m |]; [| discriminate].
  destruct (instant_of e) as [i |]; [| discriminate].
  intros H. apply Z.ltb_lt in H. apply Z.ltb_lt. lia.
Qed.

(** Readings of the clock between [t0] and [t1]: what is kept is not
    stale at [t0], and what is not stale at [t1] is kept. *)
Lemma kept_by_clock_between (threshold : option Z) (clock : nat -> Z)
    (t0 t1 : Z) (d : dict) :
  (forall i, t0 <= clock i <= t1) ->
  Forall (fun kv => In kv d /\ expired threshold t0 (snd kv) = false)
    (kept_by_clock threshold clock 0 d)
  /\ Forall
       (fun kv =>
          expired threshold t1 (snd kv) = false ->
          In kv (kept_by_clock threshold clock 0 d))
       d.
Proof.
  intros Hclock. split; apply Forall_forall; intros kv Hkv.
  - apply kept_by_clock_In in Hkv as (j & Hj & He). split.
    + eapply List.nth_error_In. exact Hj.
    + destruct (expired threshold t0 (snd kv)) eqn:E; [| reflexivity].
      apply (@expired_later _ t0 (clock (0 + j)%nat)) in E;
        [congruence | apply Hclock].
  - intros He. apply kept_by_clock_In.
    apply List.In_nth_error in Hkv as (j & Hj). exists j.
    split; [exact Hj |].
    destruct (expired threshold (clock (0 + j)%nat) (snd kv)) eqn:E;
      [| reflexivity].
    apply (@expired_later _ (clock (0 + j)%nat) t1) in E;
      [congruence | apply Hclock].
Qed.

End Removal.

(** X7: what the removal does to a dictionary, whatever its times are
    and whatever the clock reads from one entry to the next. When every
    time can be compared with the clock, each entry is judged at the
    reading of the clock of its own turn, the stale ones are removed and
    the loop ends without an exception. Otherwise the loop ends at the
    first entry whose time cannot be compared, with the exception of
    that comparison: the entries before it have been judged, the entry
    and the ones behind it are left in the dictionary. *)
Theorem remove_stale_result {parsers : Py.Parsers} (cfg : config)
    (clock : nat -> Z) (d : dict) :
  NoDup (dict_keys d) ->
  let threshold := MINUTES_UNTIL_APRS_REMOVED cfg in
  (List.forallb (utc_stamped threshold) (dict_values d) = true
   /\ remove_stale_entries_from_dictionary cfg clock d
      = (kept_by_clock threshold clock 0 d, Ok tt))
  \/ (exists a k e b x,
        d = a ++ (k, e) :: b
        /\ List.forallb (utc_stamped threshold) (dict_values a) = true
        /\ utc_stamped threshold e = false
        /\ older_than threshold (clock (List.length a)) e = Raise x
        /\ remove_stale_entries_from_dictionary cfg clock d
           = (kept_by_clock threshold clock 0 a ++ (k, e) :: b, Raise x)).
Proof.
  intros Hnd threshold.
  destruct (List.forallb (utc_stamped threshold) (dict_values d)) eqn:Hst.
  - left. split; [reflexivity |].
    exact (@remove_stale_loop_clock _ cfg clock d 0%nat [] Hnd Hst).
  - right. unfold dict_values in Hst. rewrite forallb_map_snd in Hst.
    destruct (forallb_first_false _ _ Hst) as (a & [k e] & b & -> & Ha & He).
    cbn [snd] in He.
    destruct (older_than_not_stamped threshold (clock (List.length a)) e He)
      as (x & Hx).
    exists a, k, e, b, x.
    split; [reflexivity |].
    split; [unfold dict_values; now rewrite forallb_map_snd |].
    split; [exact He |]. split; [exact Hx |].
    apply (@remove_stale_loop_stops _ cfg clock a k e b x 0%nat []);
      [exact Hnd | unfold dict_values; now rewrite forallb_map_snd |
       exact Hx].
Qed.

Lemma remove_stale_result_witness :
  let naive :=
    {| isotime := lit "2024-01-01T10:59:00"; source := lit "N0CALL";
       latitude := lit "33.1"; longitude := lit "-112.1"; comment := [] |} in
  let d := [(lit "OLD", heard_61); (lit "N0CALL", naive);
            (lit "NEW", heard_59)] in
  let threshold := MINUTES_UNTIL_APRS_REMOVED default_config in
  (List.forallb (utc_stamped (parsers := Reference.parsers) threshold)
     (dict_values d) = true
   /\ remove_stale_entries_from_dictionary (parsers := Reference.parsers)
        default_config (fun _ => noon) d
      = (kept_by_clock (parsers := Reference.parsers) threshold
           (fun _ => noon) 0 d, Ok tt))
  \/ (exists a k e b x,
        d = a ++ (k, e) :: b
        /\ List.forallb (utc_stamped (parsers := Reference.parsers) threshold)
             (dict_values a) = true
        /\ utc_stamped (parsers := Reference.parsers) threshold e = false
        /\ older_than (parsers := Reference.parsers) threshold
             ((fun _ => noon) (List.length a)) e = Raise x
        /\ remove_stale_entries_from_dictionary (parsers := Reference.parsers)
             default_config (fun _ => noon) d
           = (kept_by_clock (parsers := Reference.parsers) threshold
                (fun _ => noon) 0 a ++ (k, e) :: b, Raise x)).
Proof.
  intros naive d.
  apply (@remove_stale_result Reference.parsers default_config
           (fun _ => noon) d).
  repeat constructor; simpl; intuition discriminate.
Defined.

(** The dictionary of the witness: the stale entry before the time
    without an offset is removed, and the loop ends there with a
    [TypeError]. *)
Example remove_stale_stops_at_naive_time :
  let naive :=
    {| isotime := lit "2024-01-01T10:59:00"; source := lit "N0CALL";
       latitude := lit "33.1"; longitude := lit "-112.1"; comment := [] |} in
  remove_stale_entries_from_dictionary (parsers := Reference.parsers)
    default_config (fun _ => noon)
    [(lit "OLD", heard_61); (lit "N0CALL", naive); (lit "NEW", heard_59)]
  = ([(lit "N0CALL", naive); (lit "NEW", heard_59)], Raise TypeError).
Proof. vm_compute. reflexivity. Qed.



(** X9: however the removal ends, and whatever the times and the clock
    are, what it leaves is made of entries that were in the dictionary:
    it adds no entry and changes none. *)
Theorem remove_stale_only_removes {parsers : Py.Parsers} (cfg : config)
    (clock : nat -> Z) (d : dict) :
  let d' := fst (remove_stale_entries_from_dictionary cfg clock d) in
  Forall (fun kv => In kv d) d' /\ (List.length d' <= List.length d)%nat.
Proof.
  intros d'. subst d'. split.
  - apply Forall_forall. intros kv.
    apply remove_stale_loop_In.
  - unfold remove_stale_entries_from_dictionary.
    generalize (dict_keys d) 0%nat. intros keys. revert d.
    induction keys as [| k keys IH]; intros d i; simpl; [lia |].
    destruct (dict_item d k) as [e |]; simpl; [| lia].
    destruct (older_than _ _ e) as [[|] |]; simpl; [| apply IH | lia].
    eapply Nat.le_trans; [apply IH |].
    clear. induction d as [| [k' v'] d IHd]; simpl; [lia |].
    destruct (Py.str_eqb k k'); simpl; lia.
Qed.

(** ** Writing the POI file, whatever the clock reads and whatever the
    times are *)

Section WritingByClock.

Context {parsers : Py.Parsers}.

Variable cfg : config.
Variable clock : nat -> Z.
Variable write_fails : nat -> bool.

Lemma write_entries_by_clock (entries : list entry) :
  forall (i : nat) (file : pystr),
  List.forallb (utc_stamped (MINUTES_UNTIL_APRS_INACTIVE cfg)) entries = true ->
  (forall j, (j < List.length entries)%nat -> write_fails (i + j)%nat = false) ->
  write_entries cfg clock write_fails i entries file
  = (file ++ lines_by_clock cfg clock i entries, Ok tt).
Proof.
  induction entries as [| e entries IH]; intros i file Hst Hw; simpl.
  - now rewrite List.app_nil_r.
  - simpl in Hst. apply andb_prop in Hst as [He Hst].
    rewrite poi_line_text by exact He.
    pose proof (Hw 0%nat ltac:(simpl; lia)) as H0.
    rewrite Nat.add_0_r in H0. rewrite H0.
    rewrite IH; [now rewrite <- List.app_assoc | exact Hst |].
    intros j Hj. rewrite Nat.add_succ_l, <- Nat.add_succ_r.
    apply Hw. simpl. lia.
Qed.

(** The loop ends at the first entry whose time cannot be compared with
    the clock, or whose line cannot be written. *)
Lemma write_entries_stops (pre : list entry) (e : entry) (post : list entry)
    (x : exn) :
  forall (i : nat) (file : pystr),
  List.forallb (utc_stamped (MINUTES_UNTIL_APRS_INACTIVE cfg)) pre = true ->
  (forall j, (j < List.length pre)%nat -> write_fails (i + j)%nat = false) ->
  older_than (MINUTES_UNTIL_APRS_INACTIVE cfg)
    (clock (i + List.length pre)%nat) e = Raise x
  \/ (utc_stamped (MINUTES_UNTIL_APRS_INACTIVE cfg) e = true
      /\ write_fails (i + List.length pre)%nat = true /\ x = OSError) ->
  write_entries cfg clock write_fails i (pre ++ e :: post) file
  = (file ++ lines_by_clock cfg clock i pre, Raise x).
Proof.
  induction pre as [| e' pre IH]; intros i file Hst Hw Hx; simpl.
  - rewrite List.app_nil_r. simpl in Hx. rewrite Nat.add_0_r in Hx.
    unfold poi_line.
    destruct Hx as [Hx | (He & Hf & ->)].
    + now rewrite Hx.
    + rewrite older_than_expired by exact He. simpl. now rewrite Hf.
  - simpl in Hst. apply andb_prop in Hst as [He Hst].
    rewrite poi_line_text by exact He.
    pose proof (Hw 0%nat ltac:(simpl; lia)) as H0.
    rewrite Nat.add_0_r in H0. rewrite H0.
    rewrite IH; [now rewrite <- List.app_assoc | exact Hst | |].
    + intros j Hj. rewrite Nat.add_succ_l, <- Nat.add_succ_r.
      apply Hw. simpl. lia.
    + simpl in Hx. now rewrite <- Nat.add_succ_comm in Hx.
Qed.

End WritingByClock.

Lemma first_failure {parsers : Py.Parsers} (threshold : option Z)
    (write_fails : nat -> bool) (entries : list entry) :
  forall i : nat,
  (List.forallb (utc_stamped threshold) entries = true
   /\ forall j, (j < List.length entries)%nat -> write_fails (i + j)%nat = false)
  \/ (exists pre e post,
        entries = pre ++ e :: post
        /\ List.forallb (utc_stamped threshold) pre = true
        /\ (forall j, (j < List.length pre)%nat ->
              write_fails (i + j)%nat = false)
        /\ (utc_stamped threshold e = false
            \/ (utc_stamped threshold e = true
                /\ write_fails (i + List.length pre)%nat = true))).
Proof.
  induction entries as [| e entries IH]; intros i.
  - left. split; [reflexivity |]. simpl. intros j Hj. lia.
  - destruct (utc_stamped threshold e) eqn:He.
    + destruct (write_fails i) eqn:Hw.
      * right. exists [], e, entries. simpl. rewrite Nat.add_0_r.
        repeat split; auto. intros j Hj. lia.
      * destruct (IH (S i)) as [[Hst Hj] | (pre & e' & post & -> & Hst & Hj & H)].
        -- left. simpl. rewrite He, Hst. split; [reflexivity |].
           intros [| j] Hlt; [now rewrite Nat.add_0_r |].
           rewrite <- Nat.add_succ_comm. apply Hj. simpl in Hlt. lia.
        -- right. exists (e :: pre), e', post. simpl. rewrite He, Hst.
           split; [reflexivity |]. split; [reflexivity |]. split.
           ++ intros [| j] Hlt; [now rewrite Nat.add_0_r |].
              rewrite <- Nat.add_succ_comm. apply Hj. simpl in Hlt. lia.
           ++ now rewrite <- Nat.add_succ_comm.
    + right. exists [], e, entries. simpl.
      repeat split; auto. intros j Hj. lia.
Qed.

(** X10: what writing the POI file does, whatever the times are,
    whatever the clock reads from one entry to the next, however the
    file object fills and empties its buffer and whatever the storage has
    room for. The file is emptied, and the lines of the entries, in
    descending order of the strings of their times, are made one by one,
    each with the icon for the reading of the clock of its own turn, up
    to the first entry whose time cannot be compared with the clock. When
    the storage has room for the bytes of these lines, the file holds
    them and nothing else, and the call ends as the loop did: without an
    exception, or with the exception of that comparison. When it has not,
    the file holds the bytes that the storage has room for, cut where
    they end, and the call ends with an [OSError]. *)
Theorem poi_file_result {parsers : Py.Parsers} (cfg : config)
    (clock : nat -> Z) (linesep : pystr) (capacity : option nat)
    (keep : nat -> nat) (d : dict) (file : list N) :
  let threshold := MINUTES_UNTIL_APRS_INACTIVE cfg in
  let entries := Py.sorted_reverse isotime (dict_values d) in
  exists (written : list entry) (r : result unit),
    ((written = entries
      /\ List.forallb (utc_stamped threshold) entries = true
      /\ r = Ok tt)
     \/ (exists e post x,
           entries = written ++ e :: post
           /\ List.forallb (utc_stamped threshold) written = true
           /\ older_than threshold (clock (List.length written)) e = Raise x
           /\ r = Raise x))
    /\ let bytes := text_bytes linesep (lines_by_clock cfg clock 0 written) in
       refresh_navit_poi_file_on_storage cfg clock linesep capacity keep d
         file
       = if within capacity (List.length bytes) then (bytes, r)
         else (cut capacity bytes, Raise OSError).
Proof.
  intros threshold entries.
  rewrite on_storage_by_text.
  unfold refresh_navit_poi_file_from_dictionary. fold entries.
  destruct (first_failure threshold (fun _ => false) entries 0)
    as [[Hst Hw] | (pre & e & post & E & Hst & Hw & H)].
  - exists entries, (Ok tt). split; [left; auto |].
    now rewrite write_entries_by_clock.
  - cbn [Nat.add] in H.
    destruct H as [He | [_ Hf]]; [| discriminate].
    destruct (older_than_not_stamped threshold (clock (List.length pre)) e He)
      as (x & Hx).
    exists pre, (Raise x). split.
    + right. exists e, post, x. auto.
    + rewrite E.
      rewrite (@write_entries_stops _ cfg clock (fun _ => false) pre e post x);
        auto.
Qed.

(** ** One turn of the thread *)

Section Turn.

Context {parsers : Py.Parsers}.

Lemma kept_by_clock_stamped (threshold inactive : option Z)
    (clock : nat -> Z) (d : dict) :
  List.forallb (utc_stamped inactive) (dict_values d) = true ->
  forall i,
  List.forallb (utc_stamped inactive)
    (Py.sorted_reverse isotime
       (dict_values (kept_by_clock threshold clock i d))) = true.
Proof.
  intros Hst i. apply List.forallb_forall. intros e He.
  apply (Permutation_in _ (sorted_reverse_perm isotime _)) in He.
  unfold dict_values in He. apply List.in_map_iff in He as (kv & <- & Hkv).
  apply kept_by_clock_In in Hkv as (j & Hj & _).
  rewrite List.forallb_forall in Hst. apply Hst.
  unfold dict_values. apply List.in_map. eapply List.nth_error_In. exact Hj.
Qed.

(** A turn in which every time can be compared with the clock and no
    write fails. *)
Lemma cycle_by_clock (cfg : config) (clock1 clock2 : nat -> Z)
    (rows : list row) (d : dict) (file : pystr) :
  NoDup (dict_keys d) ->
  List.forallb (utc_stamped (MINUTES_UNTIL_APRS_REMOVED cfg))
    (dict_values (List.fold_left ingest_row rows d)) = true ->
  List.forallb (utc_stamped (MINUTES_UNTIL_APRS_INACTIVE cfg))
    (dict_values (List.fold_left ingest_row rows d)) = true ->
  dire_wolf_to_navit_cycle cfg clock1 clock2 (fun _ => false) (Some rows) d
    file
  = (kept_by_clock (MINUTES_UNTIL_APRS_REMOVED cfg) clock1 0
       (List.fold_left ingest_row rows d),
     (if CLEAR_DIRE_WOLF_CSV_LOG_FILE_AFTER_READING cfg then Some []
      else Some rows),
     lines_by_clock cfg clock2 0
       (Py.sorted_reverse isotime
          (dict_values
             (kept_by_clock (MINUTES_UNTIL_APRS_REMOVED cfg) clock1 0
                (List.fold_left ingest_row rows d)))),
     Ok tt).
Proof.
  intros Hnd Hrem Hina.
  unfold dire_wolf_to_navit_cycle.
  cbn [refresh_dictionary_from_dire_wolf_csv_log_file].
  unfold remove_stale_entries_from_dictionary.
  pose proof (@remove_stale_loop_clock _ cfg clock1
                (List.fold_left ingest_row rows d) 0%nat []
                (@ingest_rows_NoDup _ rows d Hnd) Hrem) as Eloop.
  cbn [List.app] in Eloop. rewrite Eloop.
  unfold refresh_navit_poi_file_from_dictionary.
  rewrite write_entries_by_clock; [reflexivity | | reflexivity].
  now apply kept_by_clock_stamped.
Qed.

End Turn.

(** X11: one turn of the thread on a log of rows, when every time in the
    dictionary can be compared with the clock and no write fails. The
    rows are read, the stale entries are removed, each judged at the
    reading of the clock of its own turn, the file is written anew with
    one line for every entry that is left, and the turn ends without an
    exception. When the readings of the clock during the removal lie
    between [t0] and [t1], no station of the file is stale at [t0], and
    every station of the dictionary that is not stale at [t1] is in the
    file. *)
Theorem cycle_result {parsers : Py.Parsers} (cfg : config)
    (clock1 clock2 : nat -> Z) (t0 t1 : Z) (rows : list row) (d : dict)
    (file : pystr) :
  NoDup (dict_keys d) ->
  let d1 := List.fold_left ingest_row rows d in
  List.forallb (utc_stamped (MINUTES_UNTIL_APRS_REMOVED cfg)) (dict_values d1)
  = true ->
  List.forallb (utc_stamped (MINUTES_UNTIL_APRS_INACTIVE cfg)) (dict_values d1)
  = true ->
  (forall i, t0 <= clock1 i <= t1) ->
  let d2 := kept_by_clock (MINUTES_UNTIL_APRS_REMOVED cfg) clock1 0 d1 in
  dire_wolf_to_navit_cycle cfg clock1 clock2 (fun _ => false) (Some rows) d
    file
  = (d2,
     (if CLEAR_DIRE_WOLF_CSV_LOG_FILE_AFTER_READING cfg then Some []
      else Some rows),
     lines_by_clock cfg clock2 0 (Py.sorted_reverse isotime (dict_values d2)),
     Ok tt)
  /\ Forall
       (fun kv =>
          In kv d1
          /\ expired (MINUTES_UNTIL_APRS_REMOVED cfg) t0 (snd kv) = false)
       d2
  /\ Forall
       (fun kv =>
          expired (MINUTES_UNTIL_APRS_REMOVED cfg) t1 (snd kv) = false ->
          In kv d2)
       d1.
Proof.
  intros Hnd d1 Hrem Hina Hclock d2. split.
  - now apply cycle_by_clock.
  - now apply kept_by_clock_between.
Qed.

Lemma cycle_result_witness :
  let rows :=
    [report "2024-01-01T10:59:00Z" "OLD" "33.1" "-112.1" "gone";
     report "2024-01-01T11:54:00Z" "N0CALL" "33.2" "-112.2" "quiet";
     report "2024-01-01T11:59:00Z" "W1AW" "41.7" "-72.7" " here "] in
  let clock := fun i : nat => noon + Z.of_nat (Nat.min i 2) in
  let d1 :=
    List.fold_left (ingest_row (parsers := Reference.parsers)) rows [] in
  let d2 :=
    kept_by_clock (parsers := Reference.parsers)
      (MINUTES_UNTIL_APRS_REMOVED default_config) clock 0 d1 in
  dire_wolf_to_navit_cycle (parsers := Reference.parsers) default_config
    clock clock (fun _ => false) (Some rows) [] []
  = (d2,
     (if CLEAR_DIRE_WOLF_CSV_LOG_FILE_AFTER_READING default_config
      then Some [] else Some rows),
     lines_by_clock (parsers := Reference.parsers) default_config clock 0
       (Py.sorted_reverse isotime (dict_values d2)),
     Ok tt)
  /\ Forall
       (fun kv =>
          In kv d1
          /\ expired (parsers := Reference.parsers)
               (MINUTES_UNTIL_APRS_REMOVED default_config) noon (snd kv)
             = false)
       d2
  /\ Forall
       (fun kv =>
          expired (parsers := Reference.parsers)
            (MINUTES_UNTIL_APRS_REMOVED default_config) (noon + 2) (snd kv)
          = false ->
          In kv d2)
       d1.
Proof.
  intros rows clock.
  apply (@cycle_result Reference.parsers default_config clock clock noon
           (noon + 2) rows [] []).
  - constructor.
  - vm_compute; reflexivity.
  - vm_compute; reflexivity.
  - intros i. unfold clock. lia.
Defined.

(** The turn of the witness: the station heard 61 minutes ago is not in
    the file, the one heard six minutes ago has the inactive icon, and
    the one heard a minute ago the active one and is the first. *)
Example cycle_of_three_stations :
  let rows :=
    [report "2024-01-01T10:59:00Z" "OLD" "33.1" "-112.1" "gone";
     report "2024-01-01T11:54:00Z" "N0CALL" "33.2" "-112.2" "quiet";
     report "2024-01-01T11:59:00Z" "W1AW" "41.7" "-72.7" " here "] in
  snd (fst (dire_wolf_to_navit_cycle (parsers := Reference.parsers)
              default_config (fun _ => noon) (fun _ => noon) (fun _ => false)
              (Some rows) [] []))
  = lit "mg: -72.7 41.7 isotime=" ++ quote ++ lit "2024-01-01T11:59:00Z"
    ++ quote ++ lit " type=" ++ quote ++ lit "poi_custom0" ++ quote
    ++ lit " icon_src=" ++ quote
    ++ lit "/home/pi/dire_wolf_to_navit/icons/gprs_active.png" ++ quote
    ++ lit " label=" ++ quote ++ lit "W1AW" ++ m_dash ++ lit "here" ++ quote
    ++ [10%N]
    ++ lit "mg: -112.2 33.2 isotime=" ++ quote ++ lit "2024-01-01T11:54:00Z"
    ++ quote ++ lit " type=" ++ quote ++ lit "poi_custom0" ++ quote
    ++ lit " icon_src=" ++ quote
    ++ lit "/home/pi/dire_wolf_to_navit/icons/gprs_inactive.png" ++ quote
    ++ lit " label=" ++ quote ++ lit "N0CALL" ++ m_dash ++ lit "quiet"
    ++ quote ++ [10%N].
Proof. vm_compute. reflexivity. Qed.

Section Icons.

Context {parsers : Py.Parsers}.


End Icons.



(** ** A log as Dire Wolf writes it *)

(** The instant of a time lies in its year. *)
Lemma stamp_instant_bounds (t : stamp) :
  stamp_ok t = true ->
  0 <= stamp_instant t
  < Reference.days_before_year (year t + 1) * 86400000000.
Proof.
  intros Hok.
  destruct (stamp_ok_bounds t Hok) as (Hy & _ & _ & Hh & Hmi & Hs).
  pose proof (day_of_year_bounds t Hok) as Hd.
  pose proof (days_before_next_year (year t)) as Hn.
  pose proof (@days_before_year_mono 1 (year t) ltac:(lia)) as H1.
  change (Reference.days_before_year 1) with 0 in H1.
  rewrite stamp_instant_parts. lia.
Qed.

Lemma dire_wolf_utc_stamped (threshold : option Z) (e : entry) :
  threshold_ok threshold ->
  dire_wolf_time (isotime e) ->
  utc_stamped (parsers := Reference.parsers) threshold e = true.
Proof.
  intros Hth (t & Hok & Hy & E). unfold utc_stamped. rewrite E.
  change (@Py.fromisoformat Reference.parsers) with Reference.fromisoformat.
  rewrite dire_wolf_isotime_parses by exact Hok.
  destruct threshold as [m |]; [| reflexivity].
  cbn [Py.utcoffset Py.wall]. simpl in Hth.
  pose proof (stamp_instant_bounds t Hok) as Hb.
  pose proof (@days_before_year_mono (year t + 1) 9999 ltac:(lia)) as Hm.
  change (Reference.days_before_year 9999) with 3651694 in Hm.
  unfold Py.timedelta_minutes.
  assert (Hd : (Z.abs (m * 60 * 1000000 / (86400 * 1000000)) <=? 999999999)
               = true).
  { apply Z.leb_le.
    assert (0 <= m * 60 * 1000000 / (86400 * 1000000) <= 365).
    { split.
      - apply Z.div_pos; lia.
      - apply Z.div_le_upper_bound; lia. }
    lia. }
  rewrite Hd. unfold Py.wall_end.
  apply andb_true_intro. split; [apply Z.leb_le | apply Z.ltb_lt]; lia.
Qed.

Lemma dire_wolf_time_stamped (e : entry) :
  dire_wolf_time (isotime e) -> dire_wolf_stamped e.
Proof. intros (t & Hok & _ & E). now exists t. Qed.

Lemma ingest_rows_dire_wolf (rows : list row) :
  Forall
    (fun r =>
       all_valid (parsers := Reference.parsers) r = true ->
       exists i, row_get r (lit "isotime") = Some i /\ dire_wolf_time i)
    rows ->
  forall d,
  Forall (fun e => dire_wolf_time (isotime e)) (dict_values d) ->
  Forall (fun e => dire_wolf_time (isotime e))
    (dict_values
       (List.fold_left (ingest_row (parsers := Reference.parsers)) rows d)).
Proof.
  induction rows as [| r rows IH]; intros Hrows d Hd; [exact Hd |].
  inversion Hrows as [| ? ? Hr Hrows']; subst.
  cbn [List.fold_left]. apply IH; [exact Hrows' |].
  destruct (all_valid (parsers := Reference.parsers) r) eqn:V.
  - destruct (all_valid_fields _ V)
      as (i & s & la & lo & Hi & Hs & Hla & Hlo & _).
    rewrite (@ingest_row_valid _ d r _ _ _ _ V Hi Hs Hla Hlo).
    apply dict_set_Forall; [exact Hd |].
    cbn [isotime]. destruct (Hr eq_refl) as (i' & Hi' & Ht). congruence.
  - now rewrite ingest_row_invalid.
Qed.

(** X13: on a log as Dire Wolf writes it, with every time in the form
    [YYYY-MM-DDTHH:MM:SSZ] before the year 9999, and with thresholds of
    no more than a year, a turn of the thread in which no write fails
    ends without an exception, and the lines of the file are in
    descending order of the instants of their times, the latest report
    first. *)
Theorem dire_wolf_log_turn (cfg : config) (clock1 clock2 : nat -> Z)
    (rows : list row) (d : dict) (file : pystr) :
  NoDup (dict_keys d) ->
  threshold_ok (MINUTES_UNTIL_APRS_REMOVED cfg) ->
  threshold_ok (MINUTES_UNTIL_APRS_INACTIVE cfg) ->
  Forall (fun e => dire_wolf_time (isotime e)) (dict_values d) ->
  Forall
    (fun r =>
       all_valid (parsers := Reference.parsers) r = true ->
       exists i, row_get r (lit "isotime") = Some i /\ dire_wolf_time i)
    rows ->
  let outcome :=
    dire_wolf_to_navit_cycle (parsers := Reference.parsers) cfg clock1 clock2
      (fun _ => false) (Some rows) d file in
  let entries :=
    Py.sorted_reverse isotime (dict_values (fst (fst (fst outcome)))) in
  snd outcome = Ok tt
  /\ snd (fst outcome)
     = lines_by_clock (parsers := Reference.parsers) cfg clock2 0 entries
  /\ by_instant_descending (parsers := Reference.parsers) entries.
Proof.
  intros Hnd Hrem Hina Hd Hrows outcome entries. subst entries outcome.
  pose proof (ingest_rows_dire_wolf Hrows d Hd) as H1.
  assert (Hst : forall th, threshold_ok th ->
                List.forallb (utc_stamped (parsers := Reference.parsers) th)
                  (dict_values
                     (List.fold_left
                        (ingest_row (parsers := Reference.parsers)) rows d))
                = true).
  { intros th Hth. apply List.forallb_forall. intros e He.
    apply dire_wolf_utc_stamped; [exact Hth |].
    rewrite Forall_forall in H1. now apply H1. }
  rewrite cycle_by_clock; [| exact Hnd | now apply Hst | now apply Hst].
  cbn [fst snd]. split; [reflexivity |]. split; [reflexivity |].
  apply sorted_reverse_by_instant.
  apply Forall_forall. intros e He.
  unfold dict_values in He. apply List.in_map_iff in He as (kv & <- & Hkv).
  apply kept_by_clock_In in Hkv as (j & Hj & _).
  apply dire_wolf_time_stamped.
  rewrite Forall_forall in H1. apply H1.
  unfold dict_values. apply List.in_map. eapply List.nth_error_In. exact Hj.
Qed.

(** ** The thread *)

Section Thread.

Context {parsers : Py.Parsers}.

Lemma refresh_navit_Ok (cfg : config) (clock : nat -> Z)
    (write_fails : nat -> bool) (d : dict) (file : pystr) :
  snd (refresh_navit_poi_file_from_dictionary cfg clock write_fails d file)
  = Ok tt ->
  fst (refresh_navit_poi_file_from_dictionary cfg clock write_fails d file)
  = lines_by_clock cfg clock 0 (Py.sorted_reverse isotime (dict_values d)).
Proof.
  unfold refresh_navit_poi_file_from_dictionary.
  set (entries := Py.sorted_reverse isotime (dict_values d)).
  destruct (first_failure (MINUTES_UNTIL_APRS_INACTIVE cfg) write_fails
              entries 0)
    as [[Hst Hw] | (pre & e & post & E & Hst & Hw & H)].
  - now rewrite write_entries_by_clock.
  - cbn [Nat.add] in H. intros Hok. exfalso.
    assert (Hx : exists x,
               older_than (MINUTES_UNTIL_APRS_INACTIVE cfg)
                 (clock (List.length pre)) e = Raise x
               \/ (utc_stamped (MINUTES_UNTIL_APRS_INACTIVE cfg) e = true
                   /\ write_fails (List.length pre) = true /\ x = OSError)).
    { destruct H as [He | [He Hf]].
      - destruct (older_than_not_stamped (MINUTES_UNTIL_APRS_INACTIVE cfg)
                    (clock (List.length pre)) e He) as (x & Hx).
        exists x. now left.
      - exists OSError. right. auto. }
    destruct Hx as (x & Hx). rewrite E in Hok.
    rewrite (@write_entries_stops _ cfg clock write_fails pre e post x)
      in Hok by assumption.
    discriminate Hok.
Qed.

(** The dictionary after a turn is one that the thread can hold, and
    after a turn without an exception the file shows it. *)
Lemma cycle_reachable (cfg : config) (clock1 clock2 : nat -> Z)
    (write_fails : nat -> bool) (log : option (list row)) (d : dict)
    (file : pystr) :
  reachable d ->
  let outcome :=
    dire_wolf_to_navit_cycle cfg clock1 clock2 write_fails log d file in
  reachable (fst (fst (fst outcome)))
  /\ (snd outcome = Ok tt ->
      snd (fst outcome)
      = lines_by_clock cfg clock2 0
          (Py.sorted_reverse isotime (dict_values (fst (fst (fst outcome)))))).
Proof.
  intros Hd outcome. subst outcome. unfold dire_wolf_to_navit_cycle.
  pose proof (reachable_refresh cfg log Hd) as H1.
  destruct (refresh_dictionary_from_dire_wolf_csv_log_file cfg log d)
    as [d1 log1]. cbn [fst] in H1.
  pose proof (reachable_remove cfg clock1 H1) as H2.
  destruct (remove_stale_entries_from_dictionary cfg clock1 d1) as [d2 [[] | x]];
    cbn [fst] in H2.
  - pose proof (@refresh_navit_Ok cfg clock2 write_fails d2 file) as H3.
    destruct (refresh_navit_poi_file_from_dictionary cfg clock2 write_fails
                d2 file) as [file2 r].
    cbn [fst snd] in *. auto.
  - cbn [fst snd]. split; [exact H2 | discriminate].
Qed.

Lemma thread_reachable (cfg : config) (turns : list turn) :
  forall (log : option (list row)) (d : dict) (file : pystr),
  reachable d ->
  reachable (fst (fst (fst (dire_wolf_to_navit cfg turns log d file)))).
Proof.
  induction turns as [| t turns IH]; intros log d file Hd; [exact Hd |].
  cbn [dire_wolf_to_navit].
  destruct (@cycle_reachable cfg (turn_clock1 t) (turn_clock2 t)
              (turn_write_fails t) (turn_log t log) d file Hd) as [H1 _].
  destruct (dire_wolf_to_navit_cycle cfg (turn_clock1 t) (turn_clock2 t)
              (turn_write_fails t) (turn_log t log) d file)
    as [[[d' log'] file'] [[] | x]]; cbn [fst] in H1.
  - now apply IH.
  - exact H1.
Qed.

Lemma thread_file (cfg : config) (turns : list turn) (last : turn) :
  forall (log : option (list row)) (d : dict) (file : pystr),
  reachable d ->
  let outcome := dire_wolf_to_navit cfg (turns ++ [last]) log d file in
  snd outcome = Ok tt ->
  snd (fst outcome)
  = lines_by_clock cfg (turn_clock2 last) 0
      (Py.sorted_reverse isotime (dict_values (fst (fst (fst outcome))))).
Proof.
  induction turns as [| t turns IH]; intros log d file Hd.
  - cbn [List.app dire_wolf_to_navit].
    destruct (@cycle_reachable cfg (turn_clock1 last) (turn_clock2 last)
                (turn_write_fails last) (turn_log last log) d file Hd)
      as [_ H2].
    destruct (dire_wolf_to_navit_cycle cfg (turn_clock1 last)
                (turn_clock2 last) (turn_write_fails last)
                (turn_log last log) d file)
      as [[[d' log'] file'] [[] | x]]; cbn [fst snd] in *.
    + intros _. now apply H2.
    + discriminate.
  - cbn [List.app dire_wolf_to_navit].
    destruct (@cycle_reachable cfg (turn_clock1 t) (turn_clock2 t)
                (turn_write_fails t) (turn_log t log) d file Hd) as [H1 _].
    destruct (dire_wolf_to_navit_cycle cfg (turn_clock1 t) (turn_clock2 t)
                (turn_write_fails t) (turn_log t log) d file)
      as [[[d' log'] file'] [[] | x]]; cbn [fst snd] in *.
    + now apply IH.
    + discriminate.
Qed.

End Thread.

(** X19: the thread starts with the empty dictionary. Whatever the log
    holds from turn to turn, whatever the clock reads and whichever
    writes fail, the dictionary that the thread holds after its turns,
    ended by an exception or not, has no station twice and only entries
    that passed the tests of the reading; and when the last turn ended
    without an exception, the POI file holds exactly the lines of the
    entries of the dictionary, one for each, in descending order of the
    strings of their times. *)
Theorem thread_invariant {parsers : Py.Parsers} (cfg : config)
    (turns : list turn) (last : turn) (log : option (list row))
    (file : pystr) :
  let outcome := dire_wolf_to_navit cfg (turns ++ [last]) log [] file in
  let d := fst (fst (fst outcome)) in
  NoDup (dict_keys d)
  /\ Forall stored_ok d
  /\ (snd outcome = Ok tt ->
      snd (fst outcome)
      = lines_by_clock cfg (turn_clock2 last) 0
          (Py.sorted_reverse isotime (dict_values d))).
Proof.
  intros outcome d.
  assert (Hr : reachable d)
    by (apply thread_reachable; apply reachable_start).
  split; [now apply reachable_NoDup |].
  split; [now apply reachable_Forall_stored_ok |].
  apply thread_file. apply reachable_start.
Qed.

Lemma dire_wolf_log_turn_witness :
  let rows :=
    [report "2024-01-01T11:54:00Z" "N0CALL" "33.2" "-112.2" "quiet";
     report "2024-01-01T11:59:00Z" "W1AW" "41.7" "-72.7" "here"] in
  let outcome :=
    dire_wolf_to_navit_cycle (parsers := Reference.parsers) default_config
      (fun _ => noon) (fun _ => noon) (fun _ => false) (Some rows) [] [] in
  let entries :=
    Py.sorted_reverse isotime (dict_values (fst (fst (fst outcome)))) in
  snd outcome = Ok tt
  /\ snd (fst outcome)
     = lines_by_clock (parsers := Reference.parsers) default_config
         (fun _ => noon) 0 entries
  /\ by_instant_descending (parsers := Reference.parsers) entries.
Proof.
  intros rows.
  apply (@dire_wolf_log_turn default_config (fun _ => noon) (fun _ => noon)
           rows [] []).
  - constructor.
  - simpl. lia.
  - simpl. lia.
  - constructor.
  - repeat constructor; intros _.
    + exists (lit "2024-01-01T11:54:00Z"). split; [reflexivity |].
      exists {| year := 2024; month := 1; day := 1;
                hour := 11; minute := 54; second := 0 |}.
      split; [reflexivity |]. split; [simpl; lia | reflexivity].
    + exists (lit "2024-01-01T11:59:00Z"). split; [reflexivity |].
      exists {| year := 2024; month := 1; day := 1;
                hour := 11; minute := 59; second := 0 |}.
      split; [reflexivity |]. split; [simpl; lia | reflexivity].
Defined.

(** ** The label of a station *)



(** The row of the witness and a row with a blank comment. *)
Example labels_with_and_without_comment :
  let r1 := report "2024-01-01T11:59:00Z" "W1AW" "41.7" "-72.7" "  here " in
  let r2 := report "2024-01-01T11:59:00Z" "N0CALL" "33.1" "-112.1" "   " in
  List.map (poi_label default_config)
    (dict_values
       (List.fold_left (ingest_row (parsers := Reference.parsers)) [r1; r2]
          []))
  = [lit "W1AW" ++ m_dash ++ lit "here"; lit "N0CALL"].
Proof. vm_compute. reflexivity. Qed.

(** ** The validator of times on the form that Dire Wolf writes *)

Lemma time_and_zone_digits (h m s : Z) :
  0 <= h < 100 -> 0 <= m < 100 -> 0 <= s < 100 ->
  Reference.time_and_zone
    (two_digits h ++ 58%N :: two_digits m ++ 58%N :: two_digits s
     ++ lit "+00:00")
  = if Reference.time_ok h m s
    then Some (Reference.microseconds h m s 0, Some 0)
    else None.
Proof.
  intros Hh Hm Hs. unfold Reference.time_and_zone.
  rewrite split_two_digits by lia. rewrite split_colon.
  rewrite split_two_digits by lia. rewrite split_colon.
  rewrite split_two_digits by lia.
  change (Reference.split_at_sign (lit "+00:00"))
    with (@nil N, Some (false, lit "00:00")).
  cbn [fst snd]. rewrite List.app_nil_r.
  unfold Reference.hh_mm_ss_ff at 1.
  rewrite take_two_digits by lia.
  rewrite take_two_digits by lia.
  rewrite <- (List.app_nil_r (two_digits s)).
  rewrite take_two_digits by lia.
  replace (100 * 0 + h) with h by lia.
  replace (100 * 0 + m) with m by lia.
  replace (100 * 0 + s) with s by lia.
  destruct (Reference.time_ok h m s); reflexivity.
Qed.

Lemma fromisoformat_digits (t : stamp) :
  0 <= year t < 10000 -> 0 <= month t < 100 -> 0 <= day t < 100 ->
  0 <= hour t < 100 -> 0 <= minute t < 100 -> 0 <= second t < 100 ->
  Reference.fromisoformat
    (Py.replace_char 90 (lit "+00:00") (dire_wolf_isotime t))
  = if Reference.date_ok (year t) (month t) (day t)
       && Reference.time_ok (hour t) (minute t) (second t)
    then Ok {| Py.wall := stamp_instant t; Py.utcoffset := Some 0 |}
    else Raise ValueError.
Proof.
  intros Hy Hm Hd Hh Hmi Hs.
  unfold dire_wolf_isotime, four_digits.
  change (lit "-") with [45%N]. change (lit "T") with [84%N].
  change (lit ":") with [58%N]. change (lit "Z") with [90%N].
  cbn [app].
  rewrite <- List.app_assoc.
  rewrite replace_two_digits by (Z.div_mod_to_equations; lia).
  rewrite replace_two_digits by (Z.div_mod_to_equations; lia).
  change (Py.replace_char 90 (lit "+00:00") (45%N :: ?r))
    with (45%N :: Py.replace_char 90 (lit "+00:00") r).
  rewrite replace_two_digits by lia.
  change (Py.replace_char 90 (lit "+00:00") (45%N :: ?r))
    with (45%N :: Py.replace_char 90 (lit "+00:00") r).
  rewrite replace_two_digits by lia.
  change (Py.replace_char 90 (lit "+00:00") (84%N :: ?r))
    with (84%N :: Py.replace_char 90 (lit "+00:00") r).
  rewrite replace_two_digits by lia.
  change (Py.replace_char 90 (lit "+00:00") (58%N :: ?r))
    with (58%N :: Py.replace_char 90 (lit "+00:00") r).
  rewrite replace_two_digits by lia.
  change (Py.replace_char 90 (lit "+00:00") (58%N :: ?r))
    with (58%N :: Py.replace_char 90 (lit "+00:00") r).
  rewrite replace_two_digits by lia.
  change (Py.replace_char 90 (lit "+00:00") [90%N]) with (lit "+00:00").
  rewrite List.app_assoc. fold (four_digits (year t)).
  unfold Reference.fromisoformat.
  rewrite take_four_digits by lia.
  rewrite take_two_digits by lia.
  rewrite take_two_digits by lia.
  replace (100 * 0 + month t) with (month t) by lia.
  replace (100 * 0 + day t) with (day t) by lia.
  destruct (Reference.date_ok (year t) (month t) (day t)); [| reflexivity].
  cbn [app andb].
  rewrite time_and_zone_digits by lia.
  destruct (Reference.time_ok (hour t) (minute t) (second t)); reflexivity.
Qed.

(** X21: on a time in the form that Dire Wolf writes,
    [YYYY-MM-DDTHH:MM:SSZ] with any digits, the validator of times
    returns [True] exactly when the numbers are a date of the calendar,
    leap years counted, from the year 1 on, and a time of the day; in
    particular it accepts every time that Dire Wolf writes. *)
Theorem iso_string_valid_dire_wolf (t : stamp) :
  0 <= year t < 10000 -> 0 <= month t < 100 -> 0 <= day t < 100 ->
  0 <= hour t < 100 -> 0 <= minute t < 100 -> 0 <= second t < 100 ->
  iso_string_valid (parsers := Reference.parsers) (dire_wolf_isotime t)
  = stamp_ok t.
Proof.
  intros Hy Hm Hd Hh Hmi Hs. unfold iso_string_valid.
  change (@Py.fromisoformat Reference.parsers) with Reference.fromisoformat.
  rewrite fromisoformat_digits by assumption.
  unfold stamp_ok.
  replace (0 <=? hour t) with true by (symmetry; apply Z.leb_le; lia).
  replace (0 <=? minute t) with true by (symmetry; apply Z.leb_le; lia).
  replace (0 <=? second t) with true by (symmetry; apply Z.leb_le; lia).
  rewrite !andb_true_r.
  now destruct (_ && _).
Qed.

Lemma iso_string_valid_dire_wolf_witness :
  let t := {| year := 2023; month := 2; day := 29;
              hour := 12; minute := 0; second := 0 |} in
  iso_string_valid (parsers := Reference.parsers) (dire_wolf_isotime t)
  = stamp_ok t.
Proof.
  intros t. apply (@iso_string_valid_dire_wolf t); simpl; lia.
Defined.

(** The 29th of February is a date in 2024 and not in 2023, and there is
    no hour 24. *)
Example iso_string_valid_leap_day :
  List.map (iso_string_valid (parsers := Reference.parsers))
    [lit "2024-02-29T12:00:00Z"; lit "2023-02-29T12:00:00Z";
     lit "2024-01-01T24:00:00Z"; lit "2024-01-01T23:59:59Z"]
  = [true; false; false; true].
Proof. vm_compute. reflexivity. Qed.

(** ** Whole numbers as floats *)

Open Scope Q_scope.

Lemma Qred_inject_Z (n : Z) : Qred (inject_Z n) = inject_Z n.
Proof.
  unfold Qred, inject_Z.
  pose proof (Z.ggcd_gcd n 1) as Hg.
  pose proof (Z.ggcd_correct_divisors n 1) as Hd.
  destruct (Z.ggcd n 1) as (g, (aa, bb)). cbn [fst snd] in *.
  rewrite Z.gcd_1_r in Hg. subst g. destruct Hd as [Ha Hb].
  assert (Ea : aa = n) by lia. assert (Eb : bb = 1%Z) by lia.
  rewrite Ea, Eb. reflexivity.
Qed.

Lemma round_half_even_whole (q : Q) (z : Z) :
  q == inject_Z z -> Py.round_half_even q = z.
Proof.
  intros E. unfold Py.round_half_even.
  rewrite (Qfloor_comp _ _ E), Qfloor_Z.
  destruct (Qcompare_spec (q - inject_Z z) (1 # 2)) as [H | H | H];
    [exfalso; lra | reflexivity | exfalso; lra].
Qed.

(** A whole number below [2^53] is a float. *)
Lemma b64_round_whole (n : Z) :
  (Z.abs n < 2 ^ 53)%Z -> Py.b64_round (inject_Z n) = Py.Ffinite (inject_Z n).
Proof.
  intros Hn.
  assert (Ha : Qabs (inject_Z n) < inject_Z (2 ^ 53)).
  { change (Qabs (inject_Z n)) with (inject_Z (Z.abs n)).
    now rewrite <- Zlt_Qlt. }
  pose proof (@ulp_exp_below (inject_Z n) 53 ltac:(lia) Ha) as He.
  assert (En : Py.b64_nearest (inject_Z n) == inject_Z n).
  { unfold Py.b64_nearest.
    set (e := Py.ulp_exp (inject_Z n)) in *.
    assert (Ep : Qpower 2 e == / inject_Z (2 ^ (- e))).
    { rewrite Zpower_Qpower by lia.
      rewrite <- Qpower_opp. now rewrite Z.opp_involutive. }
    assert (Hpos : 0 < inject_Z (2 ^ (- e))).
    { change 0 with (inject_Z 0). rewrite <- Zlt_Qlt.
      apply Z.pow_pos_nonneg; lia. }
    rewrite (@round_half_even_whole _ (n * 2 ^ (- e))%Z).
    - rewrite Ep, inject_Z_mult. field. lra.
    - rewrite Ep, inject_Z_mult. field. lra. }
  unfold Py.b64_round.
  destruct (Qle_bool (Qpower 2 1024) (Qabs (Py.b64_nearest (inject_Z n))))
    eqn:T.
  - exfalso. apply Qle_bool_iff in T. rewrite (Qabs_wd _ _ En) in T.
    assert (H53 : inject_Z (2 ^ 53) <= Qpower 2 1024).
    { rewrite Zpower_Qpower by lia. apply pow2_le. lia. }
    lra.
  - f_equal. rewrite (Qred_complete _ _ En). apply Qred_inject_Z.
Qed.

Close Scope Q_scope.

Lemma float_of_int_exact (n : Z) :
  Z.abs n < 2 ^ 53 -> Py.float_of_int n = Ok (Py.Ffinite (inject_Z n)).
Proof.
  intros Hn. unfold Py.float_of_int. now rewrite b64_round_whole.
Qed.

(** ** Coordinates of any size *)

Section ConverterAny.

Variable convert : Py.pyfloat -> result pystr.
Variables south north : N.

Hypothesis convert_body : forall x : Py.pyfloat,
  convert x
  = (let unsigned_decimal_degree := Py.float_abs x in
     whole <- Py.math_floor unsigned_decimal_degree ;;
     degrees <- Py.float_of_int whole ;;
     let minutes := Py.float_sub unsigned_decimal_degree degrees in
     let cardinal := if Py.float_lt_int x 0 then [south] else [north] in
     d <- Py.int_of_float degrees ;;
     Ok (Py.str_of_int d
         ++ Py.format_09_6f (Py.float_mul minutes (Py.Ffinite 60))
         ++ lit "," ++ cardinal)).

Open Scope Q_scope.

(** The text of a coordinate below [2^53]: the whole degrees, and the
    minutes rounded to millionths. *)
Lemma convert_text_any (q : Q) :
  Qabs q < inject_Z (2 ^ 53) ->
  exists micro : N,
    convert (Py.Ffinite q)
    = Ok (nmea_text (Qfloor (Qabs q)) micro
            [if Qlt_le_dec q 0 then south else north])
    /\ (micro <= 60000000)%N
    /\ Qabs (inject_Z (Z.of_N micro) / 1000000
             - 60 * (Qabs q - inject_Z (Qfloor (Qabs q))))
       <= (1 # 2000000) + (1 # 140737488355328).
Proof.
  intros Hq. rewrite convert_body. cbv zeta.
  unfold Py.float_abs, Py.math_floor. cbn [bind].
  set (u := Qabs q) in *.
  assert (Hu0 : 0 <= u) by apply Qabs_nonneg.
  set (whole := Qfloor u).
  pose proof (Qfloor_le u) as Hlo. pose proof (Qlt_floor u) as Hhi.
  fold whole in Hlo, Hhi.
  rewrite inject_Z_plus in Hhi. change (inject_Z 1) with 1 in Hhi.
  assert (Hw : (0 <= whole < 2 ^ 53)%Z).
  { split.
    - change 0%Z with (Qfloor 0). now apply Qfloor_resp_le.
    - rewrite Zlt_Qlt. lra. }
  rewrite float_of_int_exact by lia. cbn [bind].
  unfold Py.float_sub, Py.int_of_float. cbn [bind inject_Z Qnum Qden].
  rewrite Z.quot_1_r.
  destruct (@minutes_close (u - inject_Z whole)) as (m & p & Em & Ep & Hp0 & Hp);
    [lra |].
  change (whole # 1) with (inject_Z whole).
  rewrite Em. unfold Py.float_mul. rewrite Ep.
  unfold Py.format_09_6f, Py.is_negative.
  destruct (Qlt_le_dec p 0) as [Hneg | _]; [lra |].
  pose proof (round_half_even_close (Qabs p * inject_Z 1000000)) as Hr.
  pose proof (round_half_even_nonneg (q := Qabs p * inject_Z 1000000)) as Hr0.
  rewrite (Qabs_nonneg_eq Hp0) in Hr, Hr0 |- *.
  change (inject_Z 1000000) with 1000000 in *.
  specialize (Hr0 ltac:(lra)).
  set (M := Py.round_half_even (p * 1000000)) in *.
  apply Qabs_diff_Qle_condition in Hp. apply Qabs_Qle_condition in Hr.
  assert (HM : (M <= 60000000)%Z).
  { apply Z.lt_succ_r. rewrite Zlt_Qlt.
    change (inject_Z (Z.succ 60000000)) with 60000001. lra. }
  exists (Z.to_N M). rewrite Z2N.id by lia.
  repeat split.
  - assert (E9 : Py.zfill 9
                   (Py.digits 10 (Z.to_N M / 1000000) ++ [46%N]
                    ++ Py.zfill 6 (Py.digits 10 (Z.to_N M mod 1000000)))
                 = minutes_field (Z.to_N M)).
    { unfold minutes_field. change 9%nat with (2 + 7)%nat. apply zfill_app.
      cbn [List.app List.length]. f_equal.
      apply zfill_digits_length; [lia |]. apply N.mod_lt. lia. }
    assert (EC : (if Py.float_lt_int (Py.Ffinite q) 0 then [south]
                  else [north])
                 = [if Qlt_le_dec q 0 then south else north]).
    { unfold Py.float_lt_int. change (inject_Z 0) with 0.
      now destruct (Qlt_le_dec q 0). }
    rewrite E9, EC. reflexivity.
  - lia.
  - apply Qabs_Qle_condition.
    assert (Et : inject_Z M == inject_Z M / 1000000 * 1000000) by field.
    set (t := inject_Z M / 1000000) in *. rewrite Et in Hr. lra.
Qed.

(** The text decodes to the coordinate, up to the rounding of the
    minutes. *)
Lemma convert_decodes_any (q : Q) :
  Qabs q < inject_Z (2 ^ 53) ->
  is_south_or_west south = Some true ->
  is_south_or_west north = Some false ->
  exists (micro : N) (v : Q),
    let text :=
      nmea_text (Qfloor (Qabs q)) micro
        [if Qlt_le_dec q 0 then south else north] in
    convert (Py.Ffinite q) = Ok text
    /\ (micro <= 60000000)%N
    /\ nmea_decode text = Some v
    /\ Qabs (v - q) * 60 <= (1 # 2000000) + (1 # 140737488355328).
Proof.
  intros Hq Hs Hn.
  destruct (convert_text_any q Hq) as (micro & Hc & Hm & He).
  assert (Hw : (0 <= Qfloor (Qabs q))%Z).
  { change 0%Z with (Qfloor 0). apply Qfloor_resp_le. apply Qabs_nonneg. }
  assert (Hm' : (micro < 100000000)%N) by lia.
  set (w := Qfloor (Qabs q)) in *.
  set (c := if Qlt_le_dec q 0 then south else north) in *.
  assert (Hcard : is_south_or_west c
                  = Some (if Qlt_le_dec q 0 then true else false))
    by (unfold c; now destruct (Qlt_le_dec q 0)).
  pose proof (@nmea_decode_text (Z.to_N w) micro c _ Hm' Hcard) as Hd.
  rewrite Z2N.id in Hd by exact Hw.
  exists micro. eexists. cbv zeta.
  split; [exact Hc |]. split; [exact Hm |]. split; [exact Hd |].
  apply Qabs_Qle_condition in He.
  assert (E60 : forall d : Q, Qabs (d / 60) * 60 == Qabs d).
  { intros d. unfold Qdiv. rewrite Qabs_Qmult.
    change (Qabs (/ 60)) with (/ 60). field. }
  assert (Hu : Qabs q == if Qlt_le_dec q 0 then - q else q).
  { destruct (Qlt_le_dec q 0); [apply Qabs_neg | apply Qabs_pos]; lra. }
  clear Hc Hd Hcard. subst c. unfold w in *. clear w.
  destruct (Qlt_le_dec q 0) as [Hneg | Hpos]; cbv zeta iota;
    rewrite micro_split;
    set (t := inject_Z (Z.of_N micro) / 1000000) in *;
    set (w := inject_Z (Qfloor (Qabs q))) in *.
  - assert (E : - (w + t / 60) - q == - ((t - 60 * (- q - w)) / 60))
      by field.
    rewrite E, Qabs_opp, E60. apply Qabs_Qle_condition. lra.
  - assert (E : w + t / 60 - q == (t - 60 * (q - w)) / 60) by field.
    rewrite E, E60. apply Qabs_Qle_condition. lra.
Qed.

(** Minutes from 59.9999995 on are written as sixty. *)
Lemma convert_sixty (q : Q) :
  Qabs q < inject_Z (2 ^ 53) ->
  (599999995 # 10000000) + (1 # 140737488355328)
  < 60 * (Qabs q - inject_Z (Qfloor (Qabs q))) ->
  convert (Py.Ffinite q)
  = Ok (Py.str_of_int (Qfloor (Qabs q)) ++ lit "60.000000,"
        ++ [if Qlt_le_dec q 0 then south else north]).
Proof.
  intros Hq Hf.
  destruct (convert_text_any q Hq) as (micro & Hc & Hm & He).
  rewrite Hc. apply Qabs_Qle_condition in He.
  assert (Hlow : (59999999 < Z.of_N micro)%Z).
  { rewrite Zlt_Qlt. change (inject_Z 59999999) with 59999999.
    assert (Et : inject_Z (Z.of_N micro)
                 == inject_Z (Z.of_N micro) / 1000000 * 1000000) by field.
    set (t := inject_Z (Z.of_N micro) / 1000000) in *. rewrite Et. lra. }
  assert (micro = 60000000%N) by lia. subst micro.
  reflexivity.
Qed.

Close Scope Q_scope.

End ConverterAny.

(** X14: the converters do not look at the range of the coordinate.
    Every finite coordinate below [2^53] in absolute value, also a
    latitude beyond 90 degrees, is written as its whole degrees, with as
    many digits as they take, the minutes field and the letter of its
    sign; and the text decodes to the coordinate up to the rounding of
    the minutes. *)
Theorem nmea_any_degrees (x : Q) :
  (Qabs x < inject_Z (2 ^ 53))%Q ->
  (exists (micro : N) (v : Q),
     let text :=
       nmea_text (Qfloor (Qabs x)) micro
         (if Qlt_le_dec x 0 then lit "S" else lit "N") in
     convert_latitude_to_nmea_format (Py.Ffinite x) = Ok text
     /\ (micro <= 60000000)%N
     /\ nmea_decode text = Some v
     /\ (Qabs (v - x) * 60 <= (1 # 2000000) + (1 # 140737488355328))%Q)
  /\ (exists (micro : N) (v : Q),
        let text :=
          nmea_text (Qfloor (Qabs x)) micro
            (if Qlt_le_dec x 0 then lit "W" else lit "E") in
        convert_longitude_to_nmea_format (Py.Ffinite x) = Ok text
        /\ (micro <= 60000000)%N
        /\ nmea_decode text = Some v
        /\ (Qabs (v - x) * 60 <= (1 # 2000000) + (1 # 140737488355328))%Q).
Proof.
  intros Hx. split.
  - destruct (@convert_decodes_any convert_latitude_to_nmea_format 83%N 78%N
                ltac:(reflexivity) x Hx eq_refl eq_refl)
      as (micro & v & H).
    exists micro, v.
    replace (if Qlt_le_dec x 0 then lit "S" else lit "N")
      with [if Qlt_le_dec x 0 then 83%N else 78%N]
      by (now destruct (Qlt_le_dec x 0)).
    exact H.
  - destruct (@convert_decodes_any convert_longitude_to_nmea_format 87%N 69%N
                ltac:(reflexivity) x Hx eq_refl eq_refl)
      as (micro & v & H).
    exists micro, v.
    replace (if Qlt_le_dec x 0 then lit "W" else lit "E")
      with [if Qlt_le_dec x 0 then 87%N else 69%N]
      by (now destruct (Qlt_le_dec x 0)).
    exact H.
Qed.

Lemma nmea_any_degrees_witness :
  (exists (micro : N) (v : Q),
     let text :=
       nmea_text (Qfloor (Qabs (- (2471 # 20)))) micro
         (if Qlt_le_dec (- (2471 # 20)) 0 then lit "S" else lit "N") in
     convert_latitude_to_nmea_format (Py.Ffinite (- (2471 # 20))) = Ok text
     /\ (micro <= 60000000)%N
     /\ nmea_decode text = Some v
     /\ (Qabs (v - - (2471 # 20)) * 60
         <= (1 # 2000000) + (1 # 140737488355328))%Q)
  /\ (exists (micro : N) (v : Q),
        let text :=
          nmea_text (Qfloor (Qabs (- (2471 # 20)))) micro
            (if Qlt_le_dec (- (2471 # 20)) 0 then lit "W" else lit "E") in
        convert_longitude_to_nmea_format (Py.Ffinite (- (2471 # 20)))
        = Ok text
        /\ (micro <= 60000000)%N
        /\ nmea_decode text = Some v
        /\ (Qabs (v - - (2471 # 20)) * 60
            <= (1 # 2000000) + (1 # 140737488355328))%Q).
Proof.
  apply (@nmea_any_degrees (- (2471 # 20))).
  reflexivity.
Defined.

(** A latitude of 123.55 degrees south is written all the same. *)
Example latitude_beyond_the_pole :
  convert_latitude_to_nmea_format (Py.b64_round (- (2471 # 20)))
  = Ok (lit "12333.000000,S").
Proof. vm_compute. reflexivity. Qed.

(** X15: the minutes are rounded to six digits after the degrees have
    been taken off, and nothing is carried into the degrees: a coordinate
    whose minutes are 59.9999995 or more (by what binary64 arithmetic
    adds, [2^-47]) is written with the minutes field [60.000000] behind
    its whole degrees. *)
Theorem minutes_sixty (x : Q) :
  (Qabs x < inject_Z (2 ^ 53))%Q ->
  ((599999995 # 10000000) + (1 # 140737488355328)
   < 60 * (Qabs x - inject_Z (Qfloor (Qabs x))))%Q ->
  convert_latitude_to_nmea_format (Py.Ffinite x)
  = Ok (Py.str_of_int (Qfloor (Qabs x)) ++ lit "60.000000,"
        ++ (if Qlt_le_dec x 0 then lit "S" else lit "N"))
  /\ convert_longitude_to_nmea_format (Py.Ffinite x)
     = Ok (Py.str_of_int (Qfloor (Qabs x)) ++ lit "60.000000,"
           ++ (if Qlt_le_dec x 0 then lit "W" else lit "E")).
Proof.
  intros Hx Hf. split.
  - rewrite (@convert_sixty convert_latitude_to_nmea_format 83%N 78%N
               ltac:(reflexivity) x Hx Hf).
    now destruct (Qlt_le_dec x 0).
  - rewrite (@convert_sixty convert_longitude_to_nmea_format 87%N 69%N
               ltac:(reflexivity) x Hx Hf).
    now destruct (Qlt_le_dec x 0).
Qed.

Lemma minutes_sixty_witness :
  convert_latitude_to_nmea_format
    (Py.Ffinite (3399999999999 # 100000000000))
  = Ok (Py.str_of_int (Qfloor (Qabs (3399999999999 # 100000000000)))
        ++ lit "60.000000,"
        ++ (if Qlt_le_dec (3399999999999 # 100000000000) 0 then lit "S"
            else lit "N"))
  /\ convert_longitude_to_nmea_format
       (Py.Ffinite (3399999999999 # 100000000000))
     = Ok (Py.str_of_int (Qfloor (Qabs (3399999999999 # 100000000000)))
           ++ lit "60.000000,"
           ++ (if Qlt_le_dec (3399999999999 # 100000000000) 0 then lit "W"
               else lit "E")).
Proof.
  apply (@minutes_sixty (3399999999999 # 100000000000)).
  - reflexivity.
  - reflexivity.
Defined.

(** ** The checksum beyond one byte *)

Lemma lxor_below (k a b : N) :
  (a < 2 ^ k -> b < 2 ^ k -> N.lxor a b < 2 ^ k)%N.
Proof.
  intros Ha Hb.
  destruct (N.eq_dec a 0) as [-> | Na]; [now rewrite N.lxor_0_l |].
  destruct (N.eq_dec b 0) as [-> | Nb]; [now rewrite N.lxor_0_r |].
  destruct (N.eq_dec (N.lxor a b) 0) as [E | E]; [rewrite E; lia |].
  apply N.log2_lt_pow2; [lia |].
  eapply N.le_lt_trans; [apply N.log2_lxor |].
  apply N.max_lub_lt; apply N.log2_lt_pow2; try lia; assumption.
Qed.

Lemma checksum_fold_below (s : pystr) :
  forall a, (a < 2 ^ 20)%N -> Forall (fun c => (c < 2 ^ 20)%N) s ->
  List.fold_left checksum_step s (Ok a) = Ok (List.fold_left N.lxor s a)
  /\ (List.fold_left N.lxor s a < 2 ^ 20)%N.
Proof.
  induction s as [| c s IH]; intros a Ha Hs; simpl.
  - split; [reflexivity | exact Ha].
  - inversion Hs as [| ? ? Hc Hs']; subst.
    pose proof (@lxor_below 20 a c Ha Hc) as Hx.
    unfold Py.ord. rewrite chr_in_range.
    + apply IH; assumption.
    + unfold Py.max_code_point. change (2 ^ 20)%N with 1048576%N in Hx. lia.
Qed.

Lemma xor_fold_from (s : pystr) :
  forall a, List.fold_left N.lxor s a = N.lxor a (xor_fold s).
Proof.
  unfold xor_fold. induction s as [| c s IH]; intros a; simpl.
  - now rewrite N.lxor_0_r.
  - rewrite IH, (IH c). now rewrite N.lxor_assoc.
Qed.

Lemma xor_fold_cons (c : N) (s : pystr) :
  xor_fold (c :: s) = N.lxor c (xor_fold s).
Proof. unfold xor_fold at 1. simpl. apply xor_fold_from. Qed.

Lemma xor_fold_Permutation (s t : pystr) :
  Permutation s t -> xor_fold s = xor_fold t.
Proof.
  induction 1 as [| c s t _ IH | c c' s | s t u _ IH1 _ IH2].
  - reflexivity.
  - now rewrite !xor_fold_cons, IH.
  - rewrite !xor_fold_cons, <- !N.lxor_assoc. f_equal. apply N.lxor_comm.
  - congruence.
Qed.

(** *** Hexadecimal digits *)

Lemma hex_digit_char (d : N) :
  (d < 16)%N -> hex_digit (Py.digit_char d) = Some d.
Proof.
  intros H. unfold hex_digit, Py.digit_char.
  destruct (N.ltb_spec d 10) as [L | L].
  - replace ((48 <=? 48 + d) && (48 + d <=? 57))%N with true
      by (symmetry; apply andb_true_intro; split; apply N.leb_le; lia).
    f_equal. lia.
  - replace ((48 <=? 55 + d) && (55 + d <=? 57))%N with false
      by (symmetry; apply andb_false_intro2; apply N.leb_gt; lia).
    replace ((65 <=? 55 + d) && (55 + d <=? 70))%N with true
      by (symmetry; apply andb_true_intro; split; apply N.leb_le; lia).
    f_equal. lia.
Qed.

Lemma hex_value_app (s1 s2 : pystr) :
  forall a,
  hex_value a (s1 ++ s2)
  = match hex_value a s1 with
    | Some v => hex_value v s2
    | None => None
    end.
Proof.
  induction s1 as [| c s1 IH]; intros a; simpl; [reflexivity |].
  destruct (hex_digit c); [apply IH | reflexivity].
Qed.

Lemma digits_aux_hex (fuel : nat) :
  forall (n : N) (acc : pystr),
  (n < 2 ^ N.of_nat fuel)%N ->
  exists ds,
    Py.digits_aux fuel 16 n acc = ds ++ acc
    /\ hex_value 0 ds = Some n
    /\ (fuel <> 0%nat -> ds <> []).
Proof.
  induction fuel as [| fuel IH]; intros n acc Hn.
  - exists []. simpl in Hn. assert (n = 0%N) by lia. subst n.
    repeat split; simpl; try reflexivity; congruence.
  - simpl.
    pose proof (@hex_digit_char (n mod 16)%N ltac:(apply N.mod_lt; lia)) as Hd.
    destruct (N.eqb_spec (n / 16) 0) as [E | E].
    + exists [Py.digit_char (n mod 16)].
      assert (n mod 16 = n)%N as Hsmall.
      { apply N.mod_small. apply N.div_small_iff in E; lia. }
      repeat split; cbn [hex_value].
      * rewrite Hd. f_equal. lia.
      * discriminate.
    + assert (Hhalf : (n / 16 < 2 ^ N.of_nat fuel)%N).
      { rewrite Nat2N.inj_succ, N.pow_succ_r' in Hn.
        apply N.Div0.div_lt_upper_bound.
        remember (2 ^ N.of_nat fuel)%N as X. clear - Hn. lia. }
      destruct (IH (n / 16)%N (Py.digit_char (n mod 16) :: acc) Hhalf)
        as (ds & Heq & Hval & _).
      exists (ds ++ [Py.digit_char (n mod 16)]).
      repeat split.
      * rewrite Heq, <- List.app_assoc. reflexivity.
      * rewrite hex_value_app, Hval. cbn [hex_value].
        rewrite Hd. f_equal. symmetry. apply N.div_mod. lia.
      * intros _. destruct ds; discriminate.
Qed.

Lemma hex_value_zeros (k : nat) (s : pystr) :
  hex_value 0 (List.repeat 48%N k ++ s) = hex_value 0 s.
Proof. induction k as [| k IH]; simpl; [reflexivity | exact IH]. Qed.

(** The rendering of a number is read back as the number. *)
Lemma hex_decode_format (n : N) :
  hex_decode (Py.format_02X n) = Some n
  /\ (2 <= List.length (Py.format_02X n))%nat.
Proof.
  unfold Py.format_02X, Py.digits.
  destruct (@digits_aux_hex (S (N.to_nat (N.log2 n))) n [])
    as (ds & Heq & Hval & Hne).
  - rewrite Nat2N.inj_succ, N2Nat.id.
    destruct (N.eq_dec n 0) as [-> | Hn]; [reflexivity |].
    apply N.log2_spec. lia.
  - rewrite Heq, List.app_nil_r. split.
    + unfold hex_decode, Py.zfill.
      destruct (List.repeat 48%N _ ++ ds) eqn:E.
      * apply List.app_eq_nil in E as [_ E]. now apply Hne in E.
      * rewrite <- E, hex_value_zeros. exact Hval.
    + unfold Py.zfill. rewrite List.length_app, List.repeat_length. lia.
Qed.

(** X16: on every string of code points below [2^20], which are the
    characters of the first sixteen planes, the checksum is returned
    without an exception, it is the XOR of the code points in upper-case
    hexadecimal digits, at least two of them, and reading the digits back
    gives the XOR. *)
Theorem get_checksum_decodes (s : pystr) :
  Forall (fun c => (c < 2 ^ 20)%N) s ->
  get_checksum s = Ok (Py.format_02X (xor_fold s))
  /\ hex_decode (Py.format_02X (xor_fold s)) = Some (xor_fold s)
  /\ (2 <= List.length (Py.format_02X (xor_fold s)))%nat.
Proof.
  intros Hs.
  destruct (@checksum_fold_below s 0%N ltac:(reflexivity) Hs) as [Hfold _].
  split; [| apply hex_decode_format].
  unfold get_checksum.
  rewrite chr_in_range by (unfold Py.max_code_point; lia).
  rewrite Hfold. reflexivity.
Qed.

Lemma get_checksum_decodes_witness :
  get_checksum [8212%N; 65%N]
  = Ok (Py.format_02X (xor_fold [8212%N; 65%N]))
  /\ hex_decode (Py.format_02X (xor_fold [8212%N; 65%N]))
     = Some (xor_fold [8212%N; 65%N])
  /\ (2 <= List.length (Py.format_02X (xor_fold [8212%N; 65%N])))%nat.
Proof.
  apply (@get_checksum_decodes [8212%N; 65%N]).
  repeat constructor.
Defined.

(** Beyond the sixteenth plane the XOR of two characters need not be a
    code point, and [chr] raises. *)
Example get_checksum_beyond_unicode :
  get_checksum [1048576%N; 65536%N] = Raise ValueError.
Proof. reflexivity. Qed.

(** X17: the checksum does not depend on the order of the characters: two
    strings with the same characters, each as often in the one as in the
    other, have the same checksum. *)
Theorem get_checksum_order (s t : pystr) :
  Permutation s t ->
  Forall (fun c => (c < 2 ^ 20)%N) s ->
  get_checksum s = get_checksum t.
Proof.
  intros Hp Hs.
  assert (Ht : Forall (fun c => (c < 2 ^ 20)%N) t).
  { rewrite Forall_forall in *. intros c Hc. apply Hs.
    eapply Permutation_in; [symmetry; exact Hp | exact Hc]. }
  destruct (@checksum_fold_below s 0%N ltac:(reflexivity) Hs) as [Es _].
  destruct (@checksum_fold_below t 0%N ltac:(reflexivity) Ht) as [Et _].
  unfold get_checksum.
  rewrite chr_in_range by (unfold Py.max_code_point; lia).
  rewrite Es, Et. fold (xor_fold s) (xor_fold t).
  now rewrite (xor_fold_Permutation Hp).
Qed.

Lemma get_checksum_order_witness :
  get_checksum (lit "GPGGA,123456") = get_checksum (lit "GPGGA,214365").
Proof.
  apply (@get_checksum_order (lit "GPGGA,123456") (lit "GPGGA,214365")).
  - change (lit "GPGGA,123456") with (lit "GPGGA," ++ lit "123456").
    change (lit "GPGGA,214365") with (lit "GPGGA," ++ lit "214365").
    apply Permutation_app_head.
    change (lit "123456") with [49; 50; 51; 52; 53; 54]%N.
    change (lit "214365") with [50; 49; 52; 51; 54; 53]%N.
    apply perm_trans with [50; 49; 51; 52; 53; 54]%N; [apply perm_swap |].
    do 2 apply perm_skip.
    apply perm_trans with [52; 51; 53; 54]%N; [apply perm_swap |].
    do 2 apply perm_skip. apply perm_swap.
  - apply Forall_forall. intros c Hc.
    pose proof (lit_latin1 "GPGGA,123456") as H.
    unfold latin1 in H. rewrite Forall_forall in H. specialize (H c Hc).
    change (2 ^ 20)%N with 1048576%N. lia.
Defined.

(** ** The sentences that are printed *)

Lemma digits_aux_forallb (f : N -> bool) (b : N) (fuel : nat) :
  (0 < b)%N ->
  (forall d, (d < b)%N -> f (Py.digit_char d) = true) ->
  forall (n : N) (acc : pystr),
  List.forallb f acc = true ->
  List.forallb f (Py.digits_aux fuel b n acc) = true.
Proof.
  intros Hb Hf. induction fuel as [| fuel IH]; intros n acc Hacc; simpl.
  - exact Hacc.
  - assert (Hc : List.forallb f (Py.digit_char (n mod b) :: acc) = true).
    { simpl. rewrite Hacc, Hf; [reflexivity |]. apply N.mod_lt. lia. }
    destruct (n / b =? 0)%N; [exact Hc | now apply IH].
Qed.

Lemma digits_body (n : N) : List.forallb is_body_char (Py.digits 10 n) = true.
Proof.
  unfold Py.digits. apply digits_aux_forallb; [lia | | reflexivity].
  intros d Hd. unfold is_body_char.
  destruct (@digit_char_decimal d Hd) as [H _]. now rewrite H.
Qed.

Lemma zfill_body (w : nat) (s : pystr) :
  List.forallb is_body_char s = true ->
  List.forallb is_body_char (Py.zfill w s) = true.
Proof.
  intros H. unfold Py.zfill. rewrite List.forallb_app, H, andb_true_r.
  apply List.forallb_forall. intros c Hc.
  apply List.repeat_spec in Hc. now subst c.
Qed.

Lemma nmea_text_body (degrees : Z) (micro c : N) :
  0 <= degrees -> is_body_char c = true ->
  List.forallb is_body_char (nmea_text degrees micro [c]) = true.
Proof.
  intros Hd Hc. unfold nmea_text, minutes_field.
  assert (E : Py.str_of_int degrees = Py.digits 10 (Z.to_N degrees))
    by (destruct degrees; [reflexivity | reflexivity | lia]).
  rewrite E, !List.forallb_app.
  rewrite digits_body, !zfill_body by apply digits_body.
  simpl. now rewrite Hc.
Qed.

Lemma strftime_HMS_body (t : Py.datetime) :
  List.forallb is_body_char (Py.strftime_HMS t) = true.
Proof.
  unfold Py.strftime_HMS. rewrite !List.forallb_app.
  now rewrite !zfill_body by apply digits_body.
Qed.

Lemma body_latin1 (s : pystr) :
  List.forallb is_body_char s = true -> latin1 s.
Proof.
  intros H. apply Forall_forall. intros c Hc.
  rewrite List.forallb_forall in H. specialize (H c Hc).
  unfold is_body_char, is_decimal in H.
  destruct (N.leb_spec c 57); [lia |].
  destruct (N.leb_spec c 90); [lia |].
  destruct (N.eqb_spec c 44); [lia |].
  destruct (N.eqb_spec c 46); [lia |].
  rewrite !andb_false_r in H. discriminate H.
Qed.

Lemma hex_decode_byte (x : N) :
  (x < 256)%N ->
  hex_decode [Py.digit_char (x / 16); Py.digit_char (x mod 16)] = Some x.
Proof.
  intros Hx. unfold hex_decode. cbn [hex_value].
  rewrite !hex_digit_char.
  - f_equal. pose proof (N.div_mod x 16 ltac:(lia)). lia.
  - apply N.mod_lt. lia.
  - apply N.Div0.div_lt_upper_bound. lia.
Qed.

(** The sentence for coordinates below [2^53]. *)
Lemma gpgga_checked (cfg : config) (x y : Q) (utc zone : Z) :
  LATITUDE cfg = Py.Ffinite x ->
  LONGITUDE cfg = Py.Ffinite y ->
  (Qabs x < inject_Z (2 ^ 53))%Q ->
  (Qabs y < inject_Z (2 ^ 53))%Q ->
  exists sentence,
    get_mock_gps_location_in_nmea_gpgga_format cfg utc zone = Ok sentence
    /\ checked_sentence sentence.
Proof.
  intros Ex Ey Hx Hy.
  destruct (@convert_text_any convert_latitude_to_nmea_format 83%N 78%N
              ltac:(reflexivity) x Hx) as (mx & Hcx & _).
  destruct (@convert_text_any convert_longitude_to_nmea_format 87%N 69%N
              ltac:(reflexivity) y Hy) as (my & Hcy & _).
  assert (Hfloor : forall q : Q, 0 <= Qfloor (Qabs q)).
  { intros q. change 0 with (Qfloor 0). apply Qfloor_resp_le.
    apply Qabs_nonneg. }
  set (la := nmea_text (Qfloor (Qabs x)) mx
               [if Qlt_le_dec x 0 then 83%N else 78%N]) in *.
  set (lo := nmea_text (Qfloor (Qabs y)) my
               [if Qlt_le_dec y 0 then 87%N else 69%N]) in *.
  set (body := gpgga_body (Py.strftime_HMS (Py.datetime_now utc zone)) la lo).
  assert (Hb : List.forallb is_body_char body = true).
  { unfold body, gpgga_body. rewrite !List.forallb_app.
    rewrite strftime_HMS_body.
    unfold la, lo. rewrite !nmea_text_body; try apply Hfloor;
      try reflexivity; [now destruct (Qlt_le_dec y 0) |
                        now destruct (Qlt_le_dec x 0)]. }
  destruct (get_checksum_byte (body_latin1 _ Hb)) as [Hc Hlt].
  eexists. split.
  - unfold get_mock_gps_location_in_nmea_gpgga_format.
    rewrite Ex, Ey, Hcx, Hcy. cbn [bind]. fold body. rewrite Hc.
    cbn [bind]. reflexivity.
  - exists body. eexists. split; [reflexivity |].
    split; [exact Hb |]. split; [reflexivity |].
    now apply hex_decode_byte.
Qed.

(** X18: with coordinates below [2^53] the loop of the main thread never
    ends by an exception: in [n] turns it prints [n] lines, and each of
    them is a sentence that a receiver accepts: ['$'], a body of digits,
    upper-case letters, commas and points, ['*'], and two hexadecimal
    digits that denote the XOR of the code points of the body. *)
Theorem main_loop_prints (cfg : config) (x y : Q) (clock : nat -> Z)
    (zone : Z) (n : nat) :
  LATITUDE cfg = Py.Ffinite x ->
  LONGITUDE cfg = Py.Ffinite y ->
  (Qabs x < inject_Z (2 ^ 53))%Q ->
  (Qabs y < inject_Z (2 ^ 53))%Q ->
  snd (main_loop cfg clock zone 0 n) = Ok tt
  /\ List.length (fst (main_loop cfg clock zone 0 n)) = n
  /\ Forall checked_sentence (fst (main_loop cfg clock zone 0 n)).
Proof.
  intros Ex Ey Hx Hy. generalize 0%nat.
  induction n as [| n IH]; intros i; simpl.
  - repeat split. constructor.
  - destruct (@gpgga_checked cfg x y (clock i) zone Ex Ey Hx Hy)
      as (sentence & Hs & Hc).
    rewrite Hs. specialize (IH (S i)).
    destruct (main_loop cfg clock zone (S i) n) as [printed r].
    cbn [fst snd] in *. destruct IH as (Hr & Hl & Hf).
    repeat split; [exact Hr | simpl; now rewrite Hl | now constructor].
Qed.

Lemma main_loop_prints_witness :
  let clock := fun i : nat => noon + Z.of_nat i * 50000 in
  snd (main_loop default_config clock 0 0 3) = Ok tt
  /\ List.length (fst (main_loop default_config clock 0 0 3)) = 3%nat
  /\ Forall checked_sentence (fst (main_loop default_config clock 0 0 3)).
Proof.
  intros clock.
  refine (@main_loop_prints default_config
            (588194740395049 # 17592186044416)%Q
            (- (7881885754568973 # 70368744177664))%Q clock 0 3%nat
            _ _ _ _);
    vm_compute; reflexivity.
Defined.

(** With a map center that is not a number the first turn of the loop
    ends the program, and nothing is printed. *)
Example main_loop_not_a_number :
  main_loop
    {| LATITUDE := Py.Fnan;
       LONGITUDE := LONGITUDE default_config;
       NAVIT_POI_ACTIVE_ICON_FILE_PATH :=
         NAVIT_POI_ACTIVE_ICON_FILE_PATH default_config;
       NAVIT_POI_INACTIVE_ICON_FILE_PATH :=
         NAVIT_POI_INACTIVE_ICON_FILE_PATH default_config;
       CLEAR_DIRE_WOLF_CSV_LOG_FILE_AFTER_READING := true;
       SHOW_COMMENT_FIELD := true;
       MINUTES_UNTIL_APRS_INACTIVE := Some 5;
       MINUTES_UNTIL_APRS_REMOVED := Some 60 |}
    (fun _ => noon) 0 0 3
  = ([], Raise ValueError).
Proof. vm_compute. reflexivity. Qed.

(** ** The time of the sentence *)

Lemma zfill_two_digits (n : Z) :
  0 <= n < 100 -> Py.zfill 2 (Py.digits 10 (Z.to_N n)) = two_digits n.
Proof.
  intros Hn.
  assert (T : List.forallb
                (fun k =>
                   Py.str_eqb
                     (Py.zfill 2 (Py.digits 10 (Z.to_N (Z.of_nat k))))
                     (two_digits (Z.of_nat k)))
                (List.seq 0 100) = true)
    by (vm_compute; reflexivity).
  rewrite List.forallb_forall in T.
  specialize (T (Z.to_nat n)).
  rewrite Z2Nat.id in T by lia.
  apply str_eqb_eq. apply T. apply List.in_seq. lia.
Qed.

(** X22: the time in the sentence is the time of the day of the local
    wall clock, the clock of the machine moved by its zone, in six
    digits: two for the hour, two for the minute and two for the second.
    The sentence is ['$GPGGA,'], these six digits, the two coordinates in
    NMEA format between commas, the fixed fields, ['*'] and the
    checksum. *)
Theorem gpgga_time_field (cfg : config) (x y : Q) (utc zone : Z) :
  LATITUDE cfg = Py.Ffinite x ->
  LONGITUDE cfg = Py.Ffinite y ->
  (Qabs x < inject_Z (2 ^ 53))%Q ->
  (Qabs y < inject_Z (2 ^ 53))%Q ->
  let s := ((utc + zone) / 1000000) mod 86400 in
  exists nmea_latitude nmea_longitude checksum,
    convert_latitude_to_nmea_format (LATITUDE cfg) = Ok nmea_latitude
    /\ convert_longitude_to_nmea_format (LONGITUDE cfg) = Ok nmea_longitude
    /\ get_mock_gps_location_in_nmea_gpgga_format cfg utc zone
       = Ok (lit "$GPGGA," ++ two_digits (s / 3600)
             ++ two_digits ((s / 60) mod 60) ++ two_digits (s mod 60)
             ++ lit "," ++ nmea_latitude ++ lit "," ++ nmea_longitude
             ++ lit ",1,12,1.0,0.0,M,0.0,M,,*" ++ checksum)
    /\ 0 <= s / 3600 < 24.
Proof.
  intros Ex Ey Hx Hy s.
  destruct (@convert_text_any convert_latitude_to_nmea_format 83%N 78%N
              ltac:(reflexivity) x Hx) as (mx & Hcx & _).
  destruct (@convert_text_any convert_longitude_to_nmea_format 87%N 69%N
              ltac:(reflexivity) y Hy) as (my & Hcy & _).
  assert (Hfloor : forall q : Q, 0 <= Qfloor (Qabs q)).
  { intros q. change 0 with (Qfloor 0). apply Qfloor_resp_le.
    apply Qabs_nonneg. }
  set (la := nmea_text (Qfloor (Qabs x)) mx
               [if Qlt_le_dec x 0 then 83%N else 78%N]) in *.
  set (lo := nmea_text (Qfloor (Qabs y)) my
               [if Qlt_le_dec y 0 then 87%N else 69%N]) in *.
  set (body := gpgga_body (Py.strftime_HMS (Py.datetime_now utc zone)) la lo).
  assert (Hb : List.forallb is_body_char body = true).
  { unfold body, gpgga_body. rewrite !List.forallb_app.
    rewrite strftime_HMS_body.
    unfold la, lo. rewrite !nmea_text_body; try apply Hfloor;
      try reflexivity; [now destruct (Qlt_le_dec y 0) |
                        now destruct (Qlt_le_dec x 0)]. }
  destruct (get_checksum_byte (body_latin1 _ Hb)) as [Hc _].
  assert (Hs : 0 <= s < 86400) by (unfold s; apply Z.mod_pos_bound; lia).
  exists la, lo. eexists.
  rewrite Ex, Ey. split; [exact Hcx |]. split; [exact Hcy |]. split.
  - unfold get_mock_gps_location_in_nmea_gpgga_format.
    rewrite Ex, Ey, Hcx, Hcy. cbn [bind]. fold body. rewrite Hc.
    cbn [bind]. f_equal.
    unfold body, gpgga_body, Py.strftime_HMS, Py.datetime_now.
    cbn [Py.wall]. fold s.
    rewrite !zfill_two_digits
      by (Z.div_mod_to_equations; lia).
    change (lit "$GPGGA,") with (lit "$" ++ lit "GPGGA,").
    change (lit ",1,12,1.0,0.0,M,0.0,M,,*")
      with (lit ",1,12,1.0,0.0,M,0.0,M,," ++ lit "*").
    repeat rewrite <- List.app_assoc. reflexivity.
  - Z.div_mod_to_equations; lia.
Qed.

Lemma gpgga_time_field_witness :
  let utc := noon + (34 * 60 + 56) * 1000000 in
  let zone := - (7 * 3600 * 1000000) in
  let s := ((utc + zone) / 1000000) mod 86400 in
  exists nmea_latitude nmea_longitude checksum,
    convert_latitude_to_nmea_format (LATITUDE default_config)
    = Ok nmea_latitude
    /\ convert_longitude_to_nmea_format (LONGITUDE default_config)
       = Ok nmea_longitude
    /\ get_mock_gps_location_in_nmea_gpgga_format default_config utc zone
       = Ok (lit "$GPGGA," ++ two_digits (s / 3600)
             ++ two_digits ((s / 60) mod 60) ++ two_digits (s mod 60)
             ++ lit "," ++ nmea_latitude ++ lit "," ++ nmea_longitude
             ++ lit ",1,12,1.0,0.0,M,0.0,M,,*" ++ checksum)
    /\ 0 <= s / 3600 < 24.
Proof.
  intros utc zone.
  refine (@gpgga_time_field default_config
            (588194740395049 # 17592186044416)%Q
            (- (7881885754568973 # 70368744177664))%Q utc zone _ _ _ _);
    vm_compute; reflexivity.
Defined.
